(** * my_todoo: the aggregation, normalisation and retry core

    A shallow embedding of [src/api/unified.ts], [src/api/notion.ts],
    [src/api/todoist.ts] and [src/api/taskService.ts], followed by the
    properties of the specification that concern them.

    Conventions of the embedding.
    - Provider records are untyped at run time ([Record<string, unknown>]
      behind unchecked [as] casts), so they are modelled by a JSON-like
      value type [JsVal]; every field of a task that is copied from a
      provider record keeps the raw value.
    - JavaScript numbers are modelled by [Z]: the code only compares them
      with integer literals (429, 500, 4, 3, 2).
    - [toLowerCase] and [trim] are modelled on the ASCII range.
    - A thrown value is a [JsError]; a computation that may throw returns
      a [Res]. *)

From Stdlib Require Import String Ascii ZArith List Lia Bool Arith.
From Stdlib Require Import DecimalString Permutation Sorted.
Import ListNotations.

Local Open Scope string_scope.
Local Open Scope Z_scope.

(* ===================================================================== *)
(** ** JavaScript values *)
(* ===================================================================== *)

#[warnings="-register-all"]
Inductive JsVal : Type :=
| JUndefined
| JNull
| JBool (b : bool)
| JNum (n : Z)
| JStr (s : string)
| JArr (items : list JsVal)
| JObj (fields : list (string * JsVal)).

(** What a [throw] carries.  The two retry helpers read the [status] and
    [httpStatusCode] properties of the caught value. *)
Record JsError : Type := mkError {
  err_name : string;
  err_message : string;
  err_status : JsVal;
  err_httpStatusCode : JsVal
}.

Definition TypeError (msg : string) : JsError :=
  mkError "TypeError" msg JUndefined JUndefined.

(** [new Error(msg)] *)
Definition Error (msg : string) : JsError :=
  mkError "Error" msg JUndefined JUndefined.

Inductive Res (A : Type) : Type :=
| Ok (a : A)
| Throw (e : JsError).
Arguments Ok {A} a.
Arguments Throw {A} e.

Definition res_bind {A B} (r : Res A) (k : A -> Res B) : Res B :=
  match r with
  | Ok a => k a
  | Throw e => Throw e
  end.

Fixpoint res_map_list {A B} (f : A -> Res B) (l : list A) : Res (list B) :=
  match l with
  | [] => Ok []
  | x :: rest =>
      res_bind (f x) (fun y =>
      res_bind (res_map_list f rest) (fun ys => Ok (y :: ys)))
  end.

Module Js.

Definition string_of_Z (n : Z) : string :=
  NilZero.string_of_int (Z.to_int n).

(** [a ?? b] *)
Definition nullish (v : JsVal) : bool :=
  match v with
  | JUndefined | JNull => true
  | _ => false
  end.

Definition coalesce (a b : JsVal) : JsVal :=
  if nullish a then b else a.

(** ToBoolean *)
Definition truthy (v : JsVal) : bool :=
  match v with
  | JUndefined | JNull => false
  | JBool b => b
  | JNum n => negb (n =? 0)
  | JStr s => negb (String.eqb s "")
  | JArr _ | JObj _ => true
  end.

(** [a || b] *)
Definition or_else (a b : JsVal) : JsVal :=
  if truthy a then a else b.

Fixpoint lookup (k : string) (fields : list (string * JsVal)) : JsVal :=
  match fields with
  | [] => JUndefined
  | (k', v) :: rest => if String.eqb k k' then v else lookup k rest
  end.

(** [v.k] on a value that is neither [undefined] nor [null].  None of
    the property names read by the normalisers is defined on a string, a
    number, a boolean or an array, or inherited from [Object.prototype],
    so only the own properties of an object answer. *)
Definition get (v : JsVal) (k : string) : JsVal :=
  match v with
  | JObj fields => lookup k fields
  | _ => JUndefined
  end.

(** [v.k]: reading a property of [undefined] or [null] throws. *)
Definition get_strict (v : JsVal) (k : string) : Res JsVal :=
  if nullish v
  then Throw (TypeError ("Cannot read properties of " ++
                         (match v with JNull => "null" | _ => "undefined" end) ++
                         " (reading '" ++ k ++ "')"))
  else Ok (get v k).

(** [v?.k] *)
Definition get_opt (v : JsVal) (k : string) : JsVal :=
  if nullish v then JUndefined else get v k.

(** ToString, with [Array.prototype.join] for arrays: [undefined] and
    [null] elements of an array print as the empty string. *)
Fixpoint toString (v : JsVal) : string :=
  match v with
  | JUndefined => "undefined"
  | JNull => "null"
  | JBool true => "true"
  | JBool false => "false"
  | JNum n => string_of_Z n
  | JStr s => s
  | JArr items =>
      (fix join_comma (l : list JsVal) : string :=
         match l with
         | [] => ""
         | x :: rest =>
             let sx := match x with
                       | JUndefined | JNull => ""
                       | _ => toString x
                       end in
             match rest with
             | [] => sx
             | _ :: _ => sx ++ "," ++ join_comma rest
             end
         end) items
  | JObj _ => "[object Object]"
  end.

(** [arr.join('')] *)
Definition join_empty (l : list JsVal) : string :=
  String.concat ""
    (map (fun x => match x with
                   | JUndefined | JNull => ""
                   | _ => toString x
                   end) l).

Definition is_upper (c : ascii) : bool :=
  ((65 <=? Z.of_nat (nat_of_ascii c)) && (Z.of_nat (nat_of_ascii c) <=? 90))%bool.

Definition lower_ascii (c : ascii) : ascii :=
  if is_upper c then ascii_of_nat (nat_of_ascii c + 32) else c.

Fixpoint toLowerCase (s : string) : string :=
  match s with
  | EmptyString => EmptyString
  | String c rest => String (lower_ascii c) (toLowerCase rest)
  end.

(** TAB, LF, VT, FF, CR and SPACE *)
Definition is_space (c : ascii) : bool :=
  let n := nat_of_ascii c in
  ((Nat.leb 9 n && Nat.leb n 13) || Nat.eqb n 32)%bool.

Fixpoint trimStart (s : string) : string :=
  match s with
  | EmptyString => EmptyString
  | String c rest => if is_space c then trimStart rest else s
  end.

Fixpoint trimEnd (s : string) : string :=
  match s with
  | EmptyString => EmptyString
  | String c rest =>
      match trimEnd rest with
      | EmptyString => if is_space c then EmptyString else String c EmptyString
      | t => String c t
      end
  end.

Definition trim (s : string) : string := trimEnd (trimStart s).

(** [list.includes(s)] on an array of string literals *)
Definition includes (l : list string) (s : string) : bool :=
  existsb (String.eqb s) l.

End Js.

Notation "a ?? b" := (Js.coalesce a b) (at level 45, right associativity).
Notation "a .[ k ]" := (Js.get a k) (at level 1, left associativity, format "a .[ k ]").
Notation "a ?.[ k ]" := (Js.get_opt a k) (at level 1, left associativity, format "a ?.[ k ]").

(* ===================================================================== *)
(** ** The canonical model ([src/types/task.ts]) *)
(* ===================================================================== *)

Inductive TaskStatus : Type := todo | in_progress | done.
Inductive TaskPriority : Type := low | medium | high | urgent.

(** [UnifiedTask].  The TypeScript field types are given in comments; the
    fields filled by an unchecked cast of a provider value hold that
    value, and an optional field that is not set holds [JUndefined]. *)
Record UnifiedTask : Type := mkTask {
  id : string;
  source : string;            (* 'notion' | 'todoist' *)
  sourceId : JsVal;           (* string *)
  title : JsVal;              (* string *)
  description : JsVal;        (* string, optional *)
  status : TaskStatus;
  priority : TaskPriority;
  dueDate : JsVal;            (* string, optional *)
  createdAt : JsVal;          (* string *)
  updatedAt : JsVal;          (* string *)
  labels : JsVal;             (* string[], optional *)
  projectName : JsVal         (* string, optional *)
}.

(* ===================================================================== *)
(** ** Provider normalisers ([src/api/unified.ts]) *)
(* ===================================================================== *)

(** [richTextToPlain]: a value that is not an array ([Array.isArray]) gives
    the empty string; the callback [rt => rt.plain_text ?? ''] throws on an
    [undefined] or [null] fragment. *)
Definition richTextToPlain (prop : JsVal) : Res string :=
  match prop with
  | JArr items =>
      res_bind
        (res_map_list
           (fun rt => res_bind (Js.get_strict rt "plain_text")
                        (fun p => Ok (p ?? JStr "")))
           items)
        (fun parts => Ok (Js.join_empty parts))
  | _ => Ok ""
  end.

(** [raw.toLowerCase()] is a call of [undefined] when [raw] is not a string. *)
Definition lower_trim (raw : JsVal) : Res string :=
  match raw with
  | JStr s => Ok (Js.trim (Js.toLowerCase s))
  | _ => Throw (TypeError "raw.toLowerCase is not a function")
  end.

Definition mapNotionStatus (raw : JsVal) : Res TaskStatus :=
  if negb (Js.truthy raw) then Ok todo
  else
    res_bind (lower_trim raw) (fun lower =>
    if Js.includes ["done"; "complete"; "completed"] lower then Ok done
    else if Js.includes ["in progress"; "in_progress"; "doing"; "started"] lower
         then Ok in_progress
    else Ok todo).

Definition mapNotionPriority (raw : JsVal) : Res TaskPriority :=
  if negb (Js.truthy raw) then Ok medium
  else
    res_bind (lower_trim raw) (fun lower =>
    if Js.includes ["urgent"; "critical"] lower then Ok urgent
    else if Js.includes ["high"] lower then Ok high
    else if Js.includes ["low"] lower then Ok low
    else Ok medium).

Definition empty_object : JsVal := JObj [].

(** [notionPageToTask].  [now] is the value of [new Date().toISOString()]
    at the time of the call. *)
Definition notionPageToTask (now : string) (page : list (string * JsVal))
  : Res UnifiedTask :=
  let page := JObj page in
  let props := page.["properties"] ?? empty_object in
  (* Title *)
  let titleProp := props.["Name"] ?? props.["Title"] ?? props.["title"] ?? empty_object in
  let titleRichText := titleProp.["title"] in
  res_bind (richTextToPlain titleRichText) (fun titlePlain =>
  let title := Js.or_else (JStr titlePlain) (JStr "Untitled") in
  (* Description *)
  let descProp := props.["Description"] ?? props.["description"] ?? empty_object in
  let descRichText := descProp.["rich_text"] in
  res_bind (richTextToPlain descRichText) (fun descPlain =>
  let description := Js.or_else (JStr descPlain) JUndefined in
  (* Status *)
  let statusProp := props.["Status"] ?? props.["status"] ?? empty_object in
  let statusObj := statusProp.["status"] in
  res_bind (mapNotionStatus statusObj?.["name"]) (fun status =>
  (* Priority *)
  let priorityProp := props.["Priority"] ?? props.["priority"] ?? empty_object in
  let priorityObj := priorityProp.["select"] in
  res_bind (mapNotionPriority priorityObj?.["name"]) (fun priority =>
  (* Due date *)
  let dueProp := props.["Due"] ?? props.["Due Date"] ?? props.["due_date"] ?? empty_object in
  let dateObj := dueProp.["date"] in
  let dueDate := dateObj?.["start"] ?? JUndefined in
  (* Labels / Tags *)
  let tagsProp := props.["Tags"] ?? props.["Labels"] ?? props.["tags"] ?? empty_object in
  let multiSelect := tagsProp.["multi_select"] in
  res_bind
    (match multiSelect with
     | JArr items =>
         res_bind (res_map_list (fun s => Js.get_strict s "name") items)
           (fun names => Ok (JArr names))
     | _ => Ok JUndefined
     end) (fun labels =>
  (* Project *)
  let projectProp := props.["Project"] ?? props.["project"] ?? empty_object in
  let projectSelect := projectProp.["select"] in
  let projectName := projectSelect?.["name"] ?? JUndefined in
  (* Timestamps *)
  let createdAt := page.["created_time"] ?? JStr now in
  let updatedAt := page.["last_edited_time"] ?? createdAt in
  Ok {| id := "notion-" ++ Js.toString page.["id"];
        source := "notion";
        sourceId := page.["id"];
        title := title;
        description := description;
        status := status;
        priority := priority;
        dueDate := dueDate;
        createdAt := createdAt;
        updatedAt := updatedAt;
        labels := labels;
        projectName := projectName |}))))).

(** [mapTodoistPriority]: a [switch] with strict equality on 4, 3 and 2. *)
Definition mapTodoistPriority (p : JsVal) : TaskPriority :=
  match p with
  | JNum 4 => urgent
  | JNum 3 => high
  | JNum 2 => medium
  | _ => low
  end.

(** [todoistItemToTask] *)
Definition todoistItemToTask (now : string) (item : list (string * JsVal))
  : UnifiedTask :=
  let item := JObj item in
  let id_ := item.["id"] ?? JStr "" in
  let title := item.["content"] ?? JStr "Untitled" in
  let description := Js.or_else item.["description"] JUndefined in
  let priority := mapTodoistPriority item.["priority"] in
  let isCompleted := item.["isCompleted"] ?? JBool false in
  let status := if Js.truthy isCompleted then done else todo in
  (* Due date *)
  let due := item.["due"] in
  let dueDate := due?.["date"] ?? JUndefined in
  (* Labels *)
  let rawLabels := item.["labels"] in
  let labels :=
    match rawLabels with
    | JArr l => if (0 <? Z.of_nat (length l)) then rawLabels else JUndefined
    | _ => JUndefined
    end in
  let projectName := item.["projectName"] ?? JUndefined in
  (* Timestamps *)
  let createdAt := item.["createdAt"] ?? JStr now in
  let updatedAt := createdAt in
  {| id := "todoist-" ++ Js.toString id_;
     source := "todoist";
     sourceId := id_;
     title := title;
     description := description;
     status := status;
     priority := priority;
     dueDate := dueDate;
     createdAt := createdAt;
     updatedAt := updatedAt;
     labels := labels;
     projectName := projectName |}.

(* ===================================================================== *)
(** ** Effects: a reader, state and exception monad

    [E] is the environment (what the outside world answers), [S] the
    mutable state.  Unlike a state transformer over an error monad, the
    state reached when a [throw] happens is kept: calls already issued
    stay issued. *)
(* ===================================================================== *)

Definition M (E S A : Type) : Type := E -> S -> Res A * S.

Definition ret {E S A} (a : A) : M E S A := fun _ s => (Ok a, s).

Definition throw {E S A} (e : JsError) : M E S A := fun _ s => (Throw e, s).

Definition bind {E S A B} (c : M E S A) (k : A -> M E S B) : M E S B :=
  fun env s =>
    match c env s with
    | (Ok a, s') => k a env s'
    | (Throw e, s') => (Throw e, s')
    end.

(** [try { c } catch (err) { h err }] *)
Definition try_catch {E S A} (c : M E S A) (h : JsError -> M E S A) : M E S A :=
  fun env s =>
    match c env s with
    | (Ok a, s') => (Ok a, s')
    | (Throw e, s') => h e env s'
    end.

Definition ask {E S} : M E S E := fun env s => (Ok env, s).
Definition get_state {E S} : M E S S := fun _ s => (Ok s, s).
Definition put_state {E S} (s : S) : M E S unit := fun _ _ => (Ok tt, s).
Definition lift_res {E S A} (r : Res A) : M E S A := fun _ s => (r, s).

Declare Scope monad_scope.
Delimit Scope monad_scope with monad.
Notation "x <- c ;; k" := (bind c (fun x => k))
  (at level 100, c at next level, right associativity) : monad_scope.
Notation "c ;;; k" := (bind c (fun _ => k))
  (at level 100, right associativity) : monad_scope.

Local Open Scope monad_scope.

(* ===================================================================== *)
(** ** Write inputs ([src/types/task.ts]) *)
(* ===================================================================== *)

(** [CreateTaskInput]: [title] and [source] are required, the rest is
    optional. *)
Record CreateTaskInput : Type := mkCreate {
  in_title : string;
  in_source : string;
  in_description : option string;
  in_status : option TaskStatus;
  in_priority : option TaskPriority;
  in_dueDate : option string;
  in_labels : option (list string);
  in_projectName : option string
}.

(** [UpdateTaskInput]: every field is optional; [None] is [undefined]. *)
Record UpdateTaskInput : Type := mkUpdate {
  up_title : option string;
  up_description : option string;
  up_status : option TaskStatus;
  up_priority : option TaskPriority;
  up_dueDate : option string;
  up_labels : option (list string)
}.

(** [if (s)] on an optional string: [undefined] and [''] are falsy. *)
Definition nonempty_opt (s : option string) : option string :=
  match s with
  | Some s' => if String.eqb s' "" then None else Some s'
  | None => None
  end.

(** Adds the property [k] to an object under construction. *)
Definition set_prop (obj : list (string * JsVal)) (k : string) (v : JsVal)
  : list (string * JsVal) := obj ++ [(k, v)].

Definition set_if {A} (o : option A) (k : string) (f : A -> JsVal)
  (obj : list (string * JsVal)) : list (string * JsVal) :=
  match o with
  | Some a => set_prop obj k (f a)
  | None => obj
  end.

Definition str_array (l : list string) : JsVal := JArr (map JStr l).

(* ===================================================================== *)
(** ** Provider connectors: the network boundary

    The SDK clients are the outside world.  Every SDK method the
    connectors call is a [Call]; the provider's answer to a call may
    depend on everything that happened before it. *)
(* ===================================================================== *)

Module Client.

Inductive Call : Type :=
| notion_pages_create (args : JsVal)
| notion_pages_update (args : JsVal)
| todoist_addTask (params : JsVal)
| todoist_updateTask (sourceId : JsVal) (params : JsVal)
| todoist_closeTask (sourceId : JsVal)
| todoist_reopenTask (sourceId : JsVal)
| todoist_deleteTask (sourceId : JsVal).

Inductive Event : Type :=
| ECall (c : Call)
| ESleep (ms : Z)               (* setTimeout(resolve, ms) *)
| EWarn (msg : string).         (* console.warn *)

Record Env : Type := mkEnv {
  NOTION_API_KEY : option string;      (* process.env.* *)
  NOTION_DATABASE_ID : option string;
  TODOIST_API_TOKEN : option string;
  respond : list Event -> Call -> Res JsVal
}.

Record State : Type := mkState {
  todoist_client : option string;      (* the module variable _client *)
  trace : list Event
}.

Definition emit (e : Event) : M Env State unit :=
  fun _ s => (Ok tt, mkState (todoist_client s) (trace s ++ [e])).

(** One invocation of an SDK method: the call is recorded, the
    provider answers. *)
Definition call (c : Call) : M Env State JsVal :=
  fun env s =>
    (respond env (trace s) c,
     mkState (todoist_client s) (trace s ++ [ECall c])).

Definition sleep (ms : Z) : M Env State unit := emit (ESleep ms).
Definition console_warn (msg : string) : M Env State unit := emit (EWarn msg).

Fixpoint calls (tr : list Event) : list Call :=
  match tr with
  | [] => []
  | ECall c :: rest => c :: calls rest
  | _ :: rest => calls rest
  end.

Fixpoint sleeps (tr : list Event) : list Z :=
  match tr with
  | [] => []
  | ESleep ms :: rest => ms :: sleeps rest
  | _ :: rest => sleeps rest
  end.

(** [status === 429] *)
Definition isRateLimit (status : JsVal) : bool :=
  match status with
  | JNum n => n =? 429
  | _ => false
  end.

(** [typeof status === 'number' && status >= 500] *)
Definition isServerError (status : JsVal) : bool :=
  match status with
  | JNum n => 500 <=? n
  | _ => false
  end.

(** The value [undefined] of [let lastError: unknown;] before the first
    [catch] assigns it. *)
Definition undefined_error : JsError := mkError "" "" JUndefined JUndefined.

End Client.

Import Client.

(* --------------------------------------------------------------------- *)
(** *** [src/api/notion.ts] *)
(* --------------------------------------------------------------------- *)

Module Notion.

Definition getNotionClient : M Env State string :=
  env <- ask ;;
  match nonempty_opt (NOTION_API_KEY env) with
  | None => throw (Error "NOTION_API_KEY environment variable is not set")
  | Some apiKey => ret apiKey
  end.

Definition getDatabaseId : M Env State string :=
  env <- ask ;;
  match nonempty_opt (NOTION_DATABASE_ID env) with
  | None => throw (Error "NOTION_DATABASE_ID environment variable is not set")
  | Some i => ret i
  end.

Definition MAX_RETRIES : nat := 5.
Definition BASE_DELAY_MS : Z := 400.

(** The body of [for (let attempt = 0; attempt <= MAX_RETRIES; attempt++)],
    iterated over the attempt numbers still to run. *)
Fixpoint withRetry_loop {A} (fn : M Env State A) (attempts : list nat)
  (lastError : JsError) : M Env State A :=
  match attempts with
  | [] => throw lastError
  | attempt :: rest =>
      try_catch fn (fun err =>
        let status := err_status err in
        if ((isRateLimit status || isServerError status)
            && (attempt <? MAX_RETRIES)%nat)%bool
        then
          let delay := BASE_DELAY_MS * 2 ^ Z.of_nat attempt in
          console_warn ("[notion] Request failed (" ++ Js.toString status
                        ++ "), retrying in " ++ Js.string_of_Z delay
                        ++ "ms (attempt " ++ Js.string_of_Z (Z.of_nat attempt + 1)
                        ++ "/" ++ Js.string_of_Z (Z.of_nat MAX_RETRIES) ++ ")") ;;;
          sleep delay ;;;
          withRetry_loop fn rest err
        else throw err)
  end.

Definition withRetry {A} (fn : M Env State A) : M Env State A :=
  withRetry_loop fn (seq 0 (MAX_RETRIES + 1)) undefined_error.

Definition unifiedStatusToNotion (status : TaskStatus) : string :=
  match status with
  | done => "Done"
  | in_progress => "In Progress"
  | todo => "To Do"
  end.

Definition unifiedPriorityToNotion (priority : TaskPriority) : string :=
  match priority with
  | urgent => "Urgent"
  | high => "High"
  | low => "Low"
  | medium => "Medium"
  end.

Definition text_content (s : string) : JsVal :=
  JArr [JObj [("text", JObj [("content", JStr s)])]].

(** The [properties] object built by [updateNotionTask]. *)
Definition update_properties (updates : UpdateTaskInput) : list (string * JsVal) :=
  let properties := [] in
  let properties :=
    set_if (up_title updates) "Name"
      (fun t => JObj [("title", text_content t)]) properties in
  let properties :=
    set_if (up_status updates) "Status"
      (fun s => JObj [("status", JObj [("name", JStr (unifiedStatusToNotion s))])])
      properties in
  let properties :=
    set_if (up_priority updates) "Priority"
      (fun p => JObj [("select", JObj [("name", JStr (unifiedPriorityToNotion p))])])
      properties in
  let properties :=
    set_if (up_description updates) "Description"
      (fun d => JObj [("rich_text", text_content d)]) properties in
  let properties :=
    set_if (up_dueDate updates) "Due"
      (fun d => JObj [("date", if String.eqb d "" then JNull
                               else JObj [("start", JStr d)])]) properties in
  let properties :=
    set_if (up_labels updates) "Tags"
      (fun l => JObj [("multi_select",
                       JArr (map (fun name => JObj [("name", JStr name)]) l))])
      properties in
  properties.

(** The [properties] object built by [createNotionTask]. *)
Definition create_properties (input : CreateTaskInput) : list (string * JsVal) :=
  let properties := [("Name", JObj [("title", text_content (in_title input))])] in
  let properties :=
    set_if (in_status input) "Status"
      (fun s => JObj [("status", JObj [("name", JStr (unifiedStatusToNotion s))])])
      properties in
  let properties :=
    set_if (in_priority input) "Priority"
      (fun p => JObj [("select", JObj [("name", JStr (unifiedPriorityToNotion p))])])
      properties in
  let properties :=
    set_if (nonempty_opt (in_description input)) "Description"
      (fun d => JObj [("rich_text", text_content d)]) properties in
  let properties :=
    set_if (nonempty_opt (in_dueDate input)) "Due"
      (fun d => JObj [("date", JObj [("start", JStr d)])]) properties in
  let properties :=
    match in_labels input with
    | Some l =>
        if (0 <? Z.of_nat (length l))
        then set_prop properties "Tags"
               (JObj [("multi_select",
                       JArr (map (fun name => JObj [("name", JStr name)]) l))])
        else properties
    | None => properties
    end in
  let properties :=
    set_if (nonempty_opt (in_projectName input)) "Project"
      (fun n => JObj [("select", JObj [("name", JStr n)])]) properties in
  properties.

(** [notionPageToTask(page as Record<string, unknown>)] on an SDK answer *)
Definition pageToTask (now : string) (page : JsVal) : Res UnifiedTask :=
  match page with
  | JObj fields => notionPageToTask now fields
  | JUndefined | JNull =>
      Throw (TypeError "Cannot read properties of undefined (reading 'properties')")
  | _ => notionPageToTask now []
  end.

Definition updateNotionTask (now : string) (sourceId : JsVal)
  (updates : UpdateTaskInput) : M Env State UnifiedTask :=
  _notion <- getNotionClient ;;
  let properties := update_properties updates in
  page <- withRetry
            (call (notion_pages_update
                     (JObj [("page_id", sourceId);
                            ("properties", JObj properties)]))) ;;
  lift_res (pageToTask now page).

Definition createNotionTask (now : string) (input : CreateTaskInput)
  : M Env State UnifiedTask :=
  _notion <- getNotionClient ;;
  databaseId <- getDatabaseId ;;
  let properties := create_properties input in
  page <- withRetry
            (call (notion_pages_create
                     (JObj [("parent", JObj [("database_id", JStr databaseId)]);
                            ("properties", JObj properties)]))) ;;
  lift_res (pageToTask now page).

Definition deleteNotionTask (sourceId : JsVal) : M Env State unit :=
  _notion <- getNotionClient ;;
  withRetry
    (call (notion_pages_update
             (JObj [("page_id", sourceId); ("archived", JBool true)]))) ;;;
  ret tt.

End Notion.

(* --------------------------------------------------------------------- *)
(** *** [src/api/todoist.ts] *)
(* --------------------------------------------------------------------- *)

Module Todoist.

Definition getTodoistClient : M Env State string :=
  s <- get_state ;;
  match todoist_client s with
  | Some client => ret client
  | None =>
      env <- ask ;;
      match nonempty_opt (TODOIST_API_TOKEN env) with
      | None => throw (Error "TODOIST_API_TOKEN environment variable is not set")
      | Some token =>
          put_state (mkState (Some token) (trace s)) ;;;
          ret token
      end
  end.

Definition MAX_RETRIES : nat := 5.
Definition BASE_DELAY_MS : Z := 500.

Fixpoint withRetry_loop {A} (fn : M Env State A) (attempts : list nat)
  (lastError : JsError) : M Env State A :=
  match attempts with
  | [] => throw lastError
  | attempt :: rest =>
      try_catch fn (fun err =>
        let status := err_httpStatusCode err ?? err_status err in
        if ((isRateLimit status || isServerError status)
            && (attempt <? MAX_RETRIES)%nat)%bool
        then
          let delay := BASE_DELAY_MS * 2 ^ Z.of_nat attempt in
          console_warn ("[todoist] Request failed (" ++ Js.toString status
                        ++ "), retrying in " ++ Js.string_of_Z delay
                        ++ "ms (attempt " ++ Js.string_of_Z (Z.of_nat attempt + 1)
                        ++ "/" ++ Js.string_of_Z (Z.of_nat MAX_RETRIES) ++ ")") ;;;
          sleep delay ;;;
          withRetry_loop fn rest err
        else throw err)
  end.

Definition withRetry {A} (fn : M Env State A) : M Env State A :=
  withRetry_loop fn (seq 0 (MAX_RETRIES + 1)) undefined_error.

Definition unifiedPriorityToTodoist (priority : TaskPriority) : Z :=
  match priority with
  | urgent => 4
  | high => 3
  | medium => 2
  | low => 1
  end.

(** [todoistItemToTask(task as Record<string, unknown>)] on an SDK answer *)
Definition itemToTask (now : string) (item : JsVal) : Res UnifiedTask :=
  match item with
  | JObj fields => Ok (todoistItemToTask now fields)
  | JUndefined | JNull =>
      Throw (TypeError "Cannot read properties of undefined (reading 'id')")
  | _ => Ok (todoistItemToTask now [])
  end.

(** The [addParams] object built by [createTodoistTask]. *)
Definition addParams (input : CreateTaskInput) : list (string * JsVal) :=
  let addParams := [("content", JStr (in_title input))] in
  let addParams :=
    set_if (nonempty_opt (in_description input)) "description" JStr addParams in
  let addParams :=
    set_if (in_priority input) "priority"
      (fun p => JNum (unifiedPriorityToTodoist p)) addParams in
  let addParams :=
    set_if (nonempty_opt (in_dueDate input)) "dueString" JStr addParams in
  let addParams :=
    match in_labels input with
    | Some l => if (0 <? Z.of_nat (length l))
                then set_prop addParams "labels" (str_array l)
                else addParams
    | None => addParams
    end in
  addParams.

Definition createTodoistTask (now : string) (input : CreateTaskInput)
  : M Env State UnifiedTask :=
  _client <- getTodoistClient ;;
  let addParams := addParams input in
  task <- withRetry (call (todoist_addTask (JObj addParams))) ;;
  lift_res (itemToTask now task).

(** The [updateParams] object built by [updateTodoistTask]. *)
Definition updateParams (updates : UpdateTaskInput) : list (string * JsVal) :=
  let updateParams := [] in
  let updateParams := set_if (up_title updates) "content" JStr updateParams in
  let updateParams :=
    set_if (up_description updates) "description" JStr updateParams in
  let updateParams :=
    set_if (up_priority updates) "priority"
      (fun p => JNum (unifiedPriorityToTodoist p)) updateParams in
  let updateParams :=
    set_if (up_dueDate updates) "dueString"
      (fun d => if String.eqb d "" then JUndefined else JStr d) updateParams in
  let updateParams := set_if (up_labels updates) "labels" str_array updateParams in
  updateParams.

Definition updateTodoistTask (now : string) (sourceId : JsVal)
  (updates : UpdateTaskInput) : M Env State UnifiedTask :=
  _client <- getTodoistClient ;;
  let updateParams := updateParams updates in
  task <- withRetry (call (todoist_updateTask sourceId (JObj updateParams))) ;;
  (* If the status update indicates "done", close the task in Todoist *)
  (match up_status updates with
   | Some done => withRetry (call (todoist_closeTask sourceId)) ;;; ret tt
   | _ => ret tt
   end) ;;;
  (* If the status update indicates re-opening, reopen the task *)
  (match up_status updates with
   | Some todo | Some in_progress =>
       withRetry (call (todoist_reopenTask sourceId)) ;;; ret tt
   | _ => ret tt
   end) ;;;
  lift_res (itemToTask now task).

Definition deleteTodoistTask (sourceId : JsVal) : M Env State unit :=
  _client <- getTodoistClient ;;
  withRetry (call (todoist_deleteTask sourceId)) ;;;
  ret tt.

End Todoist.

(* ===================================================================== *)
(** ** Aggregation service ([src/api/taskService.ts])

    Seen from the service, the eight connector functions are the outside
    world: a connector call either fulfils with a value or rejects with
    an error, and its outcome may depend on everything that happened
    before. *)
(* ===================================================================== *)

Module TaskService.

Inductive Call : Type :=
| fetchNotionTasks_
| fetchTodoistTasks_
| createNotionTask_ (input : CreateTaskInput)
| createTodoistTask_ (input : CreateTaskInput)
| updateNotionTask_ (sourceId : JsVal) (updates : UpdateTaskInput)
| updateTodoistTask_ (sourceId : JsVal) (updates : UpdateTaskInput)
| deleteNotionTask_ (sourceId : JsVal)
| deleteTodoistTask_ (sourceId : JsVal).

Inductive Event : Type :=
| ECall (c : Call)
| ENow (t : Z)                          (* a reading of Date.now() *)
| EConsoleError (reason : JsError).     (* console.error *)

Record Env : Type := mkEnv {
  (* Date.now(), in milliseconds *)
  dateNow : list Event -> Z;
  (* new Date(v).getTime(); None is NaN *)
  getTime : JsVal -> option Z;
  fetchNotionTasks : list Event -> Res (list UnifiedTask);
  fetchTodoistTasks : list Event -> Res (list UnifiedTask);
  createNotionTask : list Event -> CreateTaskInput -> Res UnifiedTask;
  createTodoistTask : list Event -> CreateTaskInput -> Res UnifiedTask;
  updateNotionTask : list Event -> JsVal -> UpdateTaskInput -> Res UnifiedTask;
  updateTodoistTask : list Event -> JsVal -> UpdateTaskInput -> Res UnifiedTask;
  deleteNotionTask : list Event -> JsVal -> Res unit;
  deleteTodoistTask : list Event -> JsVal -> Res unit
}.

Definition CACHE_TTL_MS : Z := 30000.

Record TaskCache : Type := mkCache {
  tasks : list UnifiedTask;
  timestamp : Z
}.

Record State : Type := mkState {
  cache : option TaskCache;             (* let cache: TaskCache | null *)
  trace : list Event
}.

Definition emit (e : Event) : M Env State unit :=
  fun _ s => (Ok tt, mkState (cache s) (trace s ++ [e])).

(** A connector call: recorded, then settled by the environment. *)
Definition connector {A} (c : Call) (answer : Env -> list Event -> Res A)
  : M Env State A :=
  fun env s => (answer env (trace s), mkState (cache s) (trace s ++ [ECall c])).

Definition Date_now : M Env State Z :=
  fun env s =>
    let t := dateNow env (trace s) in
    (Ok t, mkState (cache s) (trace s ++ [ENow t])).

Definition console_error (reason : JsError) : M Env State unit :=
  emit (EConsoleError reason).

Definition set_cache (c : option TaskCache) : M Env State unit :=
  fun _ s => (Ok tt, mkState c (trace s)).

Fixpoint calls (tr : list Event) : list Call :=
  match tr with
  | [] => []
  | ECall c :: rest => c :: calls rest
  | _ :: rest => calls rest
  end.

Fixpoint diagnostics (tr : list Event) : list JsError :=
  match tr with
  | [] => []
  | EConsoleError e :: rest => e :: diagnostics rest
  | _ :: rest => diagnostics rest
  end.

(** [Promise.allSettled([a, b])]: both are started, in this order, and
    neither rejection escapes. *)
Definition allSettled2 {A} (a b : M Env State A) : M Env State (list (Res A)) :=
  fun env s =>
    let (ra, s1) := a env s in
    let (rb, s2) := b env s1 in
    (Ok [ra; rb], s2).

(** The comparator [(a, b) => dateB - dateA]; [None] is NaN. *)
Definition compareUpdatedAt (env : Env) (a b : UnifiedTask) : option Z :=
  match getTime env (updatedAt a), getTime env (updatedAt b) with
  | Some dateA, Some dateB => Some (dateB - dateA)
  | _, _ => None
  end.

(** [Array.prototype.sort(comparefn)]: a NaN answer of the comparator
    counts as 0, and the sort is stable.  (When the comparator is not
    consistent, ECMAScript leaves the order to the engine; the model is
    then one admissible engine.) *)
Section Sort.
Context {A : Type} (comparefn : A -> A -> option Z).

Definition sortCompare (x y : A) : Z :=
  match comparefn x y with
  | Some v => v
  | None => 0
  end.

Fixpoint insert (x : A) (sorted : list A) : list A :=
  match sorted with
  | [] => [x]
  | y :: rest =>
      if 0 <? sortCompare x y then y :: insert x rest
      else x :: sorted
  end.

Fixpoint sort (l : list A) : list A :=
  match l with
  | [] => []
  | x :: rest => insert x (sort rest)
  end.
End Sort.

Definition isCacheValid : M Env State bool :=
  s <- get_state ;;
  match cache s with
  | None => ret false
  | Some c =>
      now <- Date_now ;;
      ret (now - timestamp c <? CACHE_TTL_MS)
  end.

Definition refreshTasks : M Env State unit := set_cache None.

(** [for (const result of results)] of [getAllTasks] *)
Fixpoint collect (results : list (Res (list UnifiedTask)))
  (tasks : list UnifiedTask) : M Env State (list UnifiedTask) :=
  match results with
  | [] => ret tasks
  | Ok value :: rest => collect rest (tasks ++ value)
  | Throw reason :: rest =>
      (* Log but do not throw -- graceful degradation *)
      console_error reason ;;;
      collect rest tasks
  end.

Definition getAllTasks : M Env State (list UnifiedTask) :=
  valid <- isCacheValid ;;
  if valid then
    s <- get_state ;;
    match cache s with
    | Some c => ret (tasks c)
    | None => throw (TypeError "Cannot read properties of null (reading 'tasks')")
    end
  else
    results <- allSettled2 (connector fetchNotionTasks_ fetchNotionTasks)
                           (connector fetchTodoistTasks_ fetchTodoistTasks) ;;
    tasks <- collect results [] ;;
    env <- ask ;;
    (* Sort by updatedAt descending *)
    let tasks := sort (compareUpdatedAt env) tasks in
    now <- Date_now ;;
    set_cache (Some (mkCache tasks now)) ;;;
    ret tasks.

Definition unsupported (source : string) : JsError :=
  Error ("Unsupported task source: " ++ source).

Definition createTask (source : string) (input : CreateTaskInput)
  : M Env State UnifiedTask :=
  task <- (if String.eqb source "notion"
           then connector (createNotionTask_ input)
                  (fun env tr => createNotionTask env tr input)
           else if String.eqb source "todoist"
           then connector (createTodoistTask_ input)
                  (fun env tr => createTodoistTask env tr input)
           else throw (unsupported source)) ;;
  refreshTasks ;;;
  ret task.

Definition updateTask (task : UnifiedTask) (updates : UpdateTaskInput)
  : M Env State UnifiedTask :=
  updated <- (if String.eqb (source task) "notion"
              then connector (updateNotionTask_ (sourceId task) updates)
                     (fun env tr => updateNotionTask env tr (sourceId task) updates)
              else if String.eqb (source task) "todoist"
              then connector (updateTodoistTask_ (sourceId task) updates)
                     (fun env tr => updateTodoistTask env tr (sourceId task) updates)
              else throw (unsupported (source task))) ;;
  refreshTasks ;;;
  ret updated.

Definition deleteTask (task : UnifiedTask) : M Env State unit :=
  (if String.eqb (source task) "notion"
   then connector (deleteNotionTask_ (sourceId task))
          (fun env tr => deleteNotionTask env tr (sourceId task))
   else if String.eqb (source task) "todoist"
   then connector (deleteTodoistTask_ (sourceId task))
          (fun env tr => deleteTodoistTask env tr (sourceId task))
   else throw (unsupported (source task))) ;;;
  refreshTasks.

End TaskService.

(* ===================================================================== *)
(** ** Vocabulary of the properties *)
(* ===================================================================== *)

(** The retry policy, with the provider-specific parts as parameters:
    how the status is read off an error, the base delay, the log tag and
    the number of retries.  Both [withRetry] functions are instances. *)
Module Policy.

Record t : Type := mk {
  status_of : JsError -> JsVal;
  base : Z;
  tag : string;
  max_retries : nat
}.

Definition notion : t := mk err_status 400 "[notion]" 5.
Definition todoist : t :=
  mk (fun err => err_httpStatusCode err ?? err_status err) 500 "[todoist]" 5.

(** A rate-limit (429) or server-error (>= 500) signal. *)
Definition retryable (p : t) (err : JsError) : bool :=
  (isRateLimit (status_of p err) || isServerError (status_of p err))%bool.

Definition delay (p : t) (attempt : nat) : Z := base p * 2 ^ Z.of_nat attempt.

Definition warning (p : t) (attempt : nat) (err : JsError) : string :=
  tag p ++ " Request failed (" ++ Js.toString (status_of p err)
  ++ "), retrying in " ++ Js.string_of_Z (delay p attempt)
  ++ "ms (attempt " ++ Js.string_of_Z (Z.of_nat attempt + 1)
  ++ "/" ++ Js.string_of_Z (Z.of_nat (max_retries p)) ++ ")".

Fixpoint loop {A} (p : t) (fn : M Env State A) (attempts : list nat)
  (lastError : JsError) : M Env State A :=
  match attempts with
  | [] => throw lastError
  | attempt :: rest =>
      try_catch fn (fun err =>
        if (retryable p err && (attempt <? max_retries p)%nat)%bool
        then
          console_warn (warning p attempt err) ;;;
          sleep (delay p attempt) ;;;
          loop p fn rest err
        else throw err)
  end.

(** What attempt number [attempt] of the call [c] leaves in the trace
    when it fails with [err] and is retried. *)
Definition failed_attempt (p : t) (c : Call) (attempt : nat) (err : JsError)
  : list Event :=
  [ECall c; EWarn (warning p attempt err); ESleep (delay p attempt)].

Fixpoint failed_attempts (p : t) (c : Call) (attempt : nat) (errs : list JsError)
  : list Event :=
  match errs with
  | [] => []
  | err :: rest => failed_attempt p c attempt err ++ failed_attempts p c (S attempt) rest
  end.

(** Starting with attempt number [attempt] at trace [tr], the provider
    answers the successive attempts of [c] with the errors [errs], each
    one a rate-limit or server-error signal. *)
Fixpoint fails_with (p : t) (env : Env) (c : Call) (tr : list Event)
  (attempt : nat) (errs : list JsError) : Prop :=
  match errs with
  | [] => True
  | err :: rest =>
      respond env tr c = Throw err /\
      retryable p err = true /\
      fails_with p env c (tr ++ failed_attempt p c attempt err) (S attempt) rest
  end.

(** [base, 2 * base, 4 * base, ...]: [k] delays. *)
Definition backoff (p : t) (k : nat) : list Z := map (delay p) (seq 0 k).

(** The state after the events [evs]. *)
Definition after (s : State) (evs : list Event) : State :=
  mkState (todoist_client s) (trace s ++ evs).

Definition withRetry {A} (p : t) (fn : M Env State A) : M Env State A :=
  loop p fn (seq 0 (max_retries p + 1)) undefined_error.

(** The retry policy of the specification, for a retry helper [retry]
    wrapped around one SDK call [c].  [errs] are the errors of the
    attempts 1..k, all retried; [tr] is the trace when attempt k+1
    starts.  At most [max_retries p + 1] attempts are made. *)
Definition holds_for (p : t) (retry : M Env State JsVal -> M Env State JsVal)
  : Prop :=
  forall (env : Env) (c : Call) (s : State) (errs : list JsError),
    let k := length errs in
    let tr := (trace s ++ failed_attempts p c 0 errs)%list in
    let s' := after s (failed_attempts p c 0 errs ++ [ECall c]) in
    fails_with p env c (trace s) 0 errs ->
    (* attempt k+1 succeeds, k below the cap: the value is returned *)
    (forall v, (k < max_retries p + 1)%nat ->
               respond env tr c = Ok v ->
               retry (call c) env s = (Ok v, s')) /\
    (* every attempt up to the cap fails: the last error propagates *)
    (forall err, (k + 1 = max_retries p + 1)%nat ->
                 respond env tr c = Throw err ->
                 retryable p err = true ->
                 retry (call c) env s = (Throw err, s')) /\
    (* an error of another class propagates at once *)
    (forall err, (k < max_retries p + 1)%nat ->
                 respond env tr c = Throw err ->
                 retryable p err = false ->
                 retry (call c) env s = (Throw err, s')) /\
    (* k + 1 attempts were made, with k delays between them *)
    calls (trace s') = (calls (trace s) ++ repeat c (k + 1))%list /\
    sleeps (trace s') = (sleeps (trace s) ++ backoff p k)%list.

End Policy.

(* ===================================================================== *)
(** ** Sample worlds *)
(* ===================================================================== *)

Module Sample.

Definition rate_limited : JsError :=
  mkError "Error" "Too Many Requests" (JNum 429) (JNum 429).

Definition unavailable : JsError :=
  mkError "Error" "Service Unavailable" (JNum 503) (JNum 503).

Definition not_found : JsError :=
  mkError "Error" "Not Found" (JNum 404) (JNum 404).

Definition item : JsVal :=
  JObj [("id", JStr "todo-456"); ("content", JStr "Review PR");
        ("priority", JNum 3); ("isCompleted", JBool false);
        ("createdAt", JStr "2024-06-01T08:00:00.000Z")].

(** A provider that is rate limited for the first two calls it
    receives, then unavailable once, and answers [item] afterwards. *)
Definition flaky : Env :=
  Client.mkEnv (Some "secret") (Some "db") (Some "token")
    (fun tr _ =>
       match length (calls tr) with
       | 0%nat | 1%nat => Throw rate_limited
       | 2%nat => Throw unavailable
       | _ => Ok item
       end).

(** A provider that answers every call at once with [item]. *)
Definition healthy : Env :=
  Client.mkEnv (Some "secret") (Some "db") (Some "token") (fun _ _ => Ok item).

(** A provider that is always rate limited. *)
Definition saturated : Env :=
  Client.mkEnv (Some "secret") (Some "db") (Some "token")
    (fun _ _ => Throw rate_limited).

(** A provider that does not know the task. *)
Definition missing : Env :=
  Client.mkEnv (Some "secret") (Some "db") (Some "token")
    (fun _ _ => Throw not_found).

Definition start : State := Client.mkState None [].

End Sample.

(** The input [input] with its [status] and [projectName] replaced. *)
Definition with_status_project (input : CreateTaskInput)
  (st : option TaskStatus) (pn : option string) : CreateTaskInput :=
  mkCreate (in_title input) (in_source input) (in_description input) st
           (in_priority input) (in_dueDate input) (in_labels input) pn.

(** A Todoist client can be obtained: one was built before, or the token
    is set. *)
Definition todoist_configured (env : Env) (s : State) : Prop :=
  todoist_client s <> None \/ nonempty_opt (TODOIST_API_TOKEN env) <> None.

(** The extra call that a status change requires of a provider for which
    completion is an action: close for [done], reopen for [todo] and
    [in_progress], none when the status is not updated. *)
Definition status_action (sourceId : JsVal) (st : option TaskStatus) : list Call :=
  match st with
  | Some done => [todoist_closeTask sourceId]
  | Some todo | Some in_progress => [todoist_reopenTask sourceId]
  | None => []
  end.

(** Ordering of tasks by the time value of [updatedAt]. *)
Module Order.

Definition time (env : TaskService.Env) (t : UnifiedTask) : option Z :=
  TaskService.getTime env (updatedAt t).

(** Every [updatedAt] is a date that [Date] can read. *)
Definition valid_dates (env : TaskService.Env) (l : list UnifiedTask) : Prop :=
  Forall (fun t => time env t <> None) l.

(** [a] was updated no earlier than [b]. *)
Definition newer_or_same (env : TaskService.Env) (a b : UnifiedTask) : Prop :=
  match time env a, time env b with
  | Some ta, Some tb => tb <= ta
  | _, _ => False
  end.

(** Sorted by [updatedAt], descending: every task was updated no
    earlier than every task after it. *)
Definition sorted_desc (env : TaskService.Env) (l : list UnifiedTask) : Prop :=
  StronglySorted (newer_or_same env) l.

(** The comparator of [getAllTasks] does not ask for [b] before [a]. *)
Definition in_order (env : TaskService.Env) (a b : UnifiedTask) : Prop :=
  TaskService.sortCompare (TaskService.compareUpdatedAt env) a b <= 0.

(** No task is directly followed by one that the comparator wants
    before it.  This is weaker than [sorted_desc] when some [updatedAt]
    is not a date. *)
Definition neighbours_in_order (env : TaskService.Env) (l : list UnifiedTask)
  : Prop :=
  Sorted (in_order env) l.

End Order.

(** What a settled connector fetch contributes to the aggregate. *)
Module Settled.

Definition records (r : Res (list UnifiedTask)) : list UnifiedTask :=
  match r with
  | Ok l => l
  | Throw _ => []
  end.

Definition failure (r : Res (list UnifiedTask)) : list JsError :=
  match r with
  | Ok _ => []
  | Throw e => [e]
  end.

End Settled.

(** Sample worlds of the aggregation service. *)
Module SampleService.

Definition todoist_item (i created : string) : list (string * JsVal) :=
  [("id", JStr i); ("content", JStr "Review PR"); ("createdAt", JStr created)].

Definition t1 : UnifiedTask :=
  todoistItemToTask "2024-06-06T00:00:00.000Z"
    (todoist_item "1" "2024-06-02T00:00:00.000Z").
Definition t2 : UnifiedTask :=
  todoistItemToTask "2024-06-06T00:00:00.000Z"
    (todoist_item "2" "2024-06-05T00:00:00.000Z").
Definition t3 : UnifiedTask :=
  todoistItemToTask "2024-06-06T00:00:00.000Z"
    (todoist_item "3" "2024-06-03T00:00:00.000Z").

(** [new Date(v).getTime()] on the dates of the samples. *)
Definition getTime (v : JsVal) : option Z :=
  match v with
  | JStr s =>
      if String.eqb s "2024-06-02T00:00:00.000Z" then Some 1717286400000
      else if String.eqb s "2024-06-03T00:00:00.000Z" then Some 1717372800000
      else if String.eqb s "2024-06-05T00:00:00.000Z" then Some 1717545600000
      else None
  | _ => None
  end.

Definition outage : JsError :=
  mkError "Error" "Service Unavailable" (JNum 503) JUndefined.

(** The clock starts on 2024-06-06 and advances by one second with
    every event. *)
Definition clock (tr : list TaskService.Event) : Z :=
  1717632000000 + 1000 * Z.of_nat (length tr).

(** Notion is down, Todoist answers. *)
Definition notion_down : TaskService.Env :=
  TaskService.mkEnv clock getTime
    (fun _ => Throw outage) (fun _ => Ok [t1; t2; t3])
    (fun _ _ => Throw outage) (fun _ _ => Ok t1)
    (fun _ _ _ => Throw outage) (fun _ _ _ => Ok t1)
    (fun _ _ => Throw outage) (fun _ _ => Ok tt).

Definition empty : TaskService.State := TaskService.mkState None [].

(** A snapshot taken ten seconds before the clock of [empty]. *)
Definition warm : TaskService.State :=
  TaskService.mkState (Some (TaskService.mkCache [t2; t3; t1] 1717631990000)) [].

(** A snapshot taken thirty seconds before. *)
Definition stale : TaskService.State :=
  TaskService.mkState (Some (TaskService.mkCache [t2; t3; t1] 1717631970000)) [].

Definition input : CreateTaskInput :=
  mkCreate "Review PR" "todoist" None (Some done) None None None None.

End SampleService.

(** The records of the repository's tests of the normalisers. *)
Module TestData.

Definition basePage : list (string * JsVal) :=
  [("id", JStr "abc-123"); ("object", JStr "page");
   ("created_time", JStr "2024-06-01T10:00:00.000Z");
   ("last_edited_time", JStr "2024-06-02T12:00:00.000Z")].

Definition plain (s : string) : JsVal := JObj [("plain_text", JStr s)].
Definition named (s : string) : JsVal := JObj [("name", JStr s)].

Definition fullPage : list (string * JsVal) :=
  basePage ++
  [("properties", JObj
      [("Name", JObj [("title", JArr [plain "Buy groceries"])]);
       ("Description", JObj [("rich_text", JArr [plain "Milk, eggs, bread"])]);
       ("Status", JObj [("status", named "In Progress")]);
       ("Priority", JObj [("select", named "High")]);
       ("Due", JObj [("date", JObj [("start", JStr "2024-06-15")])]);
       ("Tags", JObj [("multi_select", JArr [named "personal"; named "errands"])]);
       ("Project", JObj [("select", named "Home")])])].

Definition baseItem : list (string * JsVal) :=
  [("id", JStr "todo-456"); ("content", JStr "Review PR");
   ("description", JStr "Check the new feature branch");
   ("priority", JNum 3); ("isCompleted", JBool false);
   ("due", JObj [("date", JStr "2024-07-01")]);
   ("labels", JArr [JStr "work"; JStr "code-review"]);
   ("createdAt", JStr "2024-06-01T08:00:00.000Z")].

Definition now : string := "2024-06-06T00:00:00.000Z".

End TestData.

(* ===================================================================== *)
(** ** Filtering and sorting for display ([src/utils/filterTasks.ts]) *)
(* ===================================================================== *)

Module FilterTasks.

(** [TaskFilterState].  The fields are filled from the query string of
    the page, so at run time they are arbitrary strings; ['all'] switches
    a filter off. *)
Record TaskFilterState : Type := mkFilters {
  f_source : string;      (* TaskSource | 'all' *)
  f_status : string;      (* TaskStatus | 'all' *)
  f_priority : string;    (* TaskPriority | 'all' *)
  sortBy : string         (* 'dueDate' | 'createdAt' | 'updatedAt' | 'priority' *)
}.

(** The string that a status or a priority is at run time. *)
Definition status_name (s : TaskStatus) : string :=
  match s with
  | todo => "todo"
  | in_progress => "in_progress"
  | done => "done"
  end.

Definition priority_name (p : TaskPriority) : string :=
  match p with
  | low => "low"
  | medium => "medium"
  | high => "high"
  | urgent => "urgent"
  end.

Definition priorityOrder (p : TaskPriority) : Z :=
  match p with
  | urgent => 0
  | high => 1
  | medium => 2
  | low => 3
  end.

(** [new Date(x).getTime() - new Date(y).getTime()]; [None] is NaN. *)
Definition time_diff (getTime : JsVal -> option Z) (x y : JsVal) : option Z :=
  match getTime x, getTime y with
  | Some tx, Some ty => Some (tx - ty)
  | _, _ => None
  end.

(** The comparator given to [filtered.sort]. *)
Definition comparator (getTime : JsVal -> option Z) (by_ : string)
  (a b : UnifiedTask) : option Z :=
  if String.eqb by_ "dueDate" then
    if (negb (Js.truthy (dueDate a)) && negb (Js.truthy (dueDate b)))%bool then Some 0
    else if negb (Js.truthy (dueDate a)) then Some 1
    else if negb (Js.truthy (dueDate b)) then Some (-1)
    else time_diff getTime (dueDate a) (dueDate b)
  else if String.eqb by_ "createdAt" then
    time_diff getTime (createdAt b) (createdAt a)
  else if String.eqb by_ "updatedAt" then
    time_diff getTime (updatedAt b) (updatedAt a)
  else if String.eqb by_ "priority" then
    Some (priorityOrder (priority a) - priorityOrder (priority b))
  else Some 0.

(** [if (value !== 'all') filtered = filtered.filter(keep)] *)
Definition filter_unless_all (value : string) (keep : UnifiedTask -> bool)
  (filtered : list UnifiedTask) : list UnifiedTask :=
  if String.eqb value "all" then filtered else filter keep filtered.

(** [applyFilters].  [getTime] is [v => new Date(v).getTime()]. *)
Definition applyFilters (getTime : JsVal -> option Z)
  (tasks : list UnifiedTask) (filters : TaskFilterState) : list UnifiedTask :=
  let filtered := tasks in
  let filtered :=
    filter_unless_all (f_source filters)
      (fun t => String.eqb (source t) (f_source filters)) filtered in
  let filtered :=
    filter_unless_all (f_status filters)
      (fun t => String.eqb (status_name (status t)) (f_status filters)) filtered in
  let filtered :=
    filter_unless_all (f_priority filters)
      (fun t => String.eqb (priority_name (priority t)) (f_priority filters))
      filtered in
  TaskService.sort (comparator getTime (sortBy filters)) filtered.

(** A task passes the three filters. *)
Definition passes (filters : TaskFilterState) (t : UnifiedTask) : bool :=
  ((String.eqb (f_source filters) "all" || String.eqb (source t) (f_source filters))
   && (String.eqb (f_status filters) "all"
       || String.eqb (status_name (status t)) (f_status filters))
   && (String.eqb (f_priority filters) "all"
       || String.eqb (priority_name (priority t)) (f_priority filters)))%bool.

(** The tasks of the repository's test of [applyFilters]. *)
Definition make (i src sid ttl : string) (st : TaskStatus) (p : TaskPriority)
  (due : JsVal) (created updated : string) : UnifiedTask :=
  {| id := i; source := src; sourceId := JStr sid; title := JStr ttl;
     description := JUndefined; status := st; priority := p; dueDate := due;
     createdAt := JStr created; updatedAt := JStr updated;
     labels := JUndefined; projectName := JUndefined |}.

Definition task1 : UnifiedTask :=
  make "1" "notion" "n1" "Notion high todo" todo high (JStr "2024-06-15")
       "2024-06-01T00:00:00Z" "2024-06-05T00:00:00Z".
Definition task2 : UnifiedTask :=
  make "2" "todoist" "t1" "Todoist urgent done" done urgent (JStr "2024-06-10")
       "2024-06-02T00:00:00Z" "2024-06-03T00:00:00Z".
Definition task3 : UnifiedTask :=
  make "3" "notion" "n2" "Notion low in_progress" in_progress low JUndefined
       "2024-06-03T00:00:00Z" "2024-06-04T00:00:00Z".
Definition task4 : UnifiedTask :=
  make "4" "todoist" "t2" "Todoist medium todo" todo medium (JStr "2024-06-20")
       "2024-06-04T00:00:00Z" "2024-06-06T00:00:00Z".

Definition makeTasks : list UnifiedTask := [task1; task2; task3; task4].

Definition defaultFilters : TaskFilterState := mkFilters "all" "all" "all" "updatedAt".

(** [new Date(v).getTime()] on the dates of [makeTasks], in days since
    2024-06-01 times 86400000. *)
Definition day (d : Z) : option Z := Some (1717200000000 + 86400000 * (d - 1)).

Definition getTime (v : JsVal) : option Z :=
  match v with
  | JStr s =>
      if String.eqb s "2024-06-01T00:00:00Z" then day 1
      else if String.eqb s "2024-06-02T00:00:00Z" then day 2
      else if String.eqb s "2024-06-03T00:00:00Z" then day 3
      else if String.eqb s "2024-06-04T00:00:00Z" then day 4
      else if String.eqb s "2024-06-05T00:00:00Z" then day 5
      else if String.eqb s "2024-06-06T00:00:00Z" then day 6
      else if String.eqb s "2024-06-10" then day 10
      else if String.eqb s "2024-06-15" then day 15
      else if String.eqb s "2024-06-20" then day 20
      else None
  | _ => None
  end.

End FilterTasks.

(** Orders that the sorts of the repository produce. *)
Module Sorting.

(** A comparator never asks for both [x] before [y] and [y] before [x]. *)
Definition one_way {A} (comparefn : A -> A -> option Z) : Prop :=
  forall x y, 0 < TaskService.sortCompare comparefn x y ->
              TaskService.sortCompare comparefn y x <= 0.

(** No element is directly followed by one that the comparator wants
    before it. *)
Definition settled {A} (comparefn : A -> A -> option Z) (l : list A) : Prop :=
  Sorted (fun a b => TaskService.sortCompare comparefn a b <= 0) l.

(** Due dates: a task with a due date comes before a task without one,
    and an earlier due date before a later one. *)
Definition due_before (getTime : JsVal -> option Z) (a b : UnifiedTask) : Prop :=
  if Js.truthy (dueDate b) then
    if Js.truthy (dueDate a) then
      match getTime (dueDate a), getTime (dueDate b) with
      | Some ta, Some tb => ta <= tb
      | _, _ => False
      end
    else False
  else True.

(** The due date, when there is one, is a date that [Date] can read. *)
Definition due_readable (getTime : JsVal -> option Z) (t : UnifiedTask) : Prop :=
  Js.truthy (dueDate t) = true -> getTime (dueDate t) <> None.

End Sorting.

(** More orders of [applyFilters]. *)
Module DisplayOrder.

(** By a date field, newest first. *)
Definition newest_first (getTime : JsVal -> option Z) (field : UnifiedTask -> JsVal)
  (a b : UnifiedTask) : Prop :=
  match getTime (field a), getTime (field b) with
  | Some ta, Some tb => tb <= ta
  | _, _ => False
  end.

(** By priority, most urgent first. *)
Definition most_urgent_first (a b : UnifiedTask) : Prop :=
  FilterTasks.priorityOrder (priority a) <= FilterTasks.priorityOrder (priority b).

Definition has_priority (p : TaskPriority) (t : UnifiedTask) : bool :=
  String.eqb (FilterTasks.priority_name (priority t)) (FilterTasks.priority_name p).

Definition undated (t : UnifiedTask) : bool := negb (Js.truthy (dueDate t)).

(** [sortBy] is one of the four keys that [applyFilters] knows. *)
Definition known_key (by_ : string) : bool :=
  (String.eqb by_ "dueDate" || String.eqb by_ "createdAt"
   || String.eqb by_ "updatedAt" || String.eqb by_ "priority")%bool.

End DisplayOrder.

(* ===================================================================== *)
(** ** Provider connectors: the read side

    [fetchNotionTasks] and [fetchTodoistTasks], in the world of the two
    listing calls of the SDKs.  The retry helper is written once for the
    two providers, over the policy: the [withRetry] of [notion.ts] is
    [withRetry Policy.notion], that of [todoist.ts] is
    [withRetry Policy.todoist]. *)
(* ===================================================================== *)

Module Listing.

Inductive Call : Type :=
| notion_request (args : JsVal)       (* notion.request({ path, method, body }) *)
| todoist_getTasks.                   (* client.getTasks() *)

Inductive Event : Type :=
| ECall (c : Call)
| ESleep (ms : Z)
| EWarn (msg : string).

Record Env : Type := mkEnv {
  NOTION_API_KEY : option string;
  NOTION_DATABASE_ID : option string;
  TODOIST_API_TOKEN : option string;
  respond : list Event -> Call -> Res JsVal
}.

Record State : Type := mkState {
  todoist_client : option string;
  trace : list Event
}.

Definition emit (e : Event) : M Env State unit :=
  fun _ s => (Ok tt, mkState (todoist_client s) (trace s ++ [e])).

Definition call (c : Call) : M Env State JsVal :=
  fun env s =>
    (respond env (trace s) c,
     mkState (todoist_client s) (trace s ++ [ECall c])).

Definition sleep (ms : Z) : M Env State unit := emit (ESleep ms).
Definition console_warn (msg : string) : M Env State unit := emit (EWarn msg).

Fixpoint calls (tr : list Event) : list Call :=
  match tr with
  | [] => []
  | ECall c :: rest => c :: calls rest
  | _ :: rest => calls rest
  end.

Definition getNotionClient : M Env State string :=
  env <- ask ;;
  match nonempty_opt (NOTION_API_KEY env) with
  | None => throw (Error "NOTION_API_KEY environment variable is not set")
  | Some apiKey => ret apiKey
  end.

Definition getDatabaseId : M Env State string :=
  env <- ask ;;
  match nonempty_opt (NOTION_DATABASE_ID env) with
  | None => throw (Error "NOTION_DATABASE_ID environment variable is not set")
  | Some i => ret i
  end.

Definition getTodoistClient : M Env State string :=
  s <- get_state ;;
  match todoist_client s with
  | Some client => ret client
  | None =>
      env <- ask ;;
      match nonempty_opt (TODOIST_API_TOKEN env) with
      | None => throw (Error "TODOIST_API_TOKEN environment variable is not set")
      | Some token =>
          put_state (mkState (Some token) (trace s)) ;;;
          ret token
      end
  end.

Fixpoint withRetry_loop {A} (p : Policy.t) (fn : M Env State A)
  (attempts : list nat) (lastError : JsError) : M Env State A :=
  match attempts with
  | [] => throw lastError
  | attempt :: rest =>
      try_catch fn (fun err =>
        let status := Policy.status_of p err in
        if ((isRateLimit status || isServerError status)
            && (attempt <? Policy.max_retries p)%nat)%bool
        then
          let delay := Policy.base p * 2 ^ Z.of_nat attempt in
          console_warn (Policy.tag p ++ " Request failed (" ++ Js.toString status
                        ++ "), retrying in " ++ Js.string_of_Z delay
                        ++ "ms (attempt " ++ Js.string_of_Z (Z.of_nat attempt + 1)
                        ++ "/" ++ Js.string_of_Z (Z.of_nat (Policy.max_retries p))
                        ++ ")") ;;;
          sleep delay ;;;
          withRetry_loop p fn rest err
        else throw err)
  end.

Definition withRetry {A} (p : Policy.t) (fn : M Env State A) : M Env State A :=
  withRetry_loop p fn (seq 0 (Policy.max_retries p + 1)) undefined_error.

(** [k in v], on a value that passed [v.object === 'page'] *)
Definition has_key (k : string) (v : JsVal) : bool :=
  match v with
  | JObj fields => existsb (fun kv => String.eqb k (fst kv)) fields
  | _ => false
  end.

(** [result.object === 'page' && 'properties' in result] *)
Definition is_page (result : JsVal) : Res bool :=
  res_bind (Js.get_strict result "object") (fun o =>
    match o with
    | JStr s => Ok (String.eqb s "page" && has_key "properties" result)%bool
    | _ => Ok false
    end).

Fixpoint letters (s : string) : list JsVal :=
  match s with
  | EmptyString => []
  | String c rest => JStr (String c EmptyString) :: letters rest
  end.

(** What [for (const x of v)] runs over: the items of an array, the
    characters of a string; anything else is not iterable. *)
Definition iterate (v : JsVal) : Res (list JsVal) :=
  match v with
  | JArr items => Ok items
  | JStr s => Ok (letters s)
  | _ => Throw (TypeError "response.results is not iterable")
  end.

(** [for (const result of response.results) if (...) pages.push(result)] *)
Fixpoint push_pages (results : list JsVal) (pages : list JsVal)
  : Res (list JsVal) :=
  match results with
  | [] => Ok pages
  | result :: rest =>
      res_bind (is_page result) (fun keep =>
        push_pages rest (if keep then pages ++ [result] else pages))
  end.

(** [response.has_more ? (response.next_cursor ?? undefined) : undefined] *)
Definition next_cursor (response : JsVal) : JsVal :=
  if Js.truthy response.["has_more"]
  then response.["next_cursor"] ?? JUndefined
  else JUndefined.

(** The argument of [notion.request] for one page of the listing. *)
Definition query (databaseId : string) (cursor : JsVal) : JsVal :=
  let body := [("page_size", JNum 100)] in
  let body := if Js.truthy cursor then set_prop body "start_cursor" cursor else body in
  JObj [("path", JStr ("databases/" ++ databaseId ++ "/query"));
        ("method", JStr "post");
        ("body", JObj body)].

(** The [do ... while (cursor)] of [fetchNotionTasks].  [fuel] bounds the
    number of iterations; [None] says that the loop was still running
    when the fuel ran out. *)
Fixpoint fetch_pages (fuel : nat) (databaseId : string) (pages : list JsVal)
  (cursor : JsVal) : M Env State (option (list JsVal)) :=
  match fuel with
  | O => ret None
  | S fuel' =>
      response <- withRetry Policy.notion
                    (call (notion_request (query databaseId cursor))) ;;
      results <- lift_res (res_bind (Js.get_strict response "results") iterate) ;;
      pages <- lift_res (push_pages results pages) ;;
      let cursor := next_cursor response in
      if Js.truthy cursor
      then fetch_pages fuel' databaseId pages cursor
      else ret (Some pages)
  end.

Definition fetchNotionTasks (now : string) (fuel : nat)
  : M Env State (option (list UnifiedTask)) :=
  _notion <- getNotionClient ;;
  databaseId <- getDatabaseId ;;
  done_ <- fetch_pages fuel databaseId [] JUndefined ;;
  match done_ with
  | None => ret None
  | Some pages =>
      tasks <- lift_res (res_map_list (Notion.pageToTask now) pages) ;;
      ret (Some tasks)
  end.

(** [Array.isArray(response) ? response : response.results ?? []] *)
Definition task_items (response : JsVal) : Res JsVal :=
  match response with
  | JArr _ => Ok response
  | _ => res_bind (Js.get_strict response "results") (fun r => Ok (r ?? JArr []))
  end.

(** [tasks.map(f)]: only an array has a [map] that can be called with [f]. *)
Definition array_map {B} (f : JsVal -> Res B) (tasks : JsVal) : Res (list B) :=
  match tasks with
  | JArr items => res_map_list f items
  | _ => Throw (TypeError "tasks.map is not a function")
  end.

Definition fetchTodoistTasks (now : string) : M Env State (list UnifiedTask) :=
  _client <- getTodoistClient ;;
  response <- withRetry Policy.todoist (call todoist_getTasks) ;;
  tasks <- lift_res (task_items response) ;;
  lift_res (array_map (Todoist.itemToTask now) tasks).

End Listing.

(** Vocabulary of the listing. *)
Module Paging.

(** The entries of one answer that [fetchNotionTasks] keeps. *)
Definition page_list (response : JsVal) : Res (list JsVal) :=
  res_bind (res_bind (Js.get_strict response "results") Listing.iterate)
    (fun results => Listing.push_pages results []).

(** One retried request for the page at [cursor]. *)
Definition request (databaseId : string) (cursor : JsVal)
  : M Listing.Env Listing.State JsVal :=
  Listing.withRetry Policy.notion
    (Listing.call (Listing.notion_request (Listing.query databaseId cursor))).

(** From state [s] and cursor [cursor], the successive requests are
    answered by [responses], each of which names a next page; this
    leads to state [s'] and cursor [cursor']. *)
Fixpoint answered (env : Listing.Env) (databaseId : string) (s : Listing.State)
  (cursor : JsVal) (responses : list JsVal) (s' : Listing.State) (cursor' : JsVal)
  : Prop :=
  match responses with
  | [] => s' = s /\ cursor' = cursor
  | response :: rest =>
      exists s1,
        request databaseId cursor env s = (Ok response, s1) /\
        Js.truthy (Listing.next_cursor response) = true /\
        answered env databaseId s1 (Listing.next_cursor response) rest s' cursor'
  end.

(** The credentials of Notion are set. *)
Definition notion_configured (env : Listing.Env) (key db : string) : Prop :=
  nonempty_opt (Listing.NOTION_API_KEY env) = Some key /\
  nonempty_opt (Listing.NOTION_DATABASE_ID env) = Some db.

(** The answer of [getTasks] is the list [items]: bare, wrapped in an
    object under [results], or, for the empty list, an object whose
    [results] is missing or [null]. *)
Definition lists (response : JsVal) (items : list JsVal) : Prop :=
  response = JArr items \/
  (exists fields, response = JObj fields /\ Js.lookup "results" fields = JArr items) \/
  (items = [] /\
   exists fields, response = JObj fields /\
                  Js.nullish (Js.lookup "results" fields) = true).

(** The record that [todoistItemToTask] reads when given [item]. *)
Definition fields_of (item : JsVal) : list (string * JsVal) :=
  match item with
  | JObj fields => fields
  | _ => []
  end.

End Paging.

(** Sample worlds of the listing. *)
Module SampleListing.

Definition page (i : string) : JsVal :=
  JObj [("object", JStr "page"); ("id", JStr i);
        ("created_time", JStr "2024-06-01T10:00:00.000Z");
        ("properties", JObj [])].

Definition user : JsVal := JObj [("object", JStr "user"); ("id", JStr "u1")].

Definition first : JsVal :=
  JObj [("results", JArr [page "a"; user; page "b"]);
        ("has_more", JBool true); ("next_cursor", JStr "c1")].

Definition second : JsVal :=
  JObj [("results", JArr [page "c"]);
        ("has_more", JBool false); ("next_cursor", JNull)].

(** Two pages: the second is served for the cursor ["c1"]. *)
Definition two_pages : Listing.Env :=
  Listing.mkEnv (Some "secret") (Some "db") (Some "token")
    (fun _ c =>
       match c with
       | Listing.notion_request args =>
           match (args.["body"]).["start_cursor"] with
           | JStr _ => Ok second
           | _ => Ok first
           end
       | Listing.todoist_getTasks =>
           Ok (JObj [("results", JArr [Sample.item; JNum 7])])
       end).

(** A provider that names a next page in every answer. *)
Definition endless : Listing.Env :=
  Listing.mkEnv (Some "secret") (Some "db") (Some "token") (fun _ _ => Ok first).

(** The second page cannot be served. *)
Definition breaks : Listing.Env :=
  Listing.mkEnv (Some "secret") (Some "db") (Some "token")
    (fun _ c =>
       match c with
       | Listing.notion_request args =>
           match (args.["body"]).["start_cursor"] with
           | JStr _ => Throw Sample.not_found
           | _ => Ok first
           end
       | Listing.todoist_getTasks => Ok (JArr [Sample.item; JNull])
       end).

(** No credentials. *)
Definition unconfigured : Listing.Env :=
  Listing.mkEnv None None None (fun _ _ => Ok first).

Definition start : Listing.State := Listing.mkState None [].

Definition now : string := "2024-06-06T00:00:00.000Z".

End SampleListing.

(** More vocabulary of the retry policy. *)
Module Budget.

Definition total (l : list Z) : Z := fold_right Z.add 0 l.

(** What a run of a retry helper for the call [c] from state [s] to the
    result [r] in state [s'] did: [k] attempts of [c] and nothing else,
    between them the [k - 1] delays of the backoff, and [r] is the answer
    of the provider to the last attempt. *)
Definition run_of (p : Policy.t) (env : Env) (c : Call) (s s' : State)
  (r : Res JsVal) (k : nat) : Prop :=
  (1 <= k <= Policy.max_retries p + 1)%nat /\
  calls (trace s') = (calls (trace s) ++ repeat c k)%list /\
  sleeps (trace s') = (sleeps (trace s) ++ Policy.backoff p (k - 1))%list /\
  todoist_client s' = todoist_client s /\
  exists tr, trace s' = (tr ++ [Client.ECall c])%list /\ respond env tr c = r.

End Budget.

(** Vocabulary of the write payloads. *)
Module Payload.

Definition tidy_string (o : option string) : option string := nonempty_opt o.

Definition tidy_labels (o : option (list string)) : option (list string) :=
  match o with
  | Some [] => None
  | _ => o
  end.

(** The create input with every empty optional field removed. *)
Definition tidy (input : CreateTaskInput) : CreateTaskInput :=
  mkCreate (in_title input) (in_source input)
           (tidy_string (in_description input)) (in_status input)
           (in_priority input) (tidy_string (in_dueDate input))
           (tidy_labels (in_labels input)) (tidy_string (in_projectName input)).

Definition named {A} (o : option A) (k : string) : list string :=
  match o with
  | Some _ => [k]
  | None => []
  end.

(** The Notion properties that stand for the fields set in an update. *)
Definition notion_keys (updates : UpdateTaskInput) : list string :=
  named (up_title updates) "Name" ++ named (up_status updates) "Status"
  ++ named (up_priority updates) "Priority"
  ++ named (up_description updates) "Description"
  ++ named (up_dueDate updates) "Due" ++ named (up_labels updates) "Tags".

(** The Todoist parameters that stand for the fields set in an update;
    the status has none. *)
Definition todoist_keys (updates : UpdateTaskInput) : list string :=
  named (up_title updates) "content" ++ named (up_description updates) "description"
  ++ named (up_priority updates) "priority"
  ++ named (up_dueDate updates) "dueString" ++ named (up_labels updates) "labels".

(** The client that the Todoist functions use from state [s] on. *)
Definition client_of (env : Env) (s : State) : option string :=
  match todoist_client s with
  | Some client => Some client
  | None => nonempty_opt (TODOIST_API_TOKEN env)
  end.

(** A provider that answers every call with [Sample.item], except the
    close and reopen calls, which it rejects as unknown. *)
Definition no_completion : Env :=
  Client.mkEnv (Some "secret") (Some "db") (Some "token")
    (fun _ c =>
       match c with
       | todoist_closeTask _ | todoist_reopenTask _ => Throw Sample.not_found
       | _ => Ok Sample.item
       end).

(** No credentials. *)
Definition unconfigured : Env :=
  Client.mkEnv None None None (fun _ _ => Ok Sample.item).

End Payload.

(** The shape of a Notion page that [notionPageToTask] can read. *)
Module Shape.

(** [props[n1] ?? props[n2] ?? ... ?? {}] *)
Definition first_of (props : JsVal) (names : list string) : JsVal :=
  fold_right (fun n rest => props.[n] ?? rest) empty_object names.

Definition props (page : list (string * JsVal)) : JsVal :=
  (JObj page).["properties"] ?? empty_object.

Definition title_text (page : list (string * JsVal)) : JsVal :=
  (first_of (props page) ["Name"; "Title"; "title"]).["title"].

Definition description_text (page : list (string * JsVal)) : JsVal :=
  (first_of (props page) ["Description"; "description"]).["rich_text"].

Definition status_name (page : list (string * JsVal)) : JsVal :=
  ((first_of (props page) ["Status"; "status"]).["status"])?.["name"].

Definition priority_name (page : list (string * JsVal)) : JsVal :=
  ((first_of (props page) ["Priority"; "priority"]).["select"])?.["name"].

Definition tags (page : list (string * JsVal)) : JsVal :=
  (first_of (props page) ["Tags"; "Labels"; "tags"]).["multi_select"].

(** An array has no [null] or [undefined] item; anything else passes. *)
Definition no_hole (v : JsVal) : Prop :=
  match v with
  | JArr items => Forall (fun x => Js.nullish x = false) items
  | _ => True
  end.

(** A name is falsy or a string. *)
Definition name_ok (v : JsVal) : Prop :=
  Js.truthy v = false \/ exists s, v = JStr s.

Definition readable (page : list (string * JsVal)) : Prop :=
  no_hole (title_text page) /\ no_hole (description_text page) /\
  name_ok (status_name page) /\ name_ok (priority_name page) /\
  no_hole (tags page).

End Shape.

(** More vocabulary of the listing and of the aggregate. *)
Module Kept.

(** An entry of a Notion answer that is a page: [object] says ['page']
    and there is a [properties] key. *)
Definition is_page_entry (r : JsVal) : bool :=
  match r.["object"] with
  | JStr s => (String.eqb s "page" && Listing.has_key "properties" r)%bool
  | _ => false
  end.

(** The time value of the [updatedAt] of [t] is [k]. *)
Definition updated_at (env : TaskService.Env) (k : option Z) (t : UnifiedTask)
  : bool :=
  match Order.time env t, k with
  | Some a, Some b => a =? b
  | None, None => true
  | _, _ => false
  end.

(** The connector call that a write for the origin [src] makes. *)
Definition routed (src : string) (notion todoist : TaskService.Call)
  : list TaskService.Call :=
  if String.eqb src "notion" then [notion]
  else if String.eqb src "todoist" then [todoist]
  else [].

End Kept.

(** A world of the aggregation service in which both providers answer. *)
Module SampleMerge.

Definition n1 : UnifiedTask :=
  FilterTasks.make "notion-a" "notion" "a" "Plan" todo high JUndefined
    "2024-06-01T00:00:00Z" "2024-06-03T00:00:00Z".
Definition n2 : UnifiedTask :=
  FilterTasks.make "notion-b" "notion" "b" "Write" todo low JUndefined
    "2024-06-01T00:00:00Z" "2024-06-05T00:00:00Z".
Definition d1 : UnifiedTask :=
  FilterTasks.make "todoist-1" "todoist" "1" "Call" todo medium JUndefined
    "2024-06-03T00:00:00Z" "2024-06-03T00:00:00Z".

Definition both_up : TaskService.Env :=
  TaskService.mkEnv SampleService.clock FilterTasks.getTime
    (fun _ => Ok [n1; n2]) (fun _ => Ok [d1])
    (fun _ _ => Ok n1) (fun _ _ => Ok d1)
    (fun _ _ _ => Ok n1) (fun _ _ _ => Ok d1)
    (fun _ _ => Ok tt) (fun _ _ => Ok tt).

(** Both providers are down. *)
Definition both_down : TaskService.Env :=
  TaskService.mkEnv SampleService.clock FilterTasks.getTime
    (fun _ => Throw SampleService.outage) (fun _ => Throw SampleService.outage)
    (fun _ _ => Throw SampleService.outage) (fun _ _ => Throw SampleService.outage)
    (fun _ _ _ => Throw SampleService.outage) (fun _ _ _ => Throw SampleService.outage)
    (fun _ _ => Throw SampleService.outage) (fun _ _ => Throw SampleService.outage).

End SampleMerge.

(** The dates that the comparator of [applyFilters] reads for the sort
    key [by_] are dates that [Date] can read: the comparator then never
    returns [NaN]. *)
Module SortKey.

Definition readable (getTime : JsVal -> option Z) (by_ : string)
  (t : UnifiedTask) : Prop :=
  if String.eqb by_ "dueDate" then Sorting.due_readable getTime t
  else if String.eqb by_ "createdAt" then getTime (createdAt t) <> None
  else if String.eqb by_ "updatedAt" then getTime (updatedAt t) <> None
  else True.

End SortKey.

(* ===================================================================== *)
(** ** The retry policy on the read side

    The vocabulary of [Policy], for the two listing calls:
    [notion.request] in [fetchNotionTasks] and [client.getTasks] in
    [fetchTodoistTasks] are wrapped by the same two [withRetry]. *)
(* ===================================================================== *)

Module ListingPolicy.
Import Listing.

Fixpoint sleeps (tr : list Event) : list Z :=
  match tr with
  | [] => []
  | ESleep ms :: rest => ms :: sleeps rest
  | _ :: rest => sleeps rest
  end.

(** What attempt number [attempt] of the call [c] leaves in the trace
    when it fails with [err] and is retried. *)
Definition failed_attempt (p : Policy.t) (c : Call) (attempt : nat) (err : JsError)
  : list Event :=
  [ECall c; EWarn (Policy.warning p attempt err); ESleep (Policy.delay p attempt)].

Fixpoint failed_attempts (p : Policy.t) (c : Call) (attempt : nat)
  (errs : list JsError) : list Event :=
  match errs with
  | [] => []
  | err :: rest => failed_attempt p c attempt err ++ failed_attempts p c (S attempt) rest
  end.

(** Starting with attempt number [attempt] at trace [tr], the provider
    answers the successive attempts of [c] with the errors [errs], each
    one a rate-limit or server-error signal. *)
Fixpoint fails_with (p : Policy.t) (env : Env) (c : Call) (tr : list Event)
  (attempt : nat) (errs : list JsError) : Prop :=
  match errs with
  | [] => True
  | err :: rest =>
      respond env tr c = Throw err /\
      Policy.retryable p err = true /\
      fails_with p env c (tr ++ failed_attempt p c attempt err) (S attempt) rest
  end.

(** The state after the events [evs]. *)
Definition after (s : State) (evs : list Event) : State :=
  mkState (todoist_client s) (trace s ++ evs).

(** The retry policy of the specification, for a retry helper [retry]
    wrapped around one listing call [c]: [Policy.holds_for], in the world
    of the listing calls. *)
Definition holds_for (p : Policy.t) (retry : M Env State JsVal -> M Env State JsVal)
  : Prop :=
  forall (env : Env) (c : Call) (s : State) (errs : list JsError),
    let k := length errs in
    let tr := (trace s ++ failed_attempts p c 0 errs)%list in
    let s' := after s (failed_attempts p c 0 errs ++ [ECall c]) in
    fails_with p env c (trace s) 0 errs ->
    (* attempt k+1 succeeds, k below the cap: the value is returned *)
    (forall v, (k < Policy.max_retries p + 1)%nat ->
               respond env tr c = Ok v ->
               retry (call c) env s = (Ok v, s')) /\
    (* every attempt up to the cap fails: the last error propagates *)
    (forall err, (k + 1 = Policy.max_retries p + 1)%nat ->
                 respond env tr c = Throw err ->
                 Policy.retryable p err = true ->
                 retry (call c) env s = (Throw err, s')) /\
    (* an error of another class propagates at once *)
    (forall err, (k < Policy.max_retries p + 1)%nat ->
                 respond env tr c = Throw err ->
                 Policy.retryable p err = false ->
                 retry (call c) env s = (Throw err, s')) /\
    (* k + 1 attempts were made, with k delays between them *)
    calls (trace s') = (calls (trace s) ++ repeat c (k + 1))%list /\
    sleeps (trace s') = (sleeps (trace s) ++ Policy.backoff p k)%list.

End ListingPolicy.

(** Sample worlds of the listing whose providers fail. *)
Module SampleRetry.

(** A provider that is rate limited for the first two calls it
    receives, then unavailable once, and answers afterwards: a query
    with the last page, [getTasks] with one item. *)
Definition flaky : Listing.Env :=
  Listing.mkEnv (Some "secret") (Some "db") (Some "token")
    (fun tr c =>
       match length (Listing.calls tr) with
       | 0%nat | 1%nat => Throw Sample.rate_limited
       | 2%nat => Throw Sample.unavailable
       | _ => match c with
              | Listing.notion_request _ => Ok SampleListing.second
              | Listing.todoist_getTasks => Ok (JArr [Sample.item])
              end
       end).

(** A provider that is always rate limited. *)
Definition saturated : Listing.Env :=
  Listing.mkEnv (Some "secret") (Some "db") (Some "token")
    (fun _ _ => Throw Sample.rate_limited).

(** A provider that does not know the database. *)
Definition missing : Listing.Env :=
  Listing.mkEnv (Some "secret") (Some "db") (Some "token")
    (fun _ _ => Throw Sample.not_found).

End SampleRetry.

(** Where the string conversion of the model is that of the language.
    [Js.toString] prints an object as ["[object Object]"], which is what
    [Object.prototype.toString] gives.  An object with an own [toString]
    property has no callable [toString] (a property of a data object is
    data) and no [valueOf] that gives a primitive, so that converting it,
    or an array that has it as an item, throws a [TypeError]; such a
    value is outside the model. *)
Module Printable.

(** String conversion of [v] returns. *)
Fixpoint prints (v : JsVal) : bool :=
  match v with
  | JObj fields => negb (existsb (fun kv => String.eqb (fst kv) "toString") fields)
  | JArr items => forallb prints items
  | _ => true
  end.

(** String conversion of [v] returns what [Js.toString] gives: the
    numbers in [v] are safe integers (up to [2^53 - 1] in absolute
    value), which are numbers of the language and are printed with all
    their digits. *)
Fixpoint exact (v : JsVal) : bool :=
  match v with
  | JNum n => Z.abs n <=? 9007199254740991
  | JObj fields => negb (existsb (fun kv => String.eqb (fst kv) "toString") fields)
  | JArr items => forallb exact items
  | _ => true
  end.

(** [rt.plain_text ?? ''], the fragment that [richTextToPlain] joins. *)
Definition fragment (rt : JsVal) : bool := prints (rt.["plain_text"] ?? JStr "").

Definition rich_text (v : JsVal) : bool :=
  match v with
  | JArr items => forallb fragment items
  | _ => true
  end.

(** What [notionPageToTask] converts to a string can be converted: the
    [id] of the page and the fragments of its title and description. *)
Definition page (fields : list (string * JsVal)) : Prop :=
  prints (JObj fields).["id"] = true /\
  rich_text (Shape.title_text fields) = true /\
  rich_text (Shape.description_text fields) = true.

(** What [todoistItemToTask] converts to a string, the [id] of the item,
    is printed by the model as by the language. *)
Definition item (i : JsVal) : Prop := exact (i.["id"] ?? JStr "") = true.

End Printable.

(* ===================================================================== *)
(** * Properties *)
(* ===================================================================== *)

(* --------------------------------------------------------------------- *)
(** ** The repository's tests of the normalisers, on the model *)
(* --------------------------------------------------------------------- *)

Example maps_a_fully_populated_Notion_page :
  notionPageToTask TestData.now TestData.fullPage
  = Ok {| id := "notion-abc-123";
          source := "notion";
          sourceId := JStr "abc-123";
          title := JStr "Buy groceries";
          description := JStr "Milk, eggs, bread";
          status := in_progress;
          priority := high;
          dueDate := JStr "2024-06-15";
          createdAt := JStr "2024-06-01T10:00:00.000Z";
          updatedAt := JStr "2024-06-02T12:00:00.000Z";
          labels := JArr [JStr "personal"; JStr "errands"];
          projectName := JStr "Home" |}.
Proof. reflexivity. Qed.

Example handles_missing_properties :
  exists t,
    notionPageToTask TestData.now (TestData.basePage ++ [("properties", JObj [])]) = Ok t
    /\ title t = JStr "Untitled" /\ description t = JUndefined
    /\ status t = todo /\ priority t = medium /\ dueDate t = JUndefined
    /\ labels t = JUndefined /\ projectName t = JUndefined.
Proof. eexists. repeat split. Qed.

Example concatenates_multiple_rich_text_blocks :
  exists t,
    notionPageToTask TestData.now
      (TestData.basePage ++
       [("properties",
         JObj [("Name", JObj [("title", JArr [TestData.plain "Part 1 ";
                                              TestData.plain "Part 2"])])])]) = Ok t
    /\ title t = JStr "Part 1 Part 2".
Proof. eexists. split; reflexivity. Qed.

Example maps_Completed_and_Critical :
  mapNotionStatus (JStr "Completed") = Ok done /\
  mapNotionPriority (JStr "Critical") = Ok urgent.
Proof. split; reflexivity. Qed.

Example maps_a_fully_populated_Todoist_task :
  todoistItemToTask TestData.now TestData.baseItem
  = {| id := "todoist-todo-456";
       source := "todoist";
       sourceId := JStr "todo-456";
       title := JStr "Review PR";
       description := JStr "Check the new feature branch";
       status := todo;
       priority := high;
       dueDate := JStr "2024-07-01";
       createdAt := JStr "2024-06-01T08:00:00.000Z";
       updatedAt := JStr "2024-06-01T08:00:00.000Z";
       labels := JArr [JStr "work"; JStr "code-review"];
       projectName := JUndefined |}.
Proof. reflexivity. Qed.

Example excludes_empty_labels_array :
  labels (todoistItemToTask TestData.now (("labels", JArr []) :: TestData.baseItem))
  = JUndefined.
Proof. reflexivity. Qed.

Example handles_empty_description_as_undefined :
  description (todoistItemToTask TestData.now
                 (("description", JStr "") :: TestData.baseItem)) = JUndefined.
Proof. reflexivity. Qed.

(* --------------------------------------------------------------------- *)
(** ** Normalisers *)
(* --------------------------------------------------------------------- *)

Lemma res_bind_Ok {A B} (r : Res A) (k : A -> Res B) (b : B) :
  res_bind r k = Ok b -> exists a, r = Ok a /\ k a = Ok b.
Proof.
  destruct r as [a | e]; simpl; intros H.
  - exists a. split; [reflexivity | exact H].
  - discriminate H.
Qed.

Ltac invert_binds :=
  repeat match goal with
    | H : res_bind _ _ = Ok _ |- _ =>
        let a := fresh "a" in
        let Ha := fresh "Ha" in
        apply res_bind_Ok in H; destruct H as [a [Ha H]]
    end.

Lemma res_map_list_Ok {A B} (f : A -> Res B) (g : A -> B) (l : list A) (ys : list B) :
  (forall x y, f x = Ok y -> y = g x) ->
  res_map_list f l = Ok ys -> ys = map g l.
Proof.
  intros Hfg. revert ys. induction l as [| x rest IH]; simpl; intros ys H.
  - injection H as <-. reflexivity.
  - invert_binds. injection H as <-.
    rewrite (Hfg _ _ Ha), (IH _ Ha0). reflexivity.
Qed.

Lemma richTextToPlain_fragments (items : list JsVal) (s : string) :
  richTextToPlain (JArr items) = Ok s ->
  s = String.concat ""
        (map (fun rt => Js.toString (rt.["plain_text"] ?? JStr "")) items).
Proof.
  unfold richTextToPlain. intros H. invert_binds. injection H as <-.
  apply res_map_list_Ok with (g := fun rt => rt.["plain_text"] ?? JStr "") in Ha.
  - subst a. unfold Js.join_empty. rewrite map_map. f_equal.
    apply map_ext. intros rt. unfold Js.coalesce.
    destruct (rt.["plain_text"]); reflexivity.
  - intros rt y Hy. invert_binds. injection Hy as <-.
    unfold Js.get_strict in Ha0.
    destruct (Js.nullish rt); [discriminate |].
    injection Ha0 as <-. reflexivity.
Qed.

(** The Notion title is a non-empty string: the fragments' plain text
    concatenated in order, or the placeholder. *)
Lemma notion_title_nonempty (now : string) (page : list (string * JsVal))
  (t : UnifiedTask) :
  notionPageToTask now page = Ok t ->
  exists s, title t = JStr s /\ s <> "".
Proof.
  unfold notionPageToTask. intros H. invert_binds. injection H as <-. simpl.
  unfold Js.or_else, Js.truthy.
  destruct (String.eqb a "") eqn:Ha'; simpl.
  - exists "Untitled". split; [reflexivity | discriminate].
  - exists a. split; [reflexivity |].
    intros ->. discriminate Ha'.
Qed.

(** The Todoist labels are absent or a non-empty array. *)
Lemma todoist_labels_absent_or_nonempty (now : string) (item : list (string * JsVal)) :
  labels (todoistItemToTask now item) = JUndefined \/
  exists l, labels (todoistItemToTask now item) = JArr l /\ l <> [].
Proof.
  unfold todoistItemToTask. simpl.
  destruct (Js.lookup "labels" item) as [| | b | n | s | l | f]; auto.
  destruct l as [| x l]; simpl; auto.
  right. exists (x :: l). split; [| discriminate].
  replace (0 <? Z.of_nat (length (x :: l))) with true; [reflexivity |].
  symmetry. apply Z.ltb_lt. simpl length. lia.
Qed.

(** C4.  [todoistItemToTask] gives an empty title to an item whose
    [content] is the empty string: [??] only replaces [undefined] and
    [null], where [notionPageToTask] uses [||]. *)
Theorem todoist_empty_content_keeps_empty_title :
  forall now : string,
    title (todoistItemToTask now [("id", JStr "1"); ("content", JStr "")]) = JStr "".
Proof. intros now. reflexivity. Qed.

(** C5.  [notionPageToTask] turns an empty [multi_select] collection
    into an empty label array, not into an absent field. *)
Theorem notion_empty_multi_select_gives_empty_labels :
  forall now : string,
    exists t,
      notionPageToTask now
        [("id", JStr "p1");
         ("properties", JObj [("Tags", JObj [("multi_select", JArr [])])])] = Ok t
      /\ labels t = JArr [].
Proof. intros now. eexists. split; reflexivity. Qed.

(** C7, as stated: normalising a record twice gives the same task, also
    when the record has no creation timestamp.  Two normalisations of
    such a record, one millisecond apart, differ. *)
Lemma normalisation_depends_on_clock :
  notionPageToTask "2024-06-01T10:00:00.000Z" [("id", JStr "abc-123")]
  <> notionPageToTask "2024-06-01T10:00:00.001Z" [("id", JStr "abc-123")] /\
  todoistItemToTask "2024-06-01T10:00:00.000Z" [("id", JStr "min"); ("content", JStr "Minimal")]
  <> todoistItemToTask "2024-06-01T10:00:00.001Z" [("id", JStr "min"); ("content", JStr "Minimal")].
Proof. split; discriminate. Qed.

(** C7, amended: a record that carries its creation timestamp normalises
    to the same task whatever the clock reads; and for every record two
    normalisations at the same clock reading are the same computation. *)
Theorem normalisation_deterministic_with_timestamp :
  forall (now1 now2 : string) (r : list (string * JsVal)),
    (Js.nullish (Js.lookup "created_time" r) = false ->
     notionPageToTask now1 r = notionPageToTask now2 r) /\
    (Js.nullish (Js.lookup "createdAt" r) = false ->
     todoistItemToTask now1 r = todoistItemToTask now2 r).
Proof.
  intros now1 now2 r. split; intros H.
  - unfold notionPageToTask. simpl Js.get.
    unfold Js.coalesce at 1.
    replace (Js.lookup "created_time" r ?? JStr now1)
      with (Js.lookup "created_time" r) by (unfold Js.coalesce; rewrite H; reflexivity).
    replace (Js.lookup "created_time" r ?? JStr now2)
      with (Js.lookup "created_time" r) by (unfold Js.coalesce; rewrite H; reflexivity).
    reflexivity.
  - unfold todoistItemToTask. simpl Js.get.
    replace (Js.lookup "createdAt" r ?? JStr now1)
      with (Js.lookup "createdAt" r) by (unfold Js.coalesce; rewrite H; reflexivity).
    replace (Js.lookup "createdAt" r ?? JStr now2)
      with (Js.lookup "createdAt" r) by (unfold Js.coalesce; rewrite H; reflexivity).
    reflexivity.
Qed.

Lemma normalisation_deterministic_with_timestamp_witness :
  let r := [("id", JStr "abc-123");
            ("created_time", JStr "2024-06-01T10:00:00.000Z");
            ("createdAt", JStr "2024-06-01T08:00:00.000Z")] in
  (Js.nullish (Js.lookup "created_time" r) = false /\
   notionPageToTask "2024-06-03T00:00:00.000Z" r
   = notionPageToTask "2024-06-04T00:00:00.000Z" r) /\
  (Js.nullish (Js.lookup "createdAt" r) = false /\
   todoistItemToTask "2024-06-03T00:00:00.000Z" r
   = todoistItemToTask "2024-06-04T00:00:00.000Z" r).
Proof.
  intros r.
  pose proof (normalisation_deterministic_with_timestamp
                "2024-06-03T00:00:00.000Z" "2024-06-04T00:00:00.000Z" r) as [Hn Ht].
  split.
  - split; [reflexivity | apply Hn; reflexivity].
  - split; [reflexivity | apply Ht; reflexivity].
Defined.

(** C8.  Writing a canonical status or priority and reading it back
    gives the value written: on the mapping functions, and on the
    [Status] and [Priority] properties (Notion) and the [priority] field
    (Todoist) that an update writes. *)
Theorem status_priority_round_trip :
  (forall s : TaskStatus,
      mapNotionStatus (JStr (Notion.unifiedStatusToNotion s)) = Ok s) /\
  (forall p : TaskPriority,
      mapNotionPriority (JStr (Notion.unifiedPriorityToNotion p)) = Ok p) /\
  (forall p : TaskPriority,
      mapTodoistPriority (JNum (Todoist.unifiedPriorityToTodoist p)) = p) /\
  (forall (now : string) (s : TaskStatus) (p : TaskPriority),
      exists t,
        notionPageToTask now
          [("properties",
            JObj (Notion.update_properties
                    (mkUpdate None None (Some s) (Some p) None None)))] = Ok t
        /\ status t = s /\ priority t = p) /\
  (forall (now : string) (p : TaskPriority),
      priority (todoistItemToTask now
                  (Todoist.updateParams
                     (mkUpdate None None None (Some p) None None))) = p).
Proof.
  split; [| split; [| split; [| split]]].
  - intros []; reflexivity.
  - intros []; reflexivity.
  - intros []; reflexivity.
  - intros now [] []; eexists; repeat split; reflexivity.
  - intros now []; reflexivity.
Qed.

(* --------------------------------------------------------------------- *)
(** ** The retry policy *)
(* --------------------------------------------------------------------- *)

Section Retry.
Import Policy.
Variable p : Policy.t.
Variable env : Env.
Variable c : Call.

Lemma after_nil (s : State) : after s [] = s.
Proof. destruct s. unfold after. simpl. rewrite app_nil_r. reflexivity. Qed.

Lemma after_after (s : State) (a b : list Event) :
  after (after s a) b = after s (a ++ b).
Proof. unfold after. simpl. rewrite app_assoc. reflexivity. Qed.

Lemma call_run (s : State) :
  call c env s = (respond env (trace s) c, after s [ECall c]).
Proof. reflexivity. Qed.

(** One iteration whose call fails and is retried. *)
Lemma loop_retry {attempt rest last} (s : State) (err : JsError) :
  respond env (trace s) c = Throw err ->
  retryable p err = true ->
  (attempt < max_retries p)%nat ->
  loop p (call c) (attempt :: rest) last env s
  = loop p (call c) rest err env (after s (failed_attempt p c attempt err)).
Proof.
  intros Hresp Hretry Hlt. simpl. unfold try_catch. rewrite call_run, Hresp.
  rewrite Hretry. apply Nat.ltb_lt in Hlt. rewrite Hlt. simpl.
  unfold bind, console_warn, sleep, emit, after, failed_attempt. simpl.
  rewrite <- !app_assoc. reflexivity.
Qed.

(** One iteration whose call fails and is not retried. *)
Lemma loop_give_up {attempt rest last} (s : State) (err : JsError) :
  respond env (trace s) c = Throw err ->
  retryable p err = false \/ attempt = max_retries p ->
  loop p (call c) (attempt :: rest) last env s
  = (Throw err, after s [ECall c]).
Proof.
  intros Hresp Hstop. simpl. unfold try_catch. rewrite call_run, Hresp.
  destruct Hstop as [Hno | ->].
  - rewrite Hno. reflexivity.
  - rewrite Nat.ltb_irrefl, andb_false_r. reflexivity.
Qed.

Lemma loop_success {attempt rest last} (s : State) (v : JsVal) :
  respond env (trace s) c = Ok v ->
  loop p (call c) (attempt :: rest) last env s = (Ok v, after s [ECall c]).
Proof.
  intros Hresp. simpl. unfold try_catch. rewrite call_run, Hresp. reflexivity.
Qed.

(** After [errs] retried failures, the loop is where it would be had it
    started at the next attempt in the state they leave. *)
Lemma loop_after_failures (errs : list JsError) :
  forall (attempt n : nat) (last : JsError) (s : State),
    fails_with p env c (trace s) attempt errs ->
    (attempt + length errs <= max_retries p)%nat ->
    (length errs <= n)%nat ->
    exists last',
      loop p (call c) (seq attempt n) last env s
      = loop p (call c) (seq (attempt + length errs) (n - length errs))
          last' env (after s (failed_attempts p c attempt errs)).
Proof.
  induction errs as [| err rest IH]; intros attempt n last s Hf Hmax Hn.
  - exists last. simpl. rewrite Nat.add_0_r, Nat.sub_0_r, after_nil. reflexivity.
  - simpl in Hf, Hmax, Hn. destruct Hf as [Hresp [Hretry Hrest]].
    destruct n as [| n]; [lia |].
    simpl seq. rewrite (loop_retry s err Hresp Hretry) by lia.
    destruct (IH (S attempt) n err (after s (failed_attempt p c attempt err)))
      as [last' Hloop]; try (simpl; lia).
    + exact Hrest.
    + exists last'. rewrite Hloop, after_after. simpl length.
      replace (attempt + S (length rest))%nat with (S attempt + length rest)%nat by lia.
      reflexivity.
Qed.

Lemma sleeps_app (a b : list Event) : sleeps (a ++ b) = (sleeps a ++ sleeps b)%list.
Proof.
  induction a as [| [] a IH]; simpl; try rewrite IH; reflexivity.
Qed.

Lemma calls_app (a b : list Event) : calls (a ++ b) = (calls a ++ calls b)%list.
Proof.
  induction a as [| [] a IH]; simpl; try rewrite IH; reflexivity.
Qed.

Lemma sleeps_failed_attempts (errs : list JsError) :
  forall attempt,
    sleeps (failed_attempts p c attempt errs)
    = map (delay p) (seq attempt (length errs)).
Proof.
  induction errs as [| err rest IH]; intros attempt; simpl.
  - reflexivity.
  - rewrite IH. reflexivity.
Qed.

Lemma calls_failed_attempts (errs : list JsError) :
  forall attempt,
    calls (failed_attempts p c attempt errs) = repeat c (length errs).
Proof.
  induction errs as [| err rest IH]; intros attempt; simpl.
  - reflexivity.
  - rewrite IH. reflexivity.
Qed.

End Retry.

Section RetryPolicy.
Import Policy.
Variable p : Policy.t.

Lemma policy_holds_for_withRetry : holds_for p (withRetry p).
Proof.
  intros env c s errs k tr s' Hfails. subst k tr s'.
  assert (Hrun : (length errs <= max_retries p)%nat ->
            exists last',
              withRetry p (call c) env s
              = loop p (call c)
                  (seq (length errs) (max_retries p + 1 - length errs)) last' env
                  (after s (failed_attempts p c 0 errs))).
  { intros Hk. unfold withRetry.
    destruct (loop_after_failures p env c errs 0 (max_retries p + 1)
                undefined_error s Hfails) as [last' H]; [simpl; lia | lia |].
    exists last'. exact H. }
  assert (Hseq : forall n, (n <= max_retries p)%nat ->
            seq n (max_retries p + 1 - n)
            = n :: seq (S n) (max_retries p - n)).
  { intros n Hn. replace (max_retries p + 1 - n)%nat with (S (max_retries p - n)) by lia.
    reflexivity. }
  split; [| split; [| split; [| split]]].
  - intros v Hk Hresp.
    destruct Hrun as [last' ->]; [lia |].
    rewrite Hseq by lia.
    rewrite (loop_success p env c _ v) by exact Hresp.
    rewrite after_after. reflexivity.
  - intros err Hk Hresp Hretry.
    destruct Hrun as [last' ->]; [lia |].
    rewrite Hseq by lia.
    rewrite (loop_give_up p env c _ err) by (try exact Hresp; right; lia).
    rewrite after_after. reflexivity.
  - intros err Hk Hresp Hretry.
    destruct Hrun as [last' ->]; [lia |].
    rewrite Hseq by lia.
    rewrite (loop_give_up p env c _ err) by (try exact Hresp; left; exact Hretry).
    rewrite after_after. reflexivity.
  - simpl. rewrite !calls_app, calls_failed_attempts. simpl.
    rewrite repeat_app. reflexivity.
  - simpl. rewrite !sleeps_app, sleeps_failed_attempts. simpl.
    rewrite app_nil_r. reflexivity.
Qed.

(** Whatever the provider answers, a retried call issues only attempts
    of that one call, at least one and at most [max_retries p + 1], and
    a value it returns is an answer of the provider. *)
Lemma loop_calls (env : Env) (c : Call) (attempts : list nat) :
  forall (last : JsError) (s s' : State) (r : Res JsVal),
    loop p (call c) attempts last env s = (r, s') ->
    todoist_client s' = todoist_client s /\
    (forall v, r = Ok v -> exists tr, respond env tr c = Ok v) /\
    exists k : nat,
      (k <= length attempts)%nat /\
      (attempts <> [] -> 1 <= k)%nat /\
      calls (trace s') = (calls (trace s) ++ repeat c k)%list.
Proof.
  induction attempts as [| attempt rest IH]; intros last s s' r Hrun.
  - simpl in Hrun. injection Hrun as <- <-.
    split; [reflexivity | split; [discriminate |]].
    exists 0%nat. simpl. rewrite app_nil_r.
    split; [lia | split; [congruence | reflexivity]].
  - simpl in Hrun. unfold try_catch in Hrun. rewrite call_run in Hrun.
    destruct (respond env (trace s) c) as [v | err] eqn:Hresp.
    + injection Hrun as <- <-. split; [reflexivity | split].
      * intros v' Hv. injection Hv as <-. exists (trace s). exact Hresp.
      * exists 1%nat. simpl. rewrite calls_app. simpl.
        split; [lia | split; [lia | reflexivity]].
    + destruct (retryable p err && (attempt <? max_retries p)%nat)%bool.
      * unfold bind, console_warn, sleep, emit in Hrun. simpl in Hrun.
        apply IH in Hrun. destruct Hrun as [Hclient [Hok [k [Hk [_ Hcalls]]]]].
        simpl in Hclient, Hcalls. split; [exact Hclient | split; [exact Hok |]].
        exists (S k). simpl.
        split; [lia | split; [lia |]].
        rewrite Hcalls, !calls_app. simpl. rewrite !app_nil_r, <- app_assoc.
        reflexivity.
      * unfold throw in Hrun. injection Hrun as <- <-.
        split; [reflexivity | split; [discriminate |]].
        exists 1%nat. simpl. rewrite calls_app. simpl.
        split; [lia | split; [lia | reflexivity]].
Qed.

End RetryPolicy.

(* --------------------------------------------------------------------- *)
(** ** The retry policy on the read side *)
(* --------------------------------------------------------------------- *)

Section ListingRetry.
Import Listing ListingPolicy.
Variable p : Policy.t.
Variable env : Listing.Env.
Variable c : Listing.Call.

Lemma listing_after_nil (s : Listing.State) : after s [] = s.
Proof. destruct s. unfold after. simpl. rewrite app_nil_r. reflexivity. Qed.

Lemma listing_after_after (s : Listing.State) (a b : list Listing.Event) :
  after (after s a) b = after s (a ++ b).
Proof. unfold after. simpl. rewrite app_assoc. reflexivity. Qed.

Lemma listing_call_run (s : Listing.State) :
  call c env s = (respond env (trace s) c, after s [ECall c]).
Proof. reflexivity. Qed.

(** One iteration whose call fails and is retried. *)
Lemma listing_loop_retry {attempt rest last} (s : Listing.State) (err : JsError) :
  respond env (trace s) c = Throw err ->
  Policy.retryable p err = true ->
  (attempt < Policy.max_retries p)%nat ->
  withRetry_loop p (call c) (attempt :: rest) last env s
  = withRetry_loop p (call c) rest err env (after s (failed_attempt p c attempt err)).
Proof.
  intros Hresp Hretry Hlt. simpl. unfold try_catch. rewrite listing_call_run, Hresp.
  unfold Policy.retryable in Hretry. rewrite Hretry.
  apply Nat.ltb_lt in Hlt. rewrite Hlt. simpl.
  unfold bind, console_warn, sleep, emit, after, failed_attempt. simpl.
  rewrite <- !app_assoc. reflexivity.
Qed.

(** One iteration whose call fails and is not retried. *)
Lemma listing_loop_give_up {attempt rest last} (s : Listing.State) (err : JsError) :
  respond env (trace s) c = Throw err ->
  Policy.retryable p err = false \/ attempt = Policy.max_retries p ->
  withRetry_loop p (call c) (attempt :: rest) last env s
  = (Throw err, after s [ECall c]).
Proof.
  intros Hresp Hstop. simpl. unfold try_catch. rewrite listing_call_run, Hresp.
  destruct Hstop as [Hno | ->].
  - unfold Policy.retryable in Hno. rewrite Hno. reflexivity.
  - rewrite Nat.ltb_irrefl, andb_false_r. reflexivity.
Qed.

Lemma listing_loop_success {attempt rest last} (s : Listing.State) (v : JsVal) :
  respond env (trace s) c = Ok v ->
  withRetry_loop p (call c) (attempt :: rest) last env s
  = (Ok v, after s [ECall c]).
Proof.
  intros Hresp. simpl. unfold try_catch. rewrite listing_call_run, Hresp.
  reflexivity.
Qed.

(** After [errs] retried failures, the loop is where it would be had it
    started at the next attempt in the state they leave. *)
Lemma listing_loop_after_failures (errs : list JsError) :
  forall (attempt n : nat) (last : JsError) (s : Listing.State),
    fails_with p env c (trace s) attempt errs ->
    (attempt + length errs <= Policy.max_retries p)%nat ->
    (length errs <= n)%nat ->
    exists last',
      withRetry_loop p (call c) (seq attempt n) last env s
      = withRetry_loop p (call c) (seq (attempt + length errs) (n - length errs))
          last' env (after s (failed_attempts p c attempt errs)).
Proof.
  induction errs as [| err rest IH]; intros attempt n last s Hf Hmax Hn.
  - exists last. simpl. rewrite Nat.add_0_r, Nat.sub_0_r, listing_after_nil.
    reflexivity.
  - simpl in Hf, Hmax, Hn. destruct Hf as [Hresp [Hretry Hrest]].
    destruct n as [| n]; [lia |].
    simpl seq. rewrite (listing_loop_retry s err Hresp Hretry) by lia.
    destruct (IH (S attempt) n err (after s (failed_attempt p c attempt err)))
      as [last' Hloop]; try (simpl; lia).
    + exact Hrest.
    + exists last'. rewrite Hloop, listing_after_after. simpl length.
      replace (attempt + S (length rest))%nat with (S attempt + length rest)%nat by lia.
      reflexivity.
Qed.

Lemma listing_sleeps_app (a b : list Listing.Event) :
  sleeps (a ++ b) = (sleeps a ++ sleeps b)%list.
Proof.
  induction a as [| [] a IH]; simpl; try rewrite IH; reflexivity.
Qed.

Lemma listing_calls_app (a b : list Listing.Event) :
  calls (a ++ b) = (calls a ++ calls b)%list.
Proof.
  induction a as [| [] a IH]; simpl; try rewrite IH; reflexivity.
Qed.

Lemma listing_sleeps_failed_attempts (errs : list JsError) :
  forall attempt,
    sleeps (failed_attempts p c attempt errs)
    = map (Policy.delay p) (seq attempt (length errs)).
Proof.
  induction errs as [| err rest IH]; intros attempt; simpl.
  - reflexivity.
  - rewrite IH. reflexivity.
Qed.

Lemma listing_calls_failed_attempts (errs : list JsError) :
  forall attempt,
    calls (failed_attempts p c attempt errs) = repeat c (length errs).
Proof.
  induction errs as [| err rest IH]; intros attempt; simpl.
  - reflexivity.
  - rewrite IH. reflexivity.
Qed.

(** Whatever the provider answers, the retried listing call ends with an
    attempt of the call, and returns or throws the answer to it. *)
Lemma listing_loop_run (n : nat) :
  forall (a : nat) (last : JsError) (s s' : Listing.State) (r : Res JsVal),
    (a + n = Policy.max_retries p)%nat ->
    withRetry_loop p (call c) (seq a (S n)) last env s = (r, s') ->
    exists tr, trace s' = (tr ++ [ECall c])%list /\ respond env tr c = r.
Proof.
  induction n as [| n IH]; intros a last s s' r Hmax Hrun.
  - exists (trace s). change (seq a 1) with [a] in Hrun.
    destruct (respond env (trace s) c) as [v | err] eqn:Hresp.
    + rewrite (listing_loop_success s v Hresp) in Hrun.
      injection Hrun as <- <-. auto.
    + rewrite (listing_loop_give_up s err Hresp) in Hrun by (right; lia).
      injection Hrun as <- <-. auto.
  - change (seq a (S (S n))) with (a :: seq (S a) (S n)) in Hrun.
    destruct (respond env (trace s) c) as [v | err] eqn:Hresp.
    + rewrite (listing_loop_success s v Hresp) in Hrun.
      injection Hrun as <- <-. exists (trace s). auto.
    + destruct (Policy.retryable p err) eqn:Hretry.
      * rewrite (listing_loop_retry s err Hresp Hretry) in Hrun by lia.
        apply IH in Hrun; [exact Hrun | lia].
      * rewrite (listing_loop_give_up s err Hresp) in Hrun by (left; exact Hretry).
        injection Hrun as <- <-. exists (trace s). auto.
Qed.

Lemma listing_withRetry_run (s : Listing.State) :
  exists tr,
    trace (snd (withRetry p (call c) env s)) = (tr ++ [ECall c])%list /\
    respond env tr c = fst (withRetry p (call c) env s).
Proof.
  destruct (withRetry p (call c) env s) as [r s'] eqn:Hrun.
  unfold withRetry in Hrun.
  replace (Policy.max_retries p + 1)%nat with (S (Policy.max_retries p)) in Hrun
    by lia.
  apply listing_loop_run in Hrun; [exact Hrun | lia].
Qed.

End ListingRetry.

Lemma listing_policy_holds (p : Policy.t) :
  ListingPolicy.holds_for p (Listing.withRetry p).
Proof.
  intros env c s errs k tr s' Hfails. subst k tr s'.
  assert (Hrun : (length errs <= Policy.max_retries p)%nat ->
            exists last',
              Listing.withRetry p (Listing.call c) env s
              = Listing.withRetry_loop p (Listing.call c)
                  (seq (length errs) (Policy.max_retries p + 1 - length errs))
                  last' env
                  (ListingPolicy.after s (ListingPolicy.failed_attempts p c 0 errs))).
  { intros Hk. unfold Listing.withRetry.
    destruct (listing_loop_after_failures p env c errs 0 (Policy.max_retries p + 1)
                undefined_error s Hfails) as [last' H]; [simpl; lia | lia |].
    exists last'. exact H. }
  assert (Hseq : forall n, (n <= Policy.max_retries p)%nat ->
            seq n (Policy.max_retries p + 1 - n)
            = n :: seq (S n) (Policy.max_retries p - n)).
  { intros n Hn.
    replace (Policy.max_retries p + 1 - n)%nat
      with (S (Policy.max_retries p - n)) by lia.
    reflexivity. }
  split; [| split; [| split; [| split]]].
  - intros v Hk Hresp.
    destruct Hrun as [last' ->]; [lia |].
    rewrite Hseq by lia.
    rewrite (listing_loop_success p env c _ v) by exact Hresp.
    rewrite listing_after_after. reflexivity.
  - intros err Hk Hresp Hretry.
    destruct Hrun as [last' ->]; [lia |].
    rewrite Hseq by lia.
    rewrite (listing_loop_give_up p env c _ err) by (try exact Hresp; right; lia).
    rewrite listing_after_after. reflexivity.
  - intros err Hk Hresp Hretry.
    destruct Hrun as [last' ->]; [lia |].
    rewrite Hseq by lia.
    rewrite (listing_loop_give_up p env c _ err)
      by (try exact Hresp; left; exact Hretry).
    rewrite listing_after_after. reflexivity.
  - simpl. rewrite !listing_calls_app, listing_calls_failed_attempts. simpl.
    rewrite repeat_app. reflexivity.
  - simpl. rewrite !listing_sleeps_app, listing_sleeps_failed_attempts. simpl.
    rewrite app_nil_r. reflexivity.
Qed.

Lemma notion_withRetry_loop_eq {A} (fn : M Env State A) (attempts : list nat) :
  forall last env s,
    Notion.withRetry_loop fn attempts last env s
    = Policy.loop Policy.notion fn attempts last env s.
Proof.
  induction attempts as [| attempt rest IH]; intros last env s; [reflexivity |].
  simpl. unfold try_catch. destruct (fn env s) as [[v | err] s1]; [reflexivity |].
  cbv [Policy.retryable Policy.notion Policy.status_of Policy.max_retries
       Notion.MAX_RETRIES].
  destruct (isRateLimit (err_status err)), (isServerError (err_status err)),
    (attempt <? 5)%nat; simpl; try reflexivity;
    unfold bind, console_warn, sleep, emit; simpl; apply IH.
Qed.

Lemma todoist_withRetry_loop_eq {A} (fn : M Env State A) (attempts : list nat) :
  forall last env s,
    Todoist.withRetry_loop fn attempts last env s
    = Policy.loop Policy.todoist fn attempts last env s.
Proof.
  induction attempts as [| attempt rest IH]; intros last env s; [reflexivity |].
  simpl. unfold try_catch. destruct (fn env s) as [[v | err] s1]; [reflexivity |].
  cbv [Policy.retryable Policy.todoist Policy.status_of Policy.max_retries
       Todoist.MAX_RETRIES].
  destruct (isRateLimit (err_httpStatusCode err ?? err_status err)),
    (isServerError (err_httpStatusCode err ?? err_status err)),
    (attempt <? 5)%nat; simpl; try reflexivity;
    unfold bind, console_warn, sleep, emit; simpl; apply IH.
Qed.

Lemma notion_withRetry_eq {A} (fn : M Env State A) env s :
  Notion.withRetry fn env s = Policy.withRetry Policy.notion fn env s.
Proof. apply notion_withRetry_loop_eq. Qed.

Lemma todoist_withRetry_eq {A} (fn : M Env State A) env s :
  Todoist.withRetry fn env s = Policy.withRetry Policy.todoist fn env s.
Proof. apply todoist_withRetry_loop_eq. Qed.

Lemma holds_for_ext (p : Policy.t) (retry1 retry2 : M Env State JsVal -> M Env State JsVal) :
  (forall fn env s, retry2 fn env s = retry1 fn env s) ->
  Policy.holds_for p retry1 -> Policy.holds_for p retry2.
Proof.
  intros Heq H env c s errs k tr s' Hfails.
  destruct (H env c s errs Hfails) as [H1 [H2 [H3 [H4 H5]]]].
  split; [| split; [| split; [| split]]].
  - intros v Hk Hresp. rewrite Heq. apply H1; assumption.
  - intros err Hk Hresp Hretry. rewrite Heq. apply H2; assumption.
  - intros err Hk Hresp Hretry. rewrite Heq. apply H3; assumption.
  - exact H4.
  - exact H5.
Qed.

(** C3.  Both retry helpers follow the retry policy, around the seven
    calls that write and around the two calls that list
    ([notion.request] in [fetchNotionTasks], [client.getTasks] in
    [fetchTodoistTasks]): a call whose attempts 1..k fail with a 429 or a
    status of 500 or more and whose attempt k+1 succeeds, k below the cap
    of [MAX_RETRIES + 1] attempts, returns the value; if the attempt at
    the cap fails as well, that last error propagates; an error of
    another class propagates at once, with no further attempt; and the
    delays between the attempts are the base delay (400 ms for Notion,
    500 ms for Todoist), doubled each time. *)
Theorem withRetry_follows_policy :
  Policy.holds_for Policy.notion Notion.withRetry /\
  Policy.holds_for Policy.todoist Todoist.withRetry /\
  Policy.delay Policy.notion 0 = Notion.BASE_DELAY_MS /\
  Policy.delay Policy.todoist 0 = Todoist.BASE_DELAY_MS /\
  (forall p attempt,
      Policy.delay p (S attempt) = 2 * Policy.delay p attempt) /\
  Policy.max_retries Policy.notion = Notion.MAX_RETRIES /\
  Policy.max_retries Policy.todoist = Todoist.MAX_RETRIES /\
  ListingPolicy.holds_for Policy.notion (Listing.withRetry Policy.notion) /\
  ListingPolicy.holds_for Policy.todoist (Listing.withRetry Policy.todoist).
Proof.
  split; [| split; [| split; [| split; [| split; [| split; [| split; [| split]]]]]]];
    try reflexivity; try apply listing_policy_holds.
  - apply (holds_for_ext _ (Policy.withRetry Policy.notion)).
    + intros fn env s. apply notion_withRetry_eq.
    + apply policy_holds_for_withRetry.
  - apply (holds_for_ext _ (Policy.withRetry Policy.todoist)).
    + intros fn env s. apply todoist_withRetry_eq.
    + apply policy_holds_for_withRetry.
  - intros p attempt. unfold Policy.delay.
    rewrite Nat2Z.inj_succ, Z.pow_succ_r by lia. ring.
Qed.

Lemma withRetry_follows_policy_witness :
  let c := todoist_closeTask (JStr "todo-456") in
  let d := notion_pages_update
             (JObj [("page_id", JStr "abc-123"); ("archived", JBool true)]) in
  let errs := [Sample.rate_limited; Sample.rate_limited; Sample.unavailable] in
  (* three failed attempts, the fourth succeeds *)
  (Policy.fails_with Policy.todoist Sample.flaky c [] 0 errs /\
   (length errs < Policy.max_retries Policy.todoist + 1)%nat /\
   fst (Todoist.withRetry (call c) Sample.flaky Sample.start) = Ok Sample.item /\
   sleeps (trace (snd (Todoist.withRetry (call c) Sample.flaky Sample.start)))
   = [500; 1000; 2000]) /\
  (* six failed attempts *)
  (Policy.fails_with Policy.notion Sample.saturated d [] 0
     (repeat Sample.rate_limited 5) /\
   fst (Notion.withRetry (call d) Sample.saturated Sample.start)
   = Throw Sample.rate_limited /\
   calls (trace (snd (Notion.withRetry (call d) Sample.saturated Sample.start)))
   = repeat d 6 /\
   sleeps (trace (snd (Notion.withRetry (call d) Sample.saturated Sample.start)))
   = [400; 800; 1600; 3200; 6400]) /\
  (* an error of another class *)
  (Policy.retryable Policy.notion Sample.not_found = false /\
   Notion.withRetry (call d) Sample.missing Sample.start
   = (Throw Sample.not_found, Policy.after Sample.start [Client.ECall d])) /\
  (* listing: three failed attempts of [getTasks], the fourth succeeds *)
  (let g := Listing.todoist_getTasks in
   let run := Listing.withRetry Policy.todoist (Listing.call g) SampleRetry.flaky
                SampleListing.start in
   let fetch := Listing.fetchTodoistTasks SampleListing.now SampleRetry.flaky
                  SampleListing.start in
   ListingPolicy.fails_with Policy.todoist SampleRetry.flaky g [] 0 errs /\
   fst run = Ok (JArr [Sample.item]) /\
   ListingPolicy.sleeps (Listing.trace (snd run)) = [500; 1000; 2000] /\
   map id (Settled.records (fst fetch)) = ["todoist-todo-456"] /\
   Listing.calls (Listing.trace (snd fetch)) = repeat g 4 /\
   ListingPolicy.sleeps (Listing.trace (snd fetch)) = [500; 1000; 2000]) /\
  (* listing: six failed queries, and a query that is not retried *)
  (let q := Listing.notion_request (Listing.query "db" JUndefined) in
   let run := Listing.withRetry Policy.notion (Listing.call q) SampleRetry.saturated
                SampleListing.start in
   let fetch := Listing.fetchNotionTasks SampleListing.now 3 SampleRetry.saturated
                  SampleListing.start in
   ListingPolicy.fails_with Policy.notion SampleRetry.saturated q [] 0
     (repeat Sample.rate_limited 5) /\
   fst run = Throw Sample.rate_limited /\
   Listing.calls (Listing.trace (snd run)) = repeat q 6 /\
   ListingPolicy.sleeps (Listing.trace (snd run)) = [400; 800; 1600; 3200; 6400] /\
   fetch = (Throw Sample.rate_limited, snd run) /\
   Listing.withRetry Policy.notion (Listing.call q) SampleRetry.missing
     SampleListing.start
   = (Throw Sample.not_found,
      ListingPolicy.after SampleListing.start [Listing.ECall q])).
Proof.
  intros c d errs.
  destruct withRetry_follows_policy
    as [Hnotion [Htodoist [_ [_ [_ [_ [_ [Hquery HgetTasks]]]]]]]].
  split; [| split; [| split; [| split]]].
  - assert (Hfails : Policy.fails_with Policy.todoist Sample.flaky c
                       (trace Sample.start) 0 errs)
      by (simpl; repeat split; reflexivity).
    destruct (Htodoist Sample.flaky c Sample.start errs Hfails)
      as [Hok [_ [_ [_ Hsleeps]]]].
    split; [exact Hfails | split; [simpl; lia | split]].
    + rewrite (Hok Sample.item); [reflexivity | simpl; lia | reflexivity].
    + rewrite (Hok Sample.item); [exact Hsleeps | simpl; lia | reflexivity].
  - assert (Hfails : Policy.fails_with Policy.notion Sample.saturated d
                       (trace Sample.start) 0 (repeat Sample.rate_limited 5))
      by (simpl; repeat split; reflexivity).
    destruct (Hnotion Sample.saturated d Sample.start _ Hfails)
      as [_ [Hexhausted [_ [Hcalls Hsleeps]]]].
    split; [exact Hfails |].
    rewrite (Hexhausted Sample.rate_limited); try reflexivity.
    split; [reflexivity | split; [exact Hcalls | exact Hsleeps]].
  - destruct (Hnotion Sample.missing d Sample.start [] I) as [_ [_ [Hfatal _]]].
    split; [reflexivity |].
    apply Hfatal; [simpl; lia | reflexivity | reflexivity].
  - intros g run fetch.
    assert (Hfails : ListingPolicy.fails_with Policy.todoist SampleRetry.flaky g
                       (Listing.trace SampleListing.start) 0 errs)
      by (simpl; repeat split; reflexivity).
    destruct (HgetTasks SampleRetry.flaky g SampleListing.start errs Hfails)
      as [Hok [_ [_ [_ Hsleeps]]]].
    assert (Hrun : run = (Ok (JArr [Sample.item]),
                          ListingPolicy.after SampleListing.start
                            (ListingPolicy.failed_attempts Policy.todoist g 0 errs
                             ++ [Listing.ECall g])))
      by (apply Hok; [simpl; lia | reflexivity]).
    split; [exact Hfails | split; [rewrite Hrun; reflexivity | split]].
    + rewrite Hrun. exact Hsleeps.
    + split; [reflexivity | split; reflexivity].
  - intros q run fetch.
    assert (Hfails : ListingPolicy.fails_with Policy.notion SampleRetry.saturated q
                       (Listing.trace SampleListing.start) 0
                       (repeat Sample.rate_limited 5))
      by (simpl; repeat split; reflexivity).
    destruct (Hquery SampleRetry.saturated q SampleListing.start _ Hfails)
      as [_ [Hexhausted [_ [Hcalls Hsleeps]]]].
    assert (Hrun : run = (Throw Sample.rate_limited,
                          ListingPolicy.after SampleListing.start
                            (ListingPolicy.failed_attempts Policy.notion q 0
                               (repeat Sample.rate_limited 5)
                             ++ [Listing.ECall q])))
      by (apply Hexhausted; reflexivity).
    split; [exact Hfails | split; [rewrite Hrun; reflexivity | split]].
    + rewrite Hrun. exact Hcalls.
    + split; [rewrite Hrun; exact Hsleeps | split; [reflexivity |]].
      destruct (Hquery SampleRetry.missing q SampleListing.start [] I)
        as [_ [_ [Hfatal _]]].
      apply Hfatal; [simpl; lia | reflexivity | reflexivity].
Defined.

Lemma todoist_withRetry_calls (env : Env) (c : Call) (s s' : State) (r : Res JsVal) :
  Todoist.withRetry (call c) env s = (r, s') ->
  todoist_client s' = todoist_client s /\
  (forall v, r = Ok v -> exists tr, respond env tr c = Ok v) /\
  exists k : nat,
    (1 <= k <= Todoist.MAX_RETRIES + 1)%nat /\
    calls (trace s') = (calls (trace s) ++ repeat c k)%list.
Proof.
  rewrite todoist_withRetry_eq. unfold Policy.withRetry. intros Hrun.
  apply loop_calls in Hrun. destruct Hrun as [Hclient [Hok [k [Hk [Hk1 Hcalls]]]]].
  split; [exact Hclient | split; [exact Hok |]].
  exists k. split; [| exact Hcalls].
  rewrite length_seq in Hk. split; [apply Hk1; discriminate | exact Hk].
Qed.

Lemma notion_withRetry_calls (env : Env) (c : Call) (s s' : State) (r : Res JsVal) :
  Notion.withRetry (call c) env s = (r, s') ->
  todoist_client s' = todoist_client s /\
  (forall v, r = Ok v -> exists tr, respond env tr c = Ok v) /\
  exists k : nat,
    (1 <= k <= Notion.MAX_RETRIES + 1)%nat /\
    calls (trace s') = (calls (trace s) ++ repeat c k)%list.
Proof.
  rewrite notion_withRetry_eq. unfold Policy.withRetry. intros Hrun.
  apply loop_calls in Hrun. destruct Hrun as [Hclient [Hok [k [Hk [Hk1 Hcalls]]]]].
  split; [exact Hclient | split; [exact Hok |]].
  exists k. split; [| exact Hcalls].
  rewrite length_seq in Hk. split; [apply Hk1; discriminate | exact Hk].
Qed.

(** [getTodoistClient] issues no call. *)
Lemma getTodoistClient_trace (env : Env) (s s' : State) (r : Res string) :
  Todoist.getTodoistClient env s = (r, s') -> trace s' = trace s.
Proof.
  unfold Todoist.getTodoistClient, bind, get_state, ask, put_state, ret, throw.
  destruct (todoist_client s); [intros H; injection H as <- <-; reflexivity |].
  destruct (nonempty_opt (TODOIST_API_TOKEN env));
    intros H; injection H as <- <-; reflexivity.
Qed.

Lemma itemToTask_status (now : string) (item : JsVal) (t : UnifiedTask) :
  Todoist.itemToTask now item = Ok t ->
  status t = (if Js.truthy (item.["isCompleted"] ?? JBool false) then done else todo).
Proof.
  destruct item; simpl; intros H; try discriminate; injection H as <-; reflexivity.
Qed.

(* --------------------------------------------------------------------- *)
(** ** Todoist create ignores [status] and [projectName] *)
(* --------------------------------------------------------------------- *)

(** C10.  Two create inputs that differ only in [status] and
    [projectName] give the same [addTask] payload and, against the same
    provider, the same run: the same calls and the same returned task.
    The status of the returned task is read from the provider's answer
    to the add call: [done] if its [isCompleted] is truthy, [todo]
    otherwise. *)
Theorem createTodoistTask_ignores_status_and_project :
  forall (input : CreateTaskInput) (st : option TaskStatus) (pn : option string),
    Todoist.addParams (with_status_project input st pn) = Todoist.addParams input /\
    (forall (now : string) (env : Env) (s : State),
        Todoist.createTodoistTask now (with_status_project input st pn) env s
        = Todoist.createTodoistTask now input env s) /\
    (forall (now : string) (env : Env) (s : State),
        match Todoist.createTodoistTask now (with_status_project input st pn) env s with
        | (Ok t, _) =>
            exists (tr : list Event) (item : JsVal),
              respond env tr (todoist_addTask (JObj (Todoist.addParams input))) = Ok item /\
              Todoist.itemToTask now item = Ok t /\
              status t = (if Js.truthy (item.["isCompleted"] ?? JBool false)
                          then done else todo)
        | (Throw _, _) => True
        end).
Proof.
  intros input st pn. split; [reflexivity | split].
  - intros now env s. reflexivity.
  - intros now env s.
    change (Todoist.createTodoistTask now (with_status_project input st pn) env s)
      with (Todoist.createTodoistTask now input env s).
    unfold Todoist.createTodoistTask, bind.
    destruct (Todoist.getTodoistClient env s) as [[client | e] s1]; [| exact I].
    destruct (Todoist.withRetry _ env s1) as [[item | e] s2] eqn:Hretry; [| exact I].
    unfold lift_res.
    destruct (Todoist.itemToTask now item) as [t | e] eqn:Htask; [| exact I].
    apply todoist_withRetry_calls in Hretry. destruct Hretry as [_ [Hok _]].
    destruct (Hok item eq_refl) as [tr Htr].
    exists tr, item. split; [exact Htr | split; [exact Htask |]].
    apply (itemToTask_status now). exact Htask.
Qed.

(* --------------------------------------------------------------------- *)
(** ** Status transitions *)
(* --------------------------------------------------------------------- *)

Lemma todoist_withRetry_first_ok (env : Env) (c : Call) (s : State) (v : JsVal) :
  respond env (trace s) c = Ok v ->
  Todoist.withRetry (call c) env s = (Ok v, Policy.after s [Client.ECall c]).
Proof.
  intros Hresp. rewrite todoist_withRetry_eq. unfold Policy.withRetry.
  simpl seq. apply loop_success. exact Hresp.
Qed.

Lemma getTodoistClient_ok (env : Env) (s : State) :
  todoist_configured env s ->
  exists client s1,
    Todoist.getTodoistClient env s = (Ok client, s1) /\ trace s1 = trace s.
Proof.
  unfold todoist_configured, Todoist.getTodoistClient, bind, get_state, ask,
    put_state, ret, throw.
  intros [Hc | Ht].
  - destruct (todoist_client s) as [client |]; [| congruence].
    exists client, s. split; reflexivity.
  - destruct (todoist_client s) as [client |].
    + exists client, s. split; reflexivity.
    + destruct (nonempty_opt (TODOIST_API_TOKEN env)) as [token |]; [| congruence].
      eexists _, _. split; reflexivity.
Qed.

Lemma updateTodoistTask_first_attempts (now : string) (env : Env) (s : State)
  (sourceId : JsVal) (updates : UpdateTaskInput) (task : JsVal) :
  let upd := todoist_updateTask sourceId (JObj (Todoist.updateParams updates)) in
  todoist_configured env s ->
  respond env (trace s) upd = Ok task ->
  (forall c, In c (status_action sourceId (up_status updates)) ->
             exists v, respond env (trace s ++ [Client.ECall upd]) c = Ok v) ->
  calls (trace (snd (Todoist.updateTodoistTask now sourceId updates env s)))
  = (calls (trace s) ++ upd :: status_action sourceId (up_status updates))%list.
Proof.
  intros upd Hconf Hupd Hextra.
  destruct (getTodoistClient_ok env s Hconf) as [client [s1 [Hclient Htrace]]].
  unfold Todoist.updateTodoistTask, bind. rewrite Hclient.
  rewrite <- Htrace in Hupd, Hextra.
  fold upd. rewrite (todoist_withRetry_first_ok env upd s1 task Hupd).
  destruct (up_status updates) as [[| |] |]; simpl in Hextra |- *.
  - destruct (Hextra _ (or_introl eq_refl)) as [v Hv].
    rewrite (todoist_withRetry_first_ok env _ _ v) by exact Hv.
    unfold ret, lift_res. simpl. rewrite !calls_app, Htrace. simpl.
    rewrite <- app_assoc. reflexivity.
  - destruct (Hextra _ (or_introl eq_refl)) as [v Hv].
    rewrite (todoist_withRetry_first_ok env _ _ v) by exact Hv.
    unfold ret, lift_res. simpl. rewrite !calls_app, Htrace. simpl.
    rewrite <- app_assoc. reflexivity.
  - destruct (Hextra _ (or_introl eq_refl)) as [v Hv].
    rewrite (todoist_withRetry_first_ok env _ _ v) by exact Hv.
    unfold ret, lift_res. simpl. rewrite !calls_app, Htrace. simpl.
    rewrite <- app_assoc. reflexivity.
  - unfold ret, lift_res. simpl. rewrite !calls_app, Htrace. reflexivity.
Qed.

Lemma updateTodoistTask_attempts (now : string) (env : Env) (s s' : State)
  (sourceId : JsVal) (updates : UpdateTaskInput) (t : UnifiedTask) :
  let upd := todoist_updateTask sourceId (JObj (Todoist.updateParams updates)) in
  Todoist.updateTodoistTask now sourceId updates env s = (Ok t, s') ->
  exists n m : nat,
    (1 <= n <= Todoist.MAX_RETRIES + 1)%nat /\
    (1 <= m <= Todoist.MAX_RETRIES + 1)%nat /\
    calls (trace s')
    = (calls (trace s) ++ repeat upd n
       ++ flat_map (fun c => repeat c m)
            (status_action sourceId (up_status updates)))%list.
Proof.
  intros upd. unfold Todoist.updateTodoistTask, bind. fold upd.
  destruct (Todoist.getTodoistClient env s) as [[client | e] s1] eqn:Hclient;
    [| discriminate].
  apply getTodoistClient_trace in Hclient.
  destruct (Todoist.withRetry (call upd) env s1) as [[task | e] s2] eqn:Hupd;
    [| discriminate].
  apply todoist_withRetry_calls in Hupd. destruct Hupd as [_ [_ [n [Hn Hcalls]]]].
  rewrite Hclient in Hcalls.
  destruct (up_status updates) as [[| |] |]; simpl.
  - destruct (Todoist.withRetry _ env s2) as [[v | e] s3] eqn:Hextra; [| discriminate].
    apply todoist_withRetry_calls in Hextra. destruct Hextra as [_ [_ [m [Hm Hcalls']]]].
    unfold ret, lift_res. intros H.
    destruct (Todoist.itemToTask now task); [| discriminate]. injection H as _ <-.
    exists n, m. split; [exact Hn | split; [exact Hm |]].
    rewrite Hcalls', Hcalls. simpl. rewrite app_nil_r, <- app_assoc. reflexivity.
  - destruct (Todoist.withRetry _ env s2) as [[v | e] s3] eqn:Hextra; [| discriminate].
    apply todoist_withRetry_calls in Hextra. destruct Hextra as [_ [_ [m [Hm Hcalls']]]].
    unfold ret, lift_res. intros H.
    destruct (Todoist.itemToTask now task); [| discriminate]. injection H as _ <-.
    exists n, m. split; [exact Hn | split; [exact Hm |]].
    rewrite Hcalls', Hcalls. simpl. rewrite app_nil_r, <- app_assoc. reflexivity.
  - destruct (Todoist.withRetry _ env s2) as [[v | e] s3] eqn:Hextra; [| discriminate].
    apply todoist_withRetry_calls in Hextra. destruct Hextra as [_ [_ [m [Hm Hcalls']]]].
    unfold ret, lift_res. intros H.
    destruct (Todoist.itemToTask now task); [| discriminate]. injection H as _ <-.
    exists n, m. split; [exact Hn | split; [exact Hm |]].
    rewrite Hcalls', Hcalls. simpl. rewrite app_nil_r, <- app_assoc. reflexivity.
  - unfold ret, lift_res. intros H.
    destruct (Todoist.itemToTask now task); [| discriminate]. injection H as _ <-.
    exists n, 1%nat. split; [exact Hn | split; [simpl; lia |]].
    rewrite Hcalls. simpl. rewrite app_nil_r. reflexivity.
Qed.

Lemma getNotionClient_state (env : Env) (s s' : State) (r : Res string) :
  Notion.getNotionClient env s = (r, s') -> s' = s.
Proof.
  unfold Notion.getNotionClient, bind, ask, ret, throw.
  destruct (nonempty_opt (NOTION_API_KEY env));
    intros H; injection H as <- <-; reflexivity.
Qed.

Lemma updateNotionTask_calls (now : string) (env : Env) (s : State)
  (sourceId : JsVal) (updates : UpdateTaskInput) :
  exists n : nat,
    (n <= Notion.MAX_RETRIES + 1)%nat /\
    calls (trace (snd (Notion.updateNotionTask now sourceId updates env s)))
    = (calls (trace s)
       ++ repeat (notion_pages_update
                    (JObj [("page_id", sourceId);
                           ("properties", JObj (Notion.update_properties updates))]))
            n)%list.
Proof.
  unfold Notion.updateNotionTask, bind.
  destruct (Notion.getNotionClient env s) as [[client | e] s1] eqn:Hclient;
    apply getNotionClient_state in Hclient; subst s1.
  - match goal with
    | |- context [Notion.withRetry ?fn env s] =>
        destruct (Notion.withRetry fn env s) as [[page | e] s1] eqn:Hrun
    end;
      apply notion_withRetry_calls in Hrun;
      destruct Hrun as [_ [_ [n [Hn Hcalls]]]];
      exists n; (split; [lia | exact Hcalls]).
  - exists 0%nat. simpl. rewrite app_nil_r. split; [lia | reflexivity].
Qed.

(** C6.  [updateTodoistTask] issues, after the field-update call, one
    close call when the update sets the status to [done] and one reopen
    call when it sets it to [todo] or [in_progress], and nothing else;
    [updateNotionTask] issues its [pages.update] call only.  A call that
    fails with a transient error is attempted again by the retry helper:
    when each call is answered at its first attempt the calls are exactly
    these, and otherwise the attempts of the update call are followed by
    the attempts of the one extra call. *)
Theorem status_transition_calls :
  forall (now : string) (env : Env) (s : State) (sourceId : JsVal)
         (updates : UpdateTaskInput),
    let upd := todoist_updateTask sourceId (JObj (Todoist.updateParams updates)) in
    let extra := status_action sourceId (up_status updates) in
    (* Todoist, every call answered at its first attempt *)
    (forall task,
        todoist_configured env s ->
        respond env (trace s) upd = Ok task ->
        (forall c, In c extra ->
                   exists v, respond env (trace s ++ [Client.ECall upd]) c = Ok v) ->
        calls (trace (snd (Todoist.updateTodoistTask now sourceId updates env s)))
        = (calls (trace s) ++ upd :: extra)%list) /\
    (* Todoist, any provider, when the update returns *)
    (forall t s',
        Todoist.updateTodoistTask now sourceId updates env s = (Ok t, s') ->
        exists n m : nat,
          (1 <= n <= Todoist.MAX_RETRIES + 1)%nat /\
          (1 <= m <= Todoist.MAX_RETRIES + 1)%nat /\
          calls (trace s')
          = (calls (trace s) ++ repeat upd n
             ++ flat_map (fun c => repeat c m) extra)%list) /\
    (* Notion, any provider *)
    (exists n : nat,
        (n <= Notion.MAX_RETRIES + 1)%nat /\
        calls (trace (snd (Notion.updateNotionTask now sourceId updates env s)))
        = (calls (trace s)
           ++ repeat (notion_pages_update
                        (JObj [("page_id", sourceId);
                               ("properties", JObj (Notion.update_properties updates))]))
                n)%list).
Proof.
  intros now env s sourceId updates upd extra. split; [| split].
  - intros task. apply updateTodoistTask_first_attempts.
  - intros t s'. apply updateTodoistTask_attempts.
  - apply updateNotionTask_calls.
Qed.

Lemma status_transition_calls_witness :
  let id_ := JStr "todo-456" in
  let reopen := mkUpdate None None (Some todo) None None None in
  let close := mkUpdate (Some "Review PR") None (Some done) None None None in
  (* done -> todo on a healthy provider: the update, then one reopen *)
  (todoist_configured Sample.healthy Sample.start /\
   calls (trace (snd (Todoist.updateTodoistTask "2024-06-03T00:00:00.000Z" id_ reopen
                        Sample.healthy Sample.start)))
   = [todoist_updateTask id_ (JObj []); todoist_reopenTask id_]) /\
  (* -> done on a provider that fails three times: attempts, then the close *)
  (exists t s',
      Todoist.updateTodoistTask "2024-06-03T00:00:00.000Z" id_ close
        Sample.flaky Sample.start = (Ok t, s') /\
      calls (trace s')
      = (repeat (todoist_updateTask id_ (JObj [("content", JStr "Review PR")])) 4
         ++ [todoist_closeTask id_])%list).
Proof.
  intros id_ reopen close. split.
  - assert (Hconf : todoist_configured Sample.healthy Sample.start)
      by (right; discriminate).
    split; [exact Hconf |].
    destruct (status_transition_calls "2024-06-03T00:00:00.000Z" Sample.healthy
                Sample.start id_ reopen) as [Hfirst _].
    apply (Hfirst Sample.item Hconf eq_refl).
    intros c _. exists Sample.item. reflexivity.
  - destruct (Todoist.updateTodoistTask "2024-06-03T00:00:00.000Z" id_ close
                Sample.flaky Sample.start) as [r s'] eqn:Hrun.
    assert (Hr : r = fst (Todoist.updateTodoistTask "2024-06-03T00:00:00.000Z" id_
                            close Sample.flaky Sample.start))
      by (rewrite Hrun; reflexivity).
    vm_compute in Hr.
    match type of Hr with r = Ok ?t => exists t, s' end. subst r.
    split; [reflexivity |].
    destruct (status_transition_calls "2024-06-03T00:00:00.000Z" Sample.flaky
                Sample.start id_ close) as [_ [Hany _]].
    destruct (Hany _ _ Hrun) as [n [m [_ [_ Hcalls]]]].
    assert (Hs : calls (trace s')
                 = calls (trace (snd (Todoist.updateTodoistTask
                                        "2024-06-03T00:00:00.000Z" id_ close
                                        Sample.flaky Sample.start))))
      by (rewrite Hrun; reflexivity).
    rewrite Hs. reflexivity.
Defined.

(* --------------------------------------------------------------------- *)
(** ** The sort of [getAllTasks] *)
(* --------------------------------------------------------------------- *)

Section SortFacts.
Import TaskService Order.
Variable env : TaskService.Env.

Lemma insert_perm (x : UnifiedTask) (l : list UnifiedTask) :
  Permutation (x :: l) (insert (compareUpdatedAt env) x l).
Proof.
  induction l as [| y rest IH]; simpl.
  - apply Permutation_refl.
  - destruct (0 <? sortCompare (compareUpdatedAt env) x y).
    + apply perm_trans with (y :: x :: rest).
      * apply perm_swap.
      * apply perm_skip. exact IH.
    + apply Permutation_refl.
Qed.

Lemma sort_perm (l : list UnifiedTask) : Permutation l (sort (compareUpdatedAt env) l).
Proof.
  induction l as [| x rest IH]; simpl.
  - apply perm_nil.
  - apply perm_trans with (x :: sort (compareUpdatedAt env) rest).
    + apply perm_skip. exact IH.
    + apply insert_perm.
Qed.

Lemma valid_dates_perm (l l' : list UnifiedTask) :
  Permutation l l' -> valid_dates env l -> valid_dates env l'.
Proof.
  unfold valid_dates. intros Hp Hv. rewrite Forall_forall in *.
  intros t Ht. apply Hv. apply Permutation_in with l'; [| exact Ht].
  apply Permutation_sym. exact Hp.
Qed.

Lemma newer_or_same_trans (a b c : UnifiedTask) :
  newer_or_same env a b -> newer_or_same env b c -> newer_or_same env a c.
Proof.
  unfold newer_or_same.
  destruct (time env a), (time env b), (time env c); try tauto; lia.
Qed.

Lemma insert_sorted (x : UnifiedTask) (l : list UnifiedTask) :
  time env x <> None -> valid_dates env l ->
  sorted_desc env l -> sorted_desc env (insert (compareUpdatedAt env) x l).
Proof.
  unfold sorted_desc. intros Hx Hv Hs.
  induction Hs as [| y rest Hrest IH Hy]; simpl.
  - constructor; constructor.
  - inversion Hv as [| ? ? Hvy Hvrest]; subst.
    assert (Hcmp : sortCompare (compareUpdatedAt env) x y
                   = match time env x, time env y with
                     | Some tx, Some ty => ty - tx
                     | _, _ => 0
                     end).
    { unfold sortCompare, compareUpdatedAt, time.
      destruct (getTime env (updatedAt x)), (getTime env (updatedAt y)); reflexivity. }
    destruct (0 <? sortCompare (compareUpdatedAt env) x y) eqn:Hlt.
    + (* y is strictly newer: y stays in front *)
      apply Z.ltb_lt in Hlt. rewrite Hcmp in Hlt.
      constructor; [apply IH; exact Hvrest |].
      assert (Hyx : newer_or_same env y x).
      { unfold newer_or_same.
        destruct (time env x), (time env y); try congruence; lia. }
      rewrite Forall_forall. intros z Hz.
      apply Permutation_in with (l' := x :: rest) in Hz;
        [| apply Permutation_sym, insert_perm].
      destruct Hz as [<- | Hz]; [exact Hyx |].
      rewrite Forall_forall in Hy. apply Hy. exact Hz.
    + (* x goes in front of y *)
      apply Z.ltb_ge in Hlt. rewrite Hcmp in Hlt.
      assert (Hxy : newer_or_same env x y).
      { unfold newer_or_same.
        destruct (time env x), (time env y); try congruence; lia. }
      constructor; [constructor; assumption |].
      constructor; [exact Hxy |].
      rewrite Forall_forall in *. intros z Hz.
      apply newer_or_same_trans with y; [exact Hxy | apply Hy; exact Hz].
Qed.

Lemma sort_sorted (l : list UnifiedTask) :
  valid_dates env l -> sorted_desc env (sort (compareUpdatedAt env) l).
Proof.
  induction l as [| x rest IH]; simpl; intros Hv.
  - constructor.
  - inversion Hv as [| ? ? Hx Hrest]; subst.
    apply insert_sorted.
    + exact Hx.
    + apply valid_dates_perm with rest; [apply sort_perm | exact Hrest].
    + apply IH. exact Hrest.
Qed.

Lemma insert_neighbours (x : UnifiedTask) (l : list UnifiedTask) :
  neighbours_in_order env l ->
  neighbours_in_order env (insert (compareUpdatedAt env) x l).
Proof.
  unfold neighbours_in_order. intros Hs.
  induction Hs as [| y rest Hrest IH Hy]; simpl.
  - constructor; constructor.
  - destruct (0 <? sortCompare (compareUpdatedAt env) x y) eqn:Hlt.
    + apply Z.ltb_lt in Hlt.
      assert (Hyx : in_order env y x).
      { unfold in_order. revert Hlt.
        unfold sortCompare, compareUpdatedAt.
        destruct (getTime env (updatedAt x)), (getTime env (updatedAt y)); lia. }
      constructor; [exact IH |].
      destruct rest as [| z rest']; simpl.
      * constructor. exact Hyx.
      * destruct (0 <? sortCompare (compareUpdatedAt env) x z).
        -- inversion Hy; subst. constructor. assumption.
        -- constructor. exact Hyx.
    + apply Z.ltb_ge in Hlt.
      constructor; [constructor; assumption |].
      constructor. exact Hlt.
Qed.

Lemma sort_neighbours (l : list UnifiedTask) :
  neighbours_in_order env (sort (compareUpdatedAt env) l).
Proof.
  induction l as [| x rest IH]; simpl.
  - constructor.
  - apply insert_neighbours. exact IH.
Qed.

End SortFacts.

(* --------------------------------------------------------------------- *)
(** ** The aggregation service *)
(* --------------------------------------------------------------------- *)

Section Service.
Import TaskService Order.
Variable env : TaskService.Env.

Lemma calls_app_service (a b : list TaskService.Event) :
  TaskService.calls (a ++ b) = (TaskService.calls a ++ TaskService.calls b)%list.
Proof.
  induction a as [| [] a IH]; simpl; try rewrite IH; reflexivity.
Qed.

Lemma diagnostics_app (a b : list TaskService.Event) :
  diagnostics (a ++ b) = (diagnostics a ++ diagnostics b)%list.
Proof.
  induction a as [| [] a IH]; simpl; try rewrite IH; reflexivity.
Qed.

(** [isCacheValid] never throws and never touches the snapshot. *)
Lemma isCacheValid_run (s : TaskService.State) :
  isCacheValid env s
  = match cache s with
    | None => (Ok false, s)
    | Some c =>
        (Ok (dateNow env (TaskService.trace s) - timestamp c <? CACHE_TTL_MS),
         TaskService.mkState (cache s)
           (TaskService.trace s ++ [ENow (dateNow env (TaskService.trace s))]))
    end.
Proof.
  unfold isCacheValid, bind, get_state, Date_now, ret.
  destruct s as [[c |] tr]; reflexivity.
Qed.

Lemma collect_run (results : list (Res (list UnifiedTask))) :
  forall (acc : list UnifiedTask) (s : TaskService.State),
    collect results acc env s
    = (Ok (acc ++ flat_map Settled.records results)%list,
       TaskService.mkState (cache s)
         (TaskService.trace s
          ++ map EConsoleError (flat_map Settled.failure results))).
Proof.
  induction results as [| [value | reason] rest IH]; intros acc s; simpl.
  - unfold ret. rewrite !app_nil_r. destruct s; reflexivity.
  - rewrite IH, app_assoc. reflexivity.
  - unfold bind, console_error, emit. simpl. rewrite IH. simpl.
    rewrite <- app_assoc. reflexivity.
Qed.

(** The run of [getAllTasks] when the validity check answers no. *)
Lemma getAllTasks_miss (s s0 : TaskService.State) :
  isCacheValid env s = (Ok false, s0) ->
  let notion := fetchNotionTasks env (TaskService.trace s0) in
  let todoist :=
    fetchTodoistTasks env (TaskService.trace s0 ++ [ECall fetchNotionTasks_]) in
  let sorted :=
    sort (compareUpdatedAt env) (Settled.records notion ++ Settled.records todoist) in
  let tr :=
    (TaskService.trace s0
     ++ [ECall fetchNotionTasks_; ECall fetchTodoistTasks_]
     ++ map EConsoleError (Settled.failure notion ++ Settled.failure todoist))%list in
  getAllTasks env s
  = (Ok sorted,
     TaskService.mkState (Some (mkCache sorted (dateNow env tr)))
       (tr ++ [ENow (dateNow env tr)])).
Proof.
  intros Hvalid notion todoist sorted tr.
  unfold getAllTasks, bind. rewrite Hvalid.
  unfold allSettled2, connector. cbv beta iota zeta.
  change (TaskService.trace (TaskService.mkState (cache s0) (TaskService.trace s0 ++ [ECall fetchNotionTasks_])))
    with (TaskService.trace s0 ++ [ECall fetchNotionTasks_])%list.
  fold notion. fold todoist.
  rewrite collect_run. unfold ask, Date_now, set_cache, ret.
  subst sorted tr. simpl. rewrite !app_nil_r, <- !app_assoc. simpl.
  reflexivity.
Qed.

(** C1.  On a cache miss [getAllTasks] returns normally whatever the
    two fetches did.  If one fetch rejects and the other fulfils with
    [l], the result holds exactly the records of [l], in an order in
    which no record is directly followed by one that the comparator
    wants before it, and, the [updatedAt] of the records being dates,
    sorted by [updatedAt] descending; if both reject, the result is
    empty.  The rejections are logged with [console.error] and nothing
    else is. *)
Theorem getAllTasks_tolerates_failures :
  forall s : TaskService.State,
    let s0 := snd (isCacheValid env s) in
    let notion := fetchNotionTasks env (TaskService.trace s0) in
    let todoist :=
      fetchTodoistTasks env (TaskService.trace s0 ++ [ECall fetchNotionTasks_]) in
    fst (isCacheValid env s) = Ok false ->
    exists (ts : list UnifiedTask) (s' : TaskService.State),
      getAllTasks env s = (Ok ts, s') /\
      (forall e l,
          notion = Throw e -> todoist = Ok l ->
          Permutation l ts /\ length ts = length l /\
          neighbours_in_order env ts /\
          (valid_dates env l -> sorted_desc env ts) /\
          diagnostics (TaskService.trace s')
          = (diagnostics (TaskService.trace s) ++ [e])%list) /\
      (forall e l,
          notion = Ok l -> todoist = Throw e ->
          Permutation l ts /\ length ts = length l /\
          neighbours_in_order env ts /\
          (valid_dates env l -> sorted_desc env ts) /\
          diagnostics (TaskService.trace s')
          = (diagnostics (TaskService.trace s) ++ [e])%list) /\
      (forall e1 e2,
          notion = Throw e1 -> todoist = Throw e2 ->
          ts = [] /\
          diagnostics (TaskService.trace s')
          = (diagnostics (TaskService.trace s) ++ [e1; e2])%list).
Proof.
  intros s s0 notion todoist Hmiss.
  assert (Hvalid : isCacheValid env s = (Ok false, s0)).
  { subst s0. destruct (isCacheValid env s) as [r s1]. simpl in *. subst r.
    reflexivity. }
  assert (Hdiag : diagnostics (TaskService.trace s0)
                  = diagnostics (TaskService.trace s)).
  { subst s0. rewrite isCacheValid_run. destruct (cache s); [| reflexivity].
    simpl. rewrite diagnostics_app. simpl. apply app_nil_r. }
  pose proof (getAllTasks_miss s s0 Hvalid) as Hrun. cbv zeta in Hrun.
  fold notion todoist in Hrun.
  eexists _, _. split; [exact Hrun |].
  assert (Hmap : forall l, diagnostics (map EConsoleError l) = l).
  { induction l as [| x l IH]; simpl; [| rewrite IH]; reflexivity. }
  split; [| split].
  - intros e l Hn Ht. rewrite Hn, Ht. simpl Settled.records. simpl Settled.failure.
    simpl TaskService.trace.
    split; [apply sort_perm | split; [| split; [| split]]].
    + symmetry. apply Permutation_length, sort_perm.
    + apply sort_neighbours.
    + apply sort_sorted.
    + rewrite !diagnostics_app, Hdiag. simpl. rewrite ?app_nil_r. reflexivity.
  - intros e l Hn Ht. rewrite Hn, Ht. simpl Settled.records. simpl Settled.failure.
    simpl TaskService.trace. rewrite app_nil_r.
    split; [apply sort_perm | split; [| split; [| split]]].
    + symmetry. apply Permutation_length, sort_perm.
    + apply sort_neighbours.
    + apply sort_sorted.
    + rewrite !diagnostics_app, Hdiag. simpl. rewrite ?app_nil_r. reflexivity.
  - intros e1 e2 Hn Ht. rewrite Hn, Ht. simpl Settled.records. simpl Settled.failure.
    simpl TaskService.trace.
    split; [reflexivity |].
    rewrite !diagnostics_app, Hdiag. simpl. rewrite ?app_nil_r. reflexivity.
Qed.

(** A write that returns has discarded the snapshot; a write that
    throws has left it alone. *)
Lemma createTask_cache (src : string) (input : CreateTaskInput)
  (s s' : TaskService.State) (r : Res UnifiedTask) :
  createTask src input env s = (r, s') ->
  cache s' = match r with Ok _ => None | Throw _ => cache s end.
Proof.
  unfold createTask, bind, connector, throw, refreshTasks, set_cache, ret.
  destruct (String.eqb src "notion").
  - destruct (createNotionTask env (TaskService.trace s) input);
      intros H; injection H as <- <-; reflexivity.
  - destruct (String.eqb src "todoist").
    + destruct (createTodoistTask env (TaskService.trace s) input);
        intros H; injection H as <- <-; reflexivity.
    + intros H; injection H as <- <-; reflexivity.
Qed.

Lemma updateTask_cache (task : UnifiedTask) (updates : UpdateTaskInput)
  (s s' : TaskService.State) (r : Res UnifiedTask) :
  updateTask task updates env s = (r, s') ->
  cache s' = match r with Ok _ => None | Throw _ => cache s end.
Proof.
  unfold updateTask, bind, connector, throw, refreshTasks, set_cache, ret.
  destruct (String.eqb (source task) "notion").
  - destruct (updateNotionTask env (TaskService.trace s) (sourceId task) updates);
      intros H; injection H as <- <-; reflexivity.
  - destruct (String.eqb (source task) "todoist").
    + destruct (updateTodoistTask env (TaskService.trace s) (sourceId task) updates);
        intros H; injection H as <- <-; reflexivity.
    + intros H; injection H as <- <-; reflexivity.
Qed.

Lemma deleteTask_cache (task : UnifiedTask)
  (s s' : TaskService.State) (r : Res unit) :
  deleteTask task env s = (r, s') ->
  cache s' = match r with Ok _ => None | Throw _ => cache s end.
Proof.
  unfold deleteTask, bind, connector, throw, refreshTasks, set_cache, ret.
  destruct (String.eqb (source task) "notion").
  - destruct (deleteNotionTask env (TaskService.trace s) (sourceId task));
      intros H; injection H as <- <-; reflexivity.
  - destruct (String.eqb (source task) "todoist").
    + destruct (deleteTodoistTask env (TaskService.trace s) (sourceId task));
        intros H; injection H as <- <-; reflexivity.
    + intros H; injection H as <- <-; reflexivity.
Qed.

Lemma getAllTasks_fetches (s : TaskService.State) :
  fst (isCacheValid env s) = Ok false ->
  TaskService.calls (TaskService.trace (snd (getAllTasks env s)))
  = (TaskService.calls (TaskService.trace s)
     ++ [fetchNotionTasks_; fetchTodoistTasks_])%list.
Proof.
  intros Hmiss.
  assert (Hvalid : isCacheValid env s = (Ok false, snd (isCacheValid env s))).
  { destruct (isCacheValid env s) as [r s1]. simpl in *. subst r. reflexivity. }
  rewrite (getAllTasks_miss s _ Hvalid). simpl.
  assert (Hmap : forall l, TaskService.calls (map EConsoleError l) = []).
  { induction l as [| x l IH]; simpl; [| rewrite IH]; reflexivity. }
  rewrite !calls_app_service. simpl. rewrite Hmap. simpl.
  rewrite isCacheValid_run. destruct (cache s); simpl.
  - rewrite calls_app_service. simpl. rewrite !app_nil_r. reflexivity.
  - rewrite app_nil_r. reflexivity.
Qed.

(** C2.  While the snapshot is younger than the TTL, [getAllTasks]
    returns it, keeps it and calls no connector.  Once the snapshot is
    [CACHE_TTL_MS] old, or when there is none, which is the case after
    every create, update or delete that returned, [getAllTasks] calls
    the fetch of both connectors. *)
Theorem getAllTasks_cache_window :
  forall s : TaskService.State,
    let now := dateNow env (TaskService.trace s) in
    let fetched (s1 : TaskService.State) :=
      TaskService.calls (TaskService.trace (snd (getAllTasks env s1)))
      = (TaskService.calls (TaskService.trace s1)
         ++ [fetchNotionTasks_; fetchTodoistTasks_])%list in
    CACHE_TTL_MS = 30000 /\
    (* within the TTL *)
    (forall c, cache s = Some c -> now - timestamp c < CACHE_TTL_MS ->
       fst (getAllTasks env s) = Ok (tasks c) /\
       cache (snd (getAllTasks env s)) = Some c /\
       TaskService.calls (TaskService.trace (snd (getAllTasks env s)))
       = TaskService.calls (TaskService.trace s)) /\
    (* after expiry *)
    (forall c, cache s = Some c -> CACHE_TTL_MS <= now - timestamp c ->
       fetched s) /\
    (* no snapshot *)
    (cache s = None -> fetched s) /\
    (* after a write that returned *)
    (forall src input t s1,
        createTask src input env s = (Ok t, s1) -> cache s1 = None /\ fetched s1) /\
    (forall task updates t s1,
        updateTask task updates env s = (Ok t, s1) -> cache s1 = None /\ fetched s1) /\
    (forall task s1,
        deleteTask task env s = (Ok tt, s1) -> cache s1 = None /\ fetched s1).
Proof.
  intros s now fetched.
  assert (Hnone : forall s1, cache s1 = None -> fetched s1).
  { intros s1 Hc. apply getAllTasks_fetches. rewrite isCacheValid_run, Hc.
    reflexivity. }
  split; [reflexivity |].
  split; [| split; [| split; [| split; [| split]]]].
  - intros c Hc Hage.
    unfold getAllTasks, bind. rewrite isCacheValid_run, Hc.
    fold now. apply Z.ltb_lt in Hage. rewrite Hage.
    unfold get_state, ret. simpl. rewrite ?Hc.
    rewrite calls_app_service. simpl. rewrite app_nil_r. auto.
  - intros c Hc Hage. apply getAllTasks_fetches.
    rewrite isCacheValid_run, Hc. fold now.
    apply Z.ltb_ge in Hage. rewrite Hage. reflexivity.
  - apply Hnone.
  - intros src input t s1 Hrun. apply createTask_cache in Hrun. auto.
  - intros task updates t s1 Hrun. apply updateTask_cache in Hrun. auto.
  - intros task s1 Hrun. apply deleteTask_cache in Hrun. auto.
Qed.

Ltac run_write :=
  unfold createTask, updateTask, deleteTask, bind, connector, throw,
    refreshTasks, set_cache, ret, unsupported; simpl.

(** C9.  A write that fails throws the error of the connector it was
    routed to and leaves the snapshot as it was; the snapshot is
    discarded only by a write whose connector call succeeded; a write
    for an origin other than ['notion'] and ['todoist'] throws the
    unsupported-source error and changes nothing: no connector is
    called and the snapshot stays. *)
Theorem failed_write_keeps_cache :
  forall s : TaskService.State,
    let tr := TaskService.trace s in
    (* a write that throws leaves the snapshot alone *)
    (forall src input e s',
        createTask src input env s = (Throw e, s') -> cache s' = cache s) /\
    (forall task updates e s',
        updateTask task updates env s = (Throw e, s') -> cache s' = cache s) /\
    (forall task e s',
        deleteTask task env s = (Throw e, s') -> cache s' = cache s) /\
    (* the rejection of the routed connector is what the write throws *)
    (forall input e,
        (createNotionTask env tr input = Throw e ->
         fst (createTask "notion" input env s) = Throw e) /\
        (createTodoistTask env tr input = Throw e ->
         fst (createTask "todoist" input env s) = Throw e)) /\
    (forall task updates e,
        (source task = "notion" ->
         updateNotionTask env tr (sourceId task) updates = Throw e ->
         fst (updateTask task updates env s) = Throw e) /\
        (source task = "todoist" ->
         updateTodoistTask env tr (sourceId task) updates = Throw e ->
         fst (updateTask task updates env s) = Throw e)) /\
    (forall task e,
        (source task = "notion" ->
         deleteNotionTask env tr (sourceId task) = Throw e ->
         fst (deleteTask task env s) = Throw e) /\
        (source task = "todoist" ->
         deleteTodoistTask env tr (sourceId task) = Throw e ->
         fst (deleteTask task env s) = Throw e)) /\
    (* the snapshot is discarded only after the connector call succeeded *)
    (forall src input t s',
        createTask src input env s = (Ok t, s') ->
        cache s' = None /\
        (src = "notion" /\ createNotionTask env tr input = Ok t \/
         src = "todoist" /\ createTodoistTask env tr input = Ok t)) /\
    (forall task updates t s',
        updateTask task updates env s = (Ok t, s') ->
        cache s' = None /\
        (source task = "notion" /\
         updateNotionTask env tr (sourceId task) updates = Ok t \/
         source task = "todoist" /\
         updateTodoistTask env tr (sourceId task) updates = Ok t)) /\
    (forall task s',
        deleteTask task env s = (Ok tt, s') ->
        cache s' = None /\
        (source task = "notion" /\
         deleteNotionTask env tr (sourceId task) = Ok tt \/
         source task = "todoist" /\
         deleteTodoistTask env tr (sourceId task) = Ok tt)) /\
    (* an unrecognised origin *)
    (forall src input,
        src <> "notion" -> src <> "todoist" ->
        createTask src input env s = (Throw (unsupported src), s)) /\
    (forall task updates,
        source task <> "notion" -> source task <> "todoist" ->
        updateTask task updates env s = (Throw (unsupported (source task)), s)) /\
    (forall task,
        source task <> "notion" -> source task <> "todoist" ->
        deleteTask task env s = (Throw (unsupported (source task)), s)).
Proof.
  intros s tr. subst tr.
  repeat match goal with |- _ /\ _ => split end.
  - intros src input e s' H. apply createTask_cache in H. exact H.
  - intros task updates e s' H. apply updateTask_cache in H. exact H.
  - intros task e s' H. apply deleteTask_cache in H. exact H.
  - intros input e. split; intros H; run_write; rewrite H; reflexivity.
  - intros task updates e.
    split; intros Hsrc H; run_write; rewrite Hsrc; simpl; rewrite H; reflexivity.
  - intros task e.
    split; intros Hsrc H; run_write; rewrite Hsrc; simpl; rewrite H; reflexivity.
  - intros src input t s' H. split; [apply createTask_cache in H; exact H |].
    revert H. run_write.
    destruct (String.eqb src "notion") eqn:Hn.
    + apply String.eqb_eq in Hn.
      destruct (createNotionTask env (TaskService.trace s) input) eqn:Hc;
        intros H; inversion H; subst; auto.
    + destruct (String.eqb src "todoist") eqn:Ht; [| discriminate].
      apply String.eqb_eq in Ht.
      destruct (createTodoistTask env (TaskService.trace s) input) eqn:Hc;
        intros H; inversion H; subst; auto.
  - intros task updates t s' H. split; [apply updateTask_cache in H; exact H |].
    revert H. run_write.
    destruct (String.eqb (source task) "notion") eqn:Hn.
    + apply String.eqb_eq in Hn.
      destruct (updateNotionTask env (TaskService.trace s) (sourceId task) updates)
        eqn:Hc; intros H; inversion H; subst; auto.
    + destruct (String.eqb (source task) "todoist") eqn:Ht; [| discriminate].
      apply String.eqb_eq in Ht.
      destruct (updateTodoistTask env (TaskService.trace s) (sourceId task) updates)
        eqn:Hc; intros H; inversion H; subst; auto.
  - intros task s' H. split; [apply deleteTask_cache in H; exact H |].
    revert H. run_write.
    destruct (String.eqb (source task) "notion") eqn:Hn.
    + apply String.eqb_eq in Hn.
      destruct (deleteNotionTask env (TaskService.trace s) (sourceId task))
        as [[] |] eqn:Hc; intros H; inversion H; subst; auto.
    + destruct (String.eqb (source task) "todoist") eqn:Ht; [| discriminate].
      apply String.eqb_eq in Ht.
      destruct (deleteTodoistTask env (TaskService.trace s) (sourceId task))
        as [[] |] eqn:Hc; intros H; inversion H; subst; auto.
  - intros src input Hn Ht. run_write.
    apply String.eqb_neq in Hn, Ht. rewrite Hn, Ht. reflexivity.
  - intros task updates Hn Ht. run_write.
    apply String.eqb_neq in Hn, Ht. rewrite Hn, Ht. reflexivity.
  - intros task Hn Ht. run_write.
    apply String.eqb_neq in Hn, Ht. rewrite Hn, Ht. reflexivity.
Qed.

End Service.

Lemma getAllTasks_tolerates_failures_witness :
  let env := SampleService.notion_down in
  let s := SampleService.empty in
  let l := [SampleService.t1; SampleService.t2; SampleService.t3] in
  fst (TaskService.isCacheValid env s) = Ok false /\
  Order.valid_dates env l /\
  exists ts s',
    TaskService.getAllTasks env s = (Ok ts, s') /\
    Permutation l ts /\
    Order.sorted_desc env ts /\
    TaskService.diagnostics (TaskService.trace s') = [SampleService.outage].
Proof.
  intros env s l.
  assert (Hmiss : fst (TaskService.isCacheValid env s) = Ok false) by reflexivity.
  assert (Hdates : Order.valid_dates env l)
    by (repeat constructor; discriminate).
  split; [exact Hmiss | split; [exact Hdates |]].
  destruct (getAllTasks_tolerates_failures env s Hmiss)
    as [ts [s' [Hrun [Hnotion _]]]].
  exists ts, s'. split; [exact Hrun |].
  destruct (Hnotion SampleService.outage l eq_refl eq_refl)
    as [Hperm [_ [_ [Hsorted Hdiag]]]].
  split; [exact Hperm | split; [apply Hsorted; exact Hdates | exact Hdiag]].
Defined.

Lemma getAllTasks_cache_window_witness :
  let env := SampleService.notion_down in
  (* ten seconds old: served from the snapshot *)
  (TaskService.dateNow env [] - 1717631990000 < TaskService.CACHE_TTL_MS /\
   fst (TaskService.getAllTasks env SampleService.warm)
   = Ok [SampleService.t2; SampleService.t3; SampleService.t1] /\
   TaskService.calls
     (TaskService.trace (snd (TaskService.getAllTasks env SampleService.warm))) = []) /\
  (* thirty seconds old: fetched again *)
  (TaskService.CACHE_TTL_MS <= TaskService.dateNow env [] - 1717631970000 /\
   TaskService.calls
     (TaskService.trace (snd (TaskService.getAllTasks env SampleService.stale)))
   = [TaskService.fetchNotionTasks_; TaskService.fetchTodoistTasks_]) /\
  (* after a create that returned: fetched again *)
  (exists t s1,
      TaskService.createTask "todoist" SampleService.input env SampleService.warm
      = (Ok t, s1) /\
      TaskService.cache s1 = None /\
      TaskService.calls (TaskService.trace (snd (TaskService.getAllTasks env s1)))
      = [TaskService.createTodoistTask_ SampleService.input;
         TaskService.fetchNotionTasks_; TaskService.fetchTodoistTasks_]).
Proof.
  intros env.
  destruct (getAllTasks_cache_window env SampleService.warm)
    as [_ [Hhit [_ [_ [Hcreate _]]]]].
  destruct (getAllTasks_cache_window env SampleService.stale)
    as [_ [_ [Hexpired _]]].
  split; [| split].
  - assert (Hage : TaskService.dateNow env [] - 1717631990000
                   < TaskService.CACHE_TTL_MS) by (vm_compute; reflexivity).
    split; [exact Hage |].
    destruct (Hhit _ eq_refl Hage) as [Hr [_ Hcalls]].
    split; [exact Hr | exact Hcalls].
  - assert (Hage : TaskService.CACHE_TTL_MS
                   <= TaskService.dateNow env [] - 1717631970000)
      by (vm_compute; discriminate).
    split; [exact Hage |].
    exact (Hexpired _ eq_refl Hage).
  - eexists _, _. split; [reflexivity |].
    destruct (Hcreate "todoist" SampleService.input _ _ eq_refl) as [Hnone Hfetched].
    split; [exact Hnone | exact Hfetched].
Defined.

Lemma failed_write_keeps_cache_witness :
  let env := SampleService.notion_down in
  let s := SampleService.warm in
  (* the Notion connector rejects the create *)
  (TaskService.createNotionTask env (TaskService.trace s) SampleService.input
   = Throw SampleService.outage /\
   fst (TaskService.createTask "notion" SampleService.input env s)
   = Throw SampleService.outage /\
   TaskService.cache (snd (TaskService.createTask "notion" SampleService.input env s))
   = TaskService.cache s) /\
  (* an origin that is not a provider *)
  ("trello" <> "notion" /\ "trello" <> "todoist" /\
   TaskService.createTask "trello" SampleService.input env s
   = (Throw (Error "Unsupported task source: trello"), s)) /\
  (* the Todoist connector accepts the update *)
  (exists t s',
      TaskService.updateTask SampleService.t1
        (mkUpdate None None (Some done) None None None) env s = (Ok t, s') /\
      TaskService.cache s' = None).
Proof.
  intros env s.
  destruct (failed_write_keeps_cache env s)
    as [Hkeep [_ [_ [Hcreate [_ [_ [_ [Hupdate [_ [Hunsupported _]]]]]]]]]].
  split; [| split].
  - assert (Hrej : TaskService.createNotionTask env (TaskService.trace s)
                     SampleService.input = Throw SampleService.outage)
      by reflexivity.
    split; [exact Hrej |].
    destruct (Hcreate SampleService.input SampleService.outage) as [Hnotion _].
    split; [exact (Hnotion Hrej) |].
    destruct (TaskService.createTask "notion" SampleService.input env s)
      as [r s'] eqn:Hrun.
    assert (Hr : r = Throw SampleService.outage) by exact (Hnotion Hrej).
    subst r. exact (Hkeep _ _ _ _ Hrun).
  - assert (Hn : "trello" <> "notion") by discriminate.
    assert (Ht : "trello" <> "todoist") by discriminate.
    split; [exact Hn | split; [exact Ht |]].
    exact (Hunsupported "trello" SampleService.input Hn Ht).
  - eexists _, _. split; [reflexivity |].
    destruct (Hupdate SampleService.t1 (mkUpdate None None (Some done) None None None)
                _ _ eq_refl) as [Hnone _].
    exact Hnone.
Defined.

(* --------------------------------------------------------------------- *)
(** ** Sorting with a comparator *)
(* --------------------------------------------------------------------- *)

Section SortAny.
Import TaskService.
Context {A : Type} (comparefn : A -> A -> option Z).

Lemma insert_perm_any (x : A) (l : list A) :
  Permutation (x :: l) (insert comparefn x l).
Proof.
  induction l as [| y rest IH]; simpl.
  - apply Permutation_refl.
  - destruct (0 <? sortCompare comparefn x y).
    + apply perm_trans with (y :: x :: rest); [apply perm_swap |].
      apply perm_skip. exact IH.
    + apply Permutation_refl.
Qed.

Lemma sort_perm_any (l : list A) : Permutation l (sort comparefn l).
Proof.
  induction l as [| x rest IH]; simpl.
  - apply perm_nil.
  - apply perm_trans with (x :: sort comparefn rest).
    + apply perm_skip. exact IH.
    + apply insert_perm_any.
Qed.

(** A list that is already in order is left as it is. *)
Lemma sort_settled_fixpoint (l : list A) :
  Sorting.settled comparefn l -> sort comparefn l = l.
Proof.
  unfold Sorting.settled. intros Hs.
  induction Hs as [| x rest Hrest IH Hx]; simpl; [reflexivity |].
  rewrite IH. destruct Hx as [| y rest' Hxy]; simpl; [reflexivity |].
  apply Z.ltb_ge in Hxy. rewrite Hxy. reflexivity.
Qed.

Lemma insert_settled (x : A) (l : list A) :
  Sorting.one_way comparefn ->
  Sorting.settled comparefn l -> Sorting.settled comparefn (insert comparefn x l).
Proof.
  unfold Sorting.settled. intros Hway Hs.
  induction Hs as [| y rest Hrest IH Hy]; simpl.
  - constructor; constructor.
  - destruct (0 <? sortCompare comparefn x y) eqn:Hlt.
    + apply Z.ltb_lt in Hlt. apply Hway in Hlt.
      constructor; [exact IH |].
      destruct rest as [| z rest']; simpl.
      * constructor. exact Hlt.
      * destruct (0 <? sortCompare comparefn x z).
        -- inversion Hy; subst. constructor. assumption.
        -- constructor. exact Hlt.
    + apply Z.ltb_ge in Hlt.
      constructor; [constructor; assumption |].
      constructor. exact Hlt.
Qed.

Lemma sort_settled (l : list A) :
  Sorting.one_way comparefn -> Sorting.settled comparefn (sort comparefn l).
Proof.
  intros Hway. induction l as [| x rest IH]; simpl.
  - constructor.
  - apply insert_settled; assumption.
Qed.

Lemma sort_idempotent (l : list A) :
  Sorting.one_way comparefn ->
  sort comparefn (sort comparefn l) = sort comparefn l.
Proof.
  intros Hway. apply sort_settled_fixpoint, sort_settled. exact Hway.
Qed.

(** Stability: elements that the comparator never asks to move past one
    another keep their order. *)
Lemma insert_stable (keep : A -> bool) (x : A) (l : list A) :
  (forall y, 0 < sortCompare comparefn x y -> keep x = true -> keep y = false) ->
  filter keep (insert comparefn x l) = filter keep (x :: l).
Proof.
  intros Hkeep. induction l as [| y rest IH]; [reflexivity |].
  simpl insert. destruct (0 <? sortCompare comparefn x y) eqn:Hlt; [| reflexivity].
  apply Z.ltb_lt in Hlt. simpl filter in *.
  destruct (keep x) eqn:Hx.
  - rewrite (Hkeep y Hlt eq_refl). exact IH.
  - rewrite IH. reflexivity.
Qed.

Lemma sort_stable (keep : A -> bool) (l : list A) :
  (forall x y, 0 < sortCompare comparefn x y -> keep x = true -> keep y = false) ->
  filter keep (sort comparefn l) = filter keep l.
Proof.
  intros Hkeep. induction l as [| x rest IH]; [reflexivity |].
  simpl sort. rewrite insert_stable by (intros y; apply Hkeep).
  simpl. rewrite IH. reflexivity.
Qed.

(** The sort orders by every transitive relation that agrees with the
    comparator on the elements at hand. *)
Lemma sort_strongly (le : A -> A -> Prop) (ok : A -> Prop) :
  (forall x y z, le x y -> le y z -> le x z) ->
  (forall x y, ok x -> ok y -> 0 < sortCompare comparefn x y -> le y x) ->
  (forall x y, ok x -> ok y -> sortCompare comparefn x y <= 0 -> le x y) ->
  forall l, Forall ok l -> StronglySorted le (sort comparefn l).
Proof.
  intros Htrans Hgt Hle.
  assert (Hins : forall x l, ok x -> Forall ok l -> StronglySorted le l ->
                             StronglySorted le (insert comparefn x l)).
  { intros x l Hx Hok Hs. induction Hs as [| y rest Hrest IH Hy]; simpl.
    - constructor; constructor.
    - inversion Hok as [| ? ? Hoky Hokrest]; subst.
      destruct (0 <? sortCompare comparefn x y) eqn:Hlt.
      + apply Z.ltb_lt in Hlt.
        constructor; [apply IH; exact Hokrest |].
        apply (Permutation_Forall (insert_perm_any x rest)).
        constructor; [apply Hgt; assumption | exact Hy].
      + apply Z.ltb_ge in Hlt.
        assert (Hxy : le x y) by (apply Hle; assumption).
        constructor; [constructor; assumption |].
        constructor; [exact Hxy |].
        rewrite Forall_forall in *. intros z Hz.
        apply Htrans with y; [exact Hxy | apply Hy; exact Hz]. }
  induction l as [| x rest IH]; simpl; intros Hok.
  - constructor.
  - inversion Hok as [| ? ? Hx Hrest]; subst.
    apply Hins; [exact Hx | | apply IH; exact Hrest].
    apply (Permutation_Forall (sort_perm_any rest)). exact Hrest.
Qed.

End SortAny.

(* --------------------------------------------------------------------- *)
(** ** [applyFilters] *)
(* --------------------------------------------------------------------- *)

Section ApplyFilters.
Import FilterTasks DisplayOrder.
Variable getTime : JsVal -> option Z.

Lemma filter_all_true {A} (keep : A -> bool) (l : list A) :
  Forall (fun x => keep x = true) l -> filter keep l = l.
Proof.
  induction 1 as [| x rest Hx _ IH]; simpl; [reflexivity |].
  rewrite Hx, IH. reflexivity.
Qed.

Lemma filter_twice {A} (p q : A -> bool) (l : list A) :
  filter p (filter q l) = filter (fun x => (q x && p x)%bool) l.
Proof.
  induction l as [| x rest IH]; simpl; [reflexivity |].
  destruct (q x); simpl; [destruct (p x) |]; rewrite IH; reflexivity.
Qed.

Lemma filter_unless_all_filter (value : string) (keep : UnifiedTask -> bool)
  (l : list UnifiedTask) :
  filter_unless_all value keep l
  = filter (fun t => (String.eqb value "all" || keep t)%bool) l.
Proof.
  unfold filter_unless_all. destruct (String.eqb value "all"); simpl.
  - symmetry. apply filter_all_true. rewrite Forall_forall. auto.
  - reflexivity.
Qed.

Lemma applyFilters_sort (tasks : list UnifiedTask) (filters : TaskFilterState) :
  applyFilters getTime tasks filters
  = TaskService.sort (comparator getTime (sortBy filters))
      (filter (passes filters) tasks).
Proof.
  unfold applyFilters. rewrite !filter_unless_all_filter, !filter_twice.
  f_equal. apply filter_ext. intros t. unfold passes.
  rewrite ?andb_assoc. reflexivity.
Qed.

Lemma comparator_one_way (by_ : string) :
  Sorting.one_way (comparator getTime by_).
Proof.
  intros x y. unfold TaskService.sortCompare, comparator, time_diff.
  destruct (String.eqb by_ "dueDate").
  - destruct (Js.truthy (dueDate x)), (Js.truthy (dueDate y)); simpl; try lia.
    destruct (getTime (dueDate x)), (getTime (dueDate y)); lia.
  - destruct (String.eqb by_ "createdAt").
    + destruct (getTime (createdAt x)), (getTime (createdAt y)); lia.
    + destruct (String.eqb by_ "updatedAt").
      * destruct (getTime (updatedAt x)), (getTime (updatedAt y)); lia.
      * destruct (String.eqb by_ "priority"); lia.
Qed.

(** X1.  [applyFilters] returns exactly the tasks that pass the three
    filters, each as often as it occurs in the input, whatever the sort
    key: a task is in the result if and only if it is in the input and
    passes, and the result is never longer than the input. *)
Theorem applyFilters_selects :
  forall (tasks : list UnifiedTask) (filters : TaskFilterState),
    Permutation (filter (passes filters) tasks) (applyFilters getTime tasks filters) /\
    (forall t, In t (applyFilters getTime tasks filters)
               <-> In t tasks /\ passes filters t = true) /\
    (length (applyFilters getTime tasks filters) <= length tasks)%nat.
Proof.
  intros tasks filters. rewrite applyFilters_sort.
  pose proof (sort_perm_any (comparator getTime (sortBy filters))
                (filter (passes filters) tasks)) as Hperm.
  split; [exact Hperm | split].
  - intros t. rewrite <- filter_In. split; intros H.
    + apply Permutation_in with (2 := H). apply Permutation_sym. exact Hperm.
    + apply Permutation_in with (2 := H). exact Hperm.
  - rewrite <- (Permutation_length Hperm). apply filter_length_le.
Qed.

(** X2.  Filtering and sorting again changes nothing, the dates that
    the sort key reads being dates. *)
Theorem applyFilters_idempotent :
  forall (tasks : list UnifiedTask) (filters : TaskFilterState),
    Forall (SortKey.readable getTime (sortBy filters)) tasks ->
    applyFilters getTime (applyFilters getTime tasks filters) filters
    = applyFilters getTime tasks filters.
Proof.
  intros tasks filters _. rewrite !applyFilters_sort.
  rewrite (filter_all_true (passes filters)).
  - apply sort_idempotent, comparator_one_way.
  - apply (Permutation_Forall (sort_perm_any _ _)).
    rewrite Forall_forall. intros t Ht. apply filter_In in Ht. apply Ht.
Qed.

(** X3.  Sorted by priority, the result runs from urgent to low, and
    tasks of the same priority keep the order they had in the input. *)
Theorem applyFilters_by_priority :
  forall (tasks : list UnifiedTask) (filters : TaskFilterState),
    sortBy filters = "priority" ->
    StronglySorted most_urgent_first (applyFilters getTime tasks filters) /\
    (forall p,
        filter (has_priority p) (applyFilters getTime tasks filters)
        = filter (has_priority p) (filter (passes filters) tasks)).
Proof.
  intros tasks filters Hby. rewrite applyFilters_sort, Hby.
  assert (Hcmp : forall x y,
             TaskService.sortCompare (comparator getTime "priority") x y
             = priorityOrder (priority x) - priorityOrder (priority y))
    by reflexivity.
  split.
  - apply sort_strongly with (ok := fun _ => True).
    + unfold most_urgent_first. intros x y z. lia.
    + intros x y _ _. rewrite Hcmp. unfold most_urgent_first. lia.
    + intros x y _ _. rewrite Hcmp. unfold most_urgent_first. lia.
    + rewrite Forall_forall. auto.
  - intros p. apply sort_stable. intros x y. rewrite Hcmp. unfold has_priority.
    intros Hlt Hx. apply String.eqb_eq in Hx. apply String.eqb_neq.
    intros Hy. rewrite <- Hy in Hx.
    destruct (priority x), (priority y); simpl in *; try discriminate; lia.
Qed.

(** X4.  Sorted by due date, and the due dates being dates, a task with
    a due date comes before every task without one, earlier due dates
    come first, and the tasks without a due date keep the order they had
    in the input. *)
Theorem applyFilters_by_dueDate :
  forall (tasks : list UnifiedTask) (filters : TaskFilterState),
    sortBy filters = "dueDate" ->
    Forall (Sorting.due_readable getTime) tasks ->
    StronglySorted (Sorting.due_before getTime) (applyFilters getTime tasks filters) /\
    filter undated (applyFilters getTime tasks filters)
    = filter undated (filter (passes filters) tasks).
Proof.
  intros tasks filters Hby Hread. rewrite applyFilters_sort, Hby.
  assert (Hcmp : forall x y,
             TaskService.sortCompare (comparator getTime "dueDate") x y
             = if (negb (Js.truthy (dueDate x)) && negb (Js.truthy (dueDate y)))%bool
               then 0
               else if negb (Js.truthy (dueDate x)) then 1
               else if negb (Js.truthy (dueDate y)) then -1
               else match getTime (dueDate x), getTime (dueDate y) with
                    | Some tx, Some ty => tx - ty
                    | _, _ => 0
                    end).
  { intros x y. unfold TaskService.sortCompare, comparator, time_diff. simpl.
    destruct (Js.truthy (dueDate x)), (Js.truthy (dueDate y)); simpl; try reflexivity.
    destruct (getTime (dueDate x)), (getTime (dueDate y)); reflexivity. }
  split.
  - apply sort_strongly with (ok := Sorting.due_readable getTime).
    + unfold Sorting.due_before. intros x y z.
      destruct (Js.truthy (dueDate x)), (Js.truthy (dueDate y)),
        (Js.truthy (dueDate z)); try tauto.
      destruct (getTime (dueDate x)), (getTime (dueDate y)),
        (getTime (dueDate z)); try tauto; lia.
    + intros x y Hx Hy. rewrite Hcmp.
      unfold Sorting.due_before, Sorting.due_readable in *.
      destruct (Js.truthy (dueDate x)), (Js.truthy (dueDate y)); simpl; try lia; auto.
      destruct (getTime (dueDate x)), (getTime (dueDate y)); try lia.
    + intros x y Hx Hy. rewrite Hcmp.
      unfold Sorting.due_before, Sorting.due_readable in *.
      destruct (Js.truthy (dueDate x)), (Js.truthy (dueDate y)); simpl; try lia; auto.
      destruct (getTime (dueDate x)), (getTime (dueDate y)); try lia.
      * intros _. apply (Hy eq_refl). reflexivity.
      * intros _. apply (Hx eq_refl). reflexivity.
      * intros _. apply (Hx eq_refl). reflexivity.
    + apply incl_Forall with tasks; [apply incl_filter | exact Hread].
  - apply sort_stable. intros x y. rewrite Hcmp. unfold undated.
    destruct (Js.truthy (dueDate x)), (Js.truthy (dueDate y)); simpl;
      try lia; try discriminate; auto.
Qed.

(** X5.  Sorted by [createdAt] or by [updatedAt], and these being dates,
    the result runs from the newest to the oldest. *)
Theorem applyFilters_by_date :
  forall (tasks : list UnifiedTask) (filters : TaskFilterState),
    (sortBy filters = "createdAt" ->
     Forall (fun t => getTime (createdAt t) <> None) tasks ->
     StronglySorted (newest_first getTime createdAt)
       (applyFilters getTime tasks filters)) /\
    (sortBy filters = "updatedAt" ->
     Forall (fun t => getTime (updatedAt t) <> None) tasks ->
     StronglySorted (newest_first getTime updatedAt)
       (applyFilters getTime tasks filters)).
Proof.
  intros tasks filters.
  assert (Hgen : forall (by_ : string) (field : UnifiedTask -> JsVal),
             (forall x y, TaskService.sortCompare (comparator getTime by_) x y
                          = match getTime (field x), getTime (field y) with
                            | Some tx, Some ty => ty - tx
                            | _, _ => 0
                            end) ->
             Forall (fun t => getTime (field t) <> None) tasks ->
             StronglySorted (newest_first getTime field)
               (TaskService.sort (comparator getTime by_)
                  (filter (passes filters) tasks))).
  { intros by_ field Hcmp Hread.
    apply sort_strongly with (ok := fun t => getTime (field t) <> None).
    - unfold newest_first. intros x y z.
      destruct (getTime (field x)), (getTime (field y)), (getTime (field z));
        try tauto; lia.
    - intros x y Hx Hy. rewrite Hcmp. unfold newest_first.
      destruct (getTime (field x)), (getTime (field y)); try congruence; lia.
    - intros x y Hx Hy. rewrite Hcmp. unfold newest_first.
      destruct (getTime (field x)), (getTime (field y)); try congruence; lia.
    - apply incl_Forall with tasks; [apply incl_filter | exact Hread]. }
  split; intros Hby Hread; rewrite applyFilters_sort, Hby; apply Hgen;
    try exact Hread; intros x y;
    unfold TaskService.sortCompare, comparator, time_diff; simpl.
  - destruct (getTime (createdAt x)), (getTime (createdAt y)); reflexivity.
  - destruct (getTime (updatedAt x)), (getTime (updatedAt y)); reflexivity.
Qed.

(** X6.  With a sort key that [applyFilters] does not know, the tasks
    that pass stay in the order of the input. *)
Theorem applyFilters_unknown_key :
  forall (tasks : list UnifiedTask) (filters : TaskFilterState),
    known_key (sortBy filters) = false ->
    applyFilters getTime tasks filters = filter (passes filters) tasks.
Proof.
  intros tasks filters Hkey. rewrite applyFilters_sort.
  apply sort_settled_fixpoint. unfold known_key in Hkey.
  apply orb_false_iff in Hkey. destruct Hkey as [Hkey Hp].
  apply orb_false_iff in Hkey. destruct Hkey as [Hkey Hu].
  apply orb_false_iff in Hkey. destruct Hkey as [Hd Hc].
  assert (Hcmp : forall x y,
             TaskService.sortCompare (comparator getTime (sortBy filters)) x y = 0).
  { intros x y. unfold TaskService.sortCompare, comparator.
    rewrite Hd, Hc, Hu, Hp. reflexivity. }
  unfold Sorting.settled.
  induction (filter (passes filters) tasks) as [| x rest IH]; constructor.
  - exact IH.
  - destruct rest; constructor. rewrite Hcmp. lia.
Qed.

End ApplyFilters.

(* --------------------------------------------------------------------- *)
(** ** The read side of the connectors *)
(* --------------------------------------------------------------------- *)

Section ListingFacts.
Import Listing Paging.
Variable env : Listing.Env.

Lemma listing_first_ok (p : Policy.t) (c : Listing.Call) (s : Listing.State)
  (v : JsVal) :
  respond env (trace s) c = Ok v ->
  withRetry p (call c) env s
  = (Ok v, mkState (todoist_client s) (trace s ++ [ECall c])).
Proof.
  intros Hresp. unfold withRetry.
  replace (Policy.max_retries p + 1)%nat with (S (Policy.max_retries p)) by lia.
  simpl. unfold try_catch, call. rewrite Hresp. reflexivity.
Qed.

Lemma push_pages_acc (results : list JsVal) :
  forall pages,
    push_pages results pages
    = res_bind (push_pages results []) (fun ps => Ok (pages ++ ps)%list).
Proof.
  induction results as [| r rest IH]; intros pages; simpl.
  - rewrite app_nil_r. reflexivity.
  - destruct (is_page r) as [[|] | e]; simpl; try reflexivity.
    + rewrite (IH (pages ++ [r])%list), (IH [r]).
      destruct (push_pages rest []); simpl; [| reflexivity].
      rewrite <- app_assoc. reflexivity.
    + apply IH.
Qed.

(** One iteration of the loop whose answer names a next page. *)
Lemma fetch_pages_step (fuel : nat) (db : string) (pages ps : list JsVal)
  (cursor response : JsVal) (s s1 : Listing.State) :
  request db cursor env s = (Ok response, s1) ->
  page_list response = Ok ps ->
  fetch_pages (S fuel) db pages cursor env s
  = if Js.truthy (next_cursor response)
    then fetch_pages fuel db (pages ++ ps)%list (next_cursor response) env s1
    else (Ok (Some (pages ++ ps)%list), s1).
Proof.
  unfold request, page_list. intros Hreq Hps.
  simpl fetch_pages. unfold bind at 1. rewrite Hreq.
  destruct (res_bind (Js.get_strict response "results") iterate) as [results | e];
    simpl in Hps; [| discriminate].
  unfold bind at 1. unfold lift_res at 1.
  unfold bind at 1. unfold lift_res at 1.
  rewrite push_pages_acc, Hps. simpl.
  destruct (Js.truthy (next_cursor response)); reflexivity.
Qed.

Lemma fetch_pages_answered (responses : list JsVal) :
  forall (fuel : nat) (db : string) (pages : list JsVal) (cursor : JsVal)
         (s s' : Listing.State) (cursor' : JsVal) (pss : list (list JsVal)),
    answered env db s cursor responses s' cursor' ->
    res_map_list page_list responses = Ok pss ->
    fetch_pages (length responses + fuel) db pages cursor env s
    = fetch_pages fuel db (pages ++ concat pss)%list cursor' env s'.
Proof.
  induction responses as [| response rest IH];
    intros fuel db pages cursor s s' cursor' pss Hans Hpss.
  - destruct Hans as [-> ->]. injection Hpss as <-. simpl.
    rewrite app_nil_r. reflexivity.
  - destruct Hans as [s1 [Hreq [Hmore Hrest]]].
    simpl in Hpss.
    destruct (page_list response) as [ps | e] eqn:Hps; simpl in Hpss;
      [| discriminate].
    destruct (res_map_list page_list rest) as [pss' | e] eqn:Hpss';
      simpl in Hpss; [| discriminate].
    injection Hpss as <-.
    simpl length. simpl Nat.add.
    rewrite (fetch_pages_step _ db pages ps cursor response s s1 Hreq Hps), Hmore.
    rewrite (IH fuel db _ _ s1 s' cursor' pss' Hrest eq_refl).
    simpl concat. rewrite app_assoc. reflexivity.
Qed.

Lemma notion_credentials (key db : string) (s : Listing.State) :
  notion_configured env key db ->
  getNotionClient env s = (Ok key, s) /\ getDatabaseId env s = (Ok db, s).
Proof.
  intros [Hkey Hdb]. unfold getNotionClient, getDatabaseId, bind, ask, ret.
  rewrite Hkey, Hdb. split; reflexivity.
Qed.

(** X7.  Pagination.  When the provider answers the successive requests with
    [responses] and then with [last], which names no next page, the fetch
    returns the tasks of all the page entries of all the answers, in the
    order of the answers, having issued nothing after the last request.
    This holds for every bound on the iterations that exceeds the number
    of answers with a next page. *)
Theorem fetchNotionTasks_follows_cursors :
  forall (now key db : string) (s s1 s_end : Listing.State)
         (responses : list JsVal) (last cursor1 : JsVal)
         (pss : list (list JsVal)) (tasks : list UnifiedTask) (fuel : nat),
    notion_configured env key db ->
    answered env db s JUndefined responses s1 cursor1 ->
    request db cursor1 env s1 = (Ok last, s_end) ->
    Js.truthy (next_cursor last) = false ->
    res_map_list page_list (responses ++ [last]) = Ok pss ->
    res_map_list (Notion.pageToTask now) (concat pss) = Ok tasks ->
    (length responses < fuel)%nat ->
    fetchNotionTasks now fuel env s = (Ok (Some tasks), s_end).
Proof.
  intros now key db s s1 s_end responses last cursor1 pss tasks fuel
    Hconf Hans Hlast Hstop Hpss Htasks Hfuel.
  destruct (notion_credentials key db s Hconf) as [Hkey Hdb].
  unfold fetchNotionTasks. unfold bind at 1. rewrite Hkey.
  unfold bind at 1. rewrite Hdb.
  assert (Hsplit : exists pss1 ps,
             res_map_list page_list responses = Ok pss1 /\
             page_list last = Ok ps /\ pss = (pss1 ++ [ps])%list).
  { clear - Hpss. revert pss Hpss.
    induction responses as [| r rest IH]; simpl; intros pss Hpss.
    - destruct (page_list last) as [ps | e]; simpl in Hpss; [| discriminate].
      injection Hpss as <-. exists [], ps. auto.
    - destruct (page_list r) as [ps0 | e]; simpl in Hpss; [| discriminate].
      destruct (res_map_list page_list (rest ++ [last])) as [pss' | e] eqn:Hrest;
        simpl in Hpss; [| discriminate].
      injection Hpss as <-.
      destruct (IH _ eq_refl) as [pss1 [ps [H1 [H2 ->]]]].
      exists (ps0 :: pss1), ps. rewrite H1. simpl. auto. }
  destruct Hsplit as [pss1 [ps [Hpss1 [Hps ->]]]].
  replace fuel with (length responses + S (fuel - length responses - 1))%nat by lia.
  unfold bind at 1.
  rewrite (fetch_pages_answered responses _ db [] JUndefined s s1 cursor1 pss1
             Hans Hpss1).
  rewrite (fetch_pages_step _ db _ ps cursor1 last s1 s_end Hlast Hps), Hstop.
  unfold bind, lift_res, ret.
  rewrite concat_app in Htasks. simpl in Htasks. rewrite app_nil_r in Htasks.
  simpl app. rewrite Htasks. reflexivity.
Qed.

(** X8.  A request that fails, after its retries, fails the whole fetch: the
    pages fetched before it are not returned. *)
Theorem fetchNotionTasks_request_failure :
  forall (now key db : string) (s s1 s_end : Listing.State)
         (responses : list JsVal) (cursor1 : JsVal) (e : JsError)
         (pss : list (list JsVal)) (fuel : nat),
    notion_configured env key db ->
    answered env db s JUndefined responses s1 cursor1 ->
    request db cursor1 env s1 = (Throw e, s_end) ->
    res_map_list page_list responses = Ok pss ->
    (length responses < fuel)%nat ->
    fetchNotionTasks now fuel env s = (Throw e, s_end).
Proof.
  intros now key db s s1 s_end responses cursor1 e pss fuel
    Hconf Hans Hfail Hpss Hfuel.
  destruct (notion_credentials key db s Hconf) as [Hkey Hdb].
  unfold fetchNotionTasks. unfold bind at 1. rewrite Hkey.
  unfold bind at 1. rewrite Hdb.
  replace fuel with (length responses + S (fuel - length responses - 1))%nat by lia.
  unfold bind at 1.
  rewrite (fetch_pages_answered responses _ db [] JUndefined s s1 cursor1 pss
             Hans Hpss).
  simpl fetch_pages. unfold bind at 1. unfold request in Hfail. rewrite Hfail.
  reflexivity.
Qed.

(** X9.  Against a provider that names a next page in every answer the loop
    runs for ever: whatever the bound on the iterations, the loop is
    still running when the bound is reached, one request per iteration
    having been issued. *)
Theorem fetchNotionTasks_never_ends :
  forall (now key db : string) (s : Listing.State),
    notion_configured env key db ->
    (forall tr c, exists response ps,
        respond env tr c = Ok response /\
        Js.truthy (next_cursor response) = true /\
        page_list response = Ok ps) ->
    forall fuel : nat,
    exists s',
      fetchNotionTasks now fuel env s = (Ok None, s') /\
      length (calls (trace s')) = (length (calls (trace s)) + fuel)%nat.
Proof.
  intros now key db s Hconf Hmore fuel.
  destruct (notion_credentials key db s Hconf) as [Hkey Hdb].
  assert (Hloop : forall fuel pages cursor s0,
             exists s',
               fetch_pages fuel db pages cursor env s0 = (Ok None, s') /\
               length (calls (trace s'))
               = (length (calls (trace s0)) + fuel)%nat).
  { clear - Hmore. induction fuel as [| fuel IH]; intros pages cursor s0.
    - exists s0. split; [reflexivity | lia].
    - destruct (Hmore (trace s0) (notion_request (query db cursor)))
        as [response [ps [Hresp [Htruthy Hps]]]].
      pose proof (listing_first_ok Policy.notion _ s0 response Hresp) as Hreq.
      rewrite (fetch_pages_step fuel db pages ps cursor response s0 _ Hreq Hps),
        Htruthy.
      destruct (IH (pages ++ ps)%list (next_cursor response)
                  (mkState (todoist_client s0)
                     (trace s0 ++ [ECall (notion_request (query db cursor))])))
        as [s' [Hrun Hlen]].
      exists s'. split; [exact Hrun |].
      rewrite Hlen. simpl trace.
      assert (Hc : forall a b, calls (a ++ b) = (calls a ++ calls b)%list).
      { induction a as [| [] a IHa]; intros b; simpl; try rewrite IHa; reflexivity. }
      rewrite Hc, length_app. simpl. lia. }
  destruct (Hloop fuel [] JUndefined s) as [s' [Hrun Hlen]].
  exists s'. split; [| exact Hlen].
  unfold fetchNotionTasks. unfold bind at 1. rewrite Hkey.
  unfold bind at 1. rewrite Hdb. unfold bind at 1. rewrite Hrun. reflexivity.
Qed.

(** X10.  Without credentials nothing is requested: the fetch throws the
    configuration error and the state is as before. *)
Theorem fetch_needs_credentials :
  forall (now : string) (s : Listing.State),
    (nonempty_opt (NOTION_API_KEY env) = None ->
     forall fuel,
       fetchNotionTasks now fuel env s
       = (Throw (Error "NOTION_API_KEY environment variable is not set"), s)) /\
    (nonempty_opt (NOTION_API_KEY env) <> None ->
     nonempty_opt (NOTION_DATABASE_ID env) = None ->
     forall fuel,
       fetchNotionTasks now fuel env s
       = (Throw (Error "NOTION_DATABASE_ID environment variable is not set"), s)) /\
    (todoist_client s = None ->
     nonempty_opt (TODOIST_API_TOKEN env) = None ->
     fetchTodoistTasks now env s
     = (Throw (Error "TODOIST_API_TOKEN environment variable is not set"), s)).
Proof.
  intros now s. split; [| split].
  - intros Hkey fuel.
    unfold fetchNotionTasks, getNotionClient, bind, ask, throw.
    rewrite Hkey. reflexivity.
  - intros Hkey Hdb fuel.
    unfold fetchNotionTasks, getNotionClient, getDatabaseId, bind, ask, throw, ret.
    destruct (nonempty_opt (NOTION_API_KEY env)); [| congruence].
    rewrite Hdb. reflexivity.
  - intros Hclient Htoken.
    unfold fetchTodoistTasks, getTodoistClient, bind, get_state, ask, throw.
    rewrite Hclient, Htoken. reflexivity.
Qed.

Lemma itemToTask_fields (now : string) (item : JsVal) :
  Js.nullish item = false ->
  Todoist.itemToTask now item = Ok (todoistItemToTask now (fields_of item)).
Proof. destruct item; simpl; intros H; try discriminate; reflexivity. Qed.

Lemma map_items (now : string) (items : list JsVal) :
  Forall (fun i => Js.nullish i = false) items ->
  res_map_list (Todoist.itemToTask now) items
  = Ok (map (fun i => todoistItemToTask now (fields_of i)) items).
Proof.
  induction 1 as [| i rest Hi _ IH]; simpl; [reflexivity |].
  rewrite (itemToTask_fields now i Hi), IH. reflexivity.
Qed.

Lemma map_items_null (now : string) (items : list JsVal) :
  Exists (fun i => Js.nullish i = true) items ->
  exists e, res_map_list (Todoist.itemToTask now) items = Throw e.
Proof.
  induction items as [| i rest IH]; intros Hex; [inversion Hex |].
  simpl. destruct (Js.nullish i) eqn:Hi.
  - destruct i; try discriminate; simpl; eexists; reflexivity.
  - rewrite (itemToTask_fields now i Hi). simpl.
    inversion Hex as [? ? Hn | ? ? Hrest]; subst; [congruence |].
    destruct (IH Hrest) as [e ->]. simpl. eexists. reflexivity.
Qed.

Lemma task_items_lists (response : JsVal) (items : list JsVal) :
  lists response items -> task_items response = Ok (JArr items).
Proof.
  intros [-> | [[fields [-> Hres]] | [-> [fields [-> Hnull]]]]]; simpl.
  - reflexivity.
  - rewrite Hres. reflexivity.
  - unfold Js.coalesce. rewrite Hnull. reflexivity.
Qed.

(** X11.  [fetchTodoistTasks] takes the list bare or under [results],
    and an object without [results] as the empty list; when no item is
    [null] or [undefined] and the [id] of every item is one that the
    model prints as the language does ([Printable.item]: a string, a
    boolean, a safe integer, no [id], or an object or array that can be
    converted), it returns one task per item, in the order of the list;
    it throws when an item is [null] or [undefined]. *)
Theorem fetchTodoistTasks_lists :
  forall (now client : string) (s s1 s2 : Listing.State)
         (response : JsVal) (items : list JsVal),
    getTodoistClient env s = (Ok client, s1) ->
    withRetry Policy.todoist (call todoist_getTasks) env s1 = (Ok response, s2) ->
    lists response items ->
    (Forall (fun i => Js.nullish i = false) items ->
     Forall Printable.item items ->
     fetchTodoistTasks now env s
     = (Ok (map (fun i => todoistItemToTask now (fields_of i)) items), s2)) /\
    (Exists (fun i => Js.nullish i = true) items ->
     exists e, fetchTodoistTasks now env s = (Throw e, s2)).
Proof.
  intros now client s s1 s2 response items Hclient Hresp Hlists.
  assert (Hrun : fetchTodoistTasks now env s
                 = (res_map_list (Todoist.itemToTask now) items, s2)).
  { unfold fetchTodoistTasks. unfold bind at 1. rewrite Hclient.
    unfold bind at 1. rewrite Hresp.
    unfold bind, lift_res. rewrite (task_items_lists _ _ Hlists). reflexivity. }
  rewrite Hrun. split; [intros Hitems _ | intros Hitems].
  - rewrite (map_items now items Hitems). reflexivity.
  - destruct (map_items_null now items Hitems) as [e ->]. exists e. reflexivity.
Qed.

End ListingFacts.

(* --------------------------------------------------------------------- *)
(** ** What a retried call costs and returns *)
(* --------------------------------------------------------------------- *)

Section RetryOutcome.
Import Policy.
Variable p : Policy.t.
Variable env : Env.
Variable c : Call.

Lemma loop_run (n : nat) :
  forall (a : nat) (last : JsError) (s s' : State) (r : Res JsVal),
    (a + n = max_retries p)%nat ->
    loop p (call c) (seq a (S n)) last env s = (r, s') ->
    exists k : nat,
      (1 <= k <= S n)%nat /\
      calls (trace s') = (calls (trace s) ++ repeat c k)%list /\
      sleeps (trace s') = (sleeps (trace s) ++ map (delay p) (seq a (k - 1)))%list /\
      todoist_client s' = todoist_client s /\
      exists tr, trace s' = (tr ++ [Client.ECall c])%list /\ respond env tr c = r.
Proof.
  assert (Hone : forall (s : State),
             (1 <= 1)%nat /\
             calls (trace (after s [Client.ECall c]))
             = (calls (trace s) ++ repeat c 1)%list /\
             sleeps (trace (after s [Client.ECall c]))
             = (sleeps (trace s) ++ map (delay p) (seq 0 0))%list /\
             todoist_client (after s [Client.ECall c]) = todoist_client s /\
             exists tr, trace (after s [Client.ECall c]) = (tr ++ [Client.ECall c])%list
                        /\ respond env tr c = respond env (trace s) c).
  { intros s. simpl. rewrite calls_app, sleeps_app. simpl. rewrite app_nil_r.
    repeat split; try lia. exists (trace s). auto. }
  induction n as [| n IH]; intros a last s s' r Hmax Hrun.
  - assert (Hend : (r, s') = (respond env (trace s) c, after s [Client.ECall c])).
    { destruct (respond env (trace s) c) as [v | err] eqn:Hresp.
      - rewrite <- Hrun. apply (loop_success p env c s v Hresp).
      - rewrite <- Hrun. apply (loop_give_up p env c s err Hresp). right. lia. }
    injection Hend as -> ->. exists 1%nat.
    destruct (Hone s) as [H1 [H2 [H3 [H4 H5]]]].
    split; [lia | split; [exact H2 | split; [exact H3 | split; [exact H4 | exact H5]]]].
  - change (seq a (S (S n))) with (a :: seq (S a) (S n)) in Hrun.
    destruct (respond env (trace s) c) as [v | err] eqn:Hresp.
    + rewrite (loop_success p env c s v Hresp) in Hrun. injection Hrun as <- <-.
      exists 1%nat. destruct (Hone s) as [H1 [H2 [H3 [H4 H5]]]].
      rewrite Hresp in H5.
      split; [lia | split; [exact H2 | split; [exact H3 | split; [exact H4 | exact H5]]]].
    + destruct (retryable p err) eqn:Hretry.
      * rewrite (loop_retry p env c s err Hresp Hretry) in Hrun by lia.
        apply IH in Hrun; [| lia].
        destruct Hrun as [k [Hk [Hcalls [Hsleeps [Hclient [tr [Htr Hr]]]]]]].
        exists (S k). simpl in Hcalls, Hsleeps, Hclient, Htr.
        split; [lia |]. split; [| split; [| split; [exact Hclient |]]].
        -- rewrite Hcalls, calls_app. simpl. rewrite <- app_assoc. reflexivity.
        -- rewrite Hsleeps, sleeps_app. simpl.
           replace (k - 0)%nat with (S (k - 1)) by lia. simpl.
           rewrite <- app_assoc. reflexivity.
        -- exists tr. split; [exact Htr | exact Hr].
      * rewrite (loop_give_up p env c s err Hresp) in Hrun by (left; exact Hretry).
        injection Hrun as <- <-.
        exists 1%nat. destruct (Hone s) as [H1 [H2 [H3 [H4 H5]]]].
        rewrite Hresp in H5.
        split; [lia | split; [exact H2 | split; [exact H3 | split; [exact H4 | exact H5]]]].
Qed.

Lemma withRetry_run (s s' : State) (r : Res JsVal) :
  withRetry p (call c) env s = (r, s') ->
  exists k, Budget.run_of p env c s s' r k.
Proof.
  unfold withRetry. replace (max_retries p + 1)%nat with (S (max_retries p)) by lia.
  intros Hrun. apply loop_run in Hrun; [| lia].
  destruct Hrun as [k [Hk H]]. exists k. split; [lia | exact H].
Qed.

End RetryOutcome.

Lemma backoff_total_notion (j : nat) :
  (j <= 5)%nat -> Budget.total (Policy.backoff Policy.notion j) <= 12400.
Proof.
  intros Hj.
  do 6 (destruct j as [| j]; [vm_compute; discriminate |]). lia.
Qed.

Lemma backoff_total_todoist (j : nat) :
  (j <= 5)%nat -> Budget.total (Policy.backoff Policy.todoist j) <= 15500.
Proof.
  intros Hj.
  do 6 (destruct j as [| j]; [vm_compute; discriminate |]). lia.
Qed.

(** X12.  Whatever the provider answers, a retried call is attempted at least
    once and at most six times, nothing else is called, and the delays
    slept between the attempts add up to 12.4 s at most for Notion and
    15.5 s at most for Todoist. *)
Theorem withRetry_is_bounded :
  forall (env : Env) (c : Call) (s : State),
    (let s' := snd (Notion.withRetry (call c) env s) in
     exists k j : nat,
       (1 <= k <= 6)%nat /\ (j <= 5)%nat /\
       calls (trace s') = (calls (trace s) ++ repeat c k)%list /\
       sleeps (trace s') = (sleeps (trace s) ++ Policy.backoff Policy.notion j)%list /\
       Budget.total (Policy.backoff Policy.notion j) <= 12400) /\
    (let s' := snd (Todoist.withRetry (call c) env s) in
     exists k j : nat,
       (1 <= k <= 6)%nat /\ (j <= 5)%nat /\
       calls (trace s') = (calls (trace s) ++ repeat c k)%list /\
       sleeps (trace s') = (sleeps (trace s) ++ Policy.backoff Policy.todoist j)%list /\
       Budget.total (Policy.backoff Policy.todoist j) <= 15500).
Proof.
  intros env c s. split; intros s'.
  - destruct (Notion.withRetry (call c) env s) as [r s0] eqn:Hrun. subst s'.
    rewrite notion_withRetry_eq in Hrun. apply withRetry_run in Hrun.
    destruct Hrun as [k [Hk [Hcalls [Hsleeps _]]]]. simpl in Hk.
    exists k, (k - 1)%nat.
    split; [lia | split; [lia | split; [exact Hcalls | split; [exact Hsleeps |]]]].
    apply backoff_total_notion. lia.
  - destruct (Todoist.withRetry (call c) env s) as [r s0] eqn:Hrun. subst s'.
    rewrite todoist_withRetry_eq in Hrun. apply withRetry_run in Hrun.
    destruct Hrun as [k [Hk [Hcalls [Hsleeps _]]]]. simpl in Hk.
    exists k, (k - 1)%nat.
    split; [lia | split; [lia | split; [exact Hcalls | split; [exact Hsleeps |]]]].
    apply backoff_total_todoist. lia.
Qed.

(** X13.  A retried call returns or throws what the provider answered to
    its last attempt, which is the last thing it did: a value is never
    made up and the [throw] that follows the loop is never reached; a
    rejection that is an error object, which is what [JsError] stands
    for and what the SDKs reject with, is never swallowed or replaced.
    This holds of the two helpers around the calls that write and around
    the calls that list.  (A promise rejected with [null] or
    [undefined] is not a [JsError]: on it the [catch] block itself throws
    when it reads [err.status].) *)
Theorem withRetry_returns_last_answer :
  (forall (env : Env) (c : Call) (s : State),
      (exists tr,
          trace (snd (Notion.withRetry (call c) env s)) = (tr ++ [Client.ECall c])%list /\
          respond env tr c = fst (Notion.withRetry (call c) env s)) /\
      (exists tr,
          trace (snd (Todoist.withRetry (call c) env s)) = (tr ++ [Client.ECall c])%list /\
          respond env tr c = fst (Todoist.withRetry (call c) env s))) /\
  (forall (p : Policy.t) (env : Listing.Env) (c : Listing.Call) (s : Listing.State),
      exists tr,
        Listing.trace (snd (Listing.withRetry p (Listing.call c) env s))
        = (tr ++ [Listing.ECall c])%list /\
        Listing.respond env tr c = fst (Listing.withRetry p (Listing.call c) env s)).
Proof.
  split.
  - intros env c s. split.
    + destruct (Notion.withRetry (call c) env s) as [r s'] eqn:Hrun.
      rewrite notion_withRetry_eq in Hrun. apply withRetry_run in Hrun.
      destruct Hrun as [k [_ [_ [_ [_ H]]]]]. exact H.
    + destruct (Todoist.withRetry (call c) env s) as [r s'] eqn:Hrun.
      rewrite todoist_withRetry_eq in Hrun. apply withRetry_run in Hrun.
      destruct Hrun as [k [_ [_ [_ [_ H]]]]]. exact H.
  - intros p env c s. apply listing_withRetry_run.
Qed.

(* --------------------------------------------------------------------- *)
(** ** The write side of the connectors *)
(* --------------------------------------------------------------------- *)

(** X14.  Without credentials no write is sent: each write function throws the
    configuration error and leaves the state as it was. *)
Theorem write_needs_credentials :
  forall (env : Env) (s : State) (now : string) (input : CreateTaskInput)
         (sourceId : JsVal) (updates : UpdateTaskInput),
    (nonempty_opt (NOTION_API_KEY env) = None ->
     let e := Error "NOTION_API_KEY environment variable is not set" in
     Notion.createNotionTask now input env s = (Throw e, s) /\
     Notion.updateNotionTask now sourceId updates env s = (Throw e, s) /\
     Notion.deleteNotionTask sourceId env s = (Throw e, s)) /\
    (nonempty_opt (NOTION_API_KEY env) <> None ->
     nonempty_opt (NOTION_DATABASE_ID env) = None ->
     Notion.createNotionTask now input env s
     = (Throw (Error "NOTION_DATABASE_ID environment variable is not set"), s)) /\
    (todoist_client s = None ->
     nonempty_opt (TODOIST_API_TOKEN env) = None ->
     let e := Error "TODOIST_API_TOKEN environment variable is not set" in
     Todoist.createTodoistTask now input env s = (Throw e, s) /\
     Todoist.updateTodoistTask now sourceId updates env s = (Throw e, s) /\
     Todoist.deleteTodoistTask sourceId env s = (Throw e, s)).
Proof.
  intros env s now input sourceId updates. split; [| split].
  - intros Hkey e.
    unfold Notion.createNotionTask, Notion.updateNotionTask, Notion.deleteNotionTask,
      Notion.getNotionClient, bind, ask, throw.
    rewrite Hkey. auto.
  - intros Hkey Hdb.
    unfold Notion.createNotionTask, Notion.getNotionClient, Notion.getDatabaseId,
      bind, ask, throw, ret.
    destruct (nonempty_opt (NOTION_API_KEY env)); [| congruence].
    rewrite Hdb. reflexivity.
  - intros Hclient Htoken e.
    unfold Todoist.createTodoistTask, Todoist.updateTodoistTask,
      Todoist.deleteTodoistTask, Todoist.getTodoistClient, bind, get_state, ask, throw.
    rewrite Hclient, Htoken. auto.
Qed.

Lemma getTodoistClient_client (env : Env) (s s1 : State) (client : string) :
  Todoist.getTodoistClient env s = (Ok client, s1) ->
  todoist_client s1 = Some client /\ Payload.client_of env s = Some client.
Proof.
  unfold Todoist.getTodoistClient, Payload.client_of, bind, get_state, ask,
    put_state, ret, throw.
  destruct (todoist_client s) as [c0 |] eqn:Hc.
  - intros H. injection H as <- <-. auto.
  - destruct (nonempty_opt (TODOIST_API_TOKEN env)) as [token |];
      intros H; [| discriminate].
    injection H as <- <-. auto.
Qed.

Lemma todoist_withRetry_client (env : Env) (c : Call) (s : State) :
  todoist_client (snd (Todoist.withRetry (call c) env s)) = todoist_client s.
Proof.
  destruct (Todoist.withRetry (call c) env s) as [r s'] eqn:Hrun.
  apply todoist_withRetry_calls in Hrun. apply Hrun.
Qed.

Ltac step_retry env s :=
  match goal with
  | |- context [Todoist.withRetry (call ?c) env s] =>
      let H := fresh "Hclient" in
      pose proof (todoist_withRetry_client env c s) as H;
      destruct (Todoist.withRetry (call c) env s) as [[?v | ?e] ?s]; simpl in H
  end.

(** X15.  The Todoist client is built once: the first Todoist write that finds
    a token keeps its client in the module state, every write leaves it
    there, and from then on a client is obtained without the token. *)
Theorem todoist_client_is_kept :
  forall (env : Env) (s : State) (now : string) (input : CreateTaskInput)
         (sourceId : JsVal) (updates : UpdateTaskInput) (client : string),
    Payload.client_of env s = Some client ->
    let kept (s' : State) :=
      todoist_client s' = Some client /\
      forall env', Todoist.getTodoistClient env' s' = (Ok client, s') in
    kept (snd (Todoist.createTodoistTask now input env s)) /\
    kept (snd (Todoist.updateTodoistTask now sourceId updates env s)) /\
    kept (snd (Todoist.deleteTodoistTask sourceId env s)).
Proof.
  intros env s now input sourceId updates client Hof kept.
  assert (Hkept : forall s', todoist_client s' = Some client -> kept s').
  { intros s' Hs'. split; [exact Hs' |]. intros env'.
    unfold Todoist.getTodoistClient, bind, get_state, ret. rewrite Hs'. reflexivity. }
  assert (Hget : exists s1, Todoist.getTodoistClient env s = (Ok client, s1)
                           /\ todoist_client s1 = Some client).
  { unfold Payload.client_of in Hof.
    unfold Todoist.getTodoistClient, bind, get_state, ask, put_state, ret.
    destruct (todoist_client s) as [c0 |] eqn:Hc.
    - injection Hof as ->. exists s. auto.
    - rewrite Hof. eexists. split; reflexivity. }
  destruct Hget as [s1 [Hget Hs1]].
  split; [| split]; apply Hkept.
  - unfold Todoist.createTodoistTask, bind. rewrite Hget.
    step_retry env s1; unfold lift_res; simpl; congruence.
  - unfold Todoist.updateTodoistTask, bind. rewrite Hget.
    step_retry env s1; [| simpl; congruence].
    destruct (up_status updates) as [[| |] |]; unfold ret, lift_res; simpl;
      try congruence;
      match goal with
      | |- context [Todoist.withRetry (call ?c) env ?s2] =>
          pose proof (todoist_withRetry_client env c s2) as Hclient2;
          destruct (Todoist.withRetry (call c) env s2) as [[v2 | e2] s3];
          simpl in Hclient2 |- *; congruence
      end.
  - unfold Todoist.deleteTodoistTask, bind. rewrite Hget.
    step_retry env s1; unfold ret; simpl; congruence.
Qed.

(** X16.  On create, an optional field that is empty is not sent: an empty
    description, due date, project name or label list gives the payload,
    and the run, of an input without that field. *)
Theorem create_drops_empty_fields :
  forall input : CreateTaskInput,
    Notion.create_properties (Payload.tidy input) = Notion.create_properties input /\
    Todoist.addParams (Payload.tidy input) = Todoist.addParams input /\
    (forall now env s,
        Notion.createNotionTask now (Payload.tidy input) env s
        = Notion.createNotionTask now input env s /\
        Todoist.createTodoistTask now (Payload.tidy input) env s
        = Todoist.createTodoistTask now input env s).
Proof.
  intros input.
  assert (Hs : forall o, nonempty_opt (Payload.tidy_string o) = nonempty_opt o).
  { intros [s0 |]; simpl; [| reflexivity].
    destruct (String.eqb s0 "") eqn:He; simpl; [reflexivity |].
    rewrite He. reflexivity. }
  assert (Hn : Notion.create_properties (Payload.tidy input)
               = Notion.create_properties input).
  { unfold Notion.create_properties, Payload.tidy. simpl. rewrite !Hs.
    destruct (in_labels input) as [[| l ls] |]; reflexivity. }
  assert (Ht : Todoist.addParams (Payload.tidy input) = Todoist.addParams input).
  { unfold Todoist.addParams, Payload.tidy. simpl. rewrite !Hs.
    destruct (in_labels input) as [[| l ls] |]; reflexivity. }
  split; [exact Hn | split; [exact Ht |]].
  intros now env s. unfold Notion.createNotionTask, Todoist.createTodoistTask.
  rewrite Hn, Ht. split; reflexivity.
Qed.

(** X17.  An update names exactly the fields that are set, in a fixed order;
    the status is a property for Notion and is never a parameter for
    Todoist. *)
Theorem update_names_set_fields :
  forall updates : UpdateTaskInput,
    map fst (Notion.update_properties updates) = Payload.notion_keys updates /\
    map fst (Todoist.updateParams updates) = Payload.todoist_keys updates.
Proof.
  intros [[t |] [d |] [st |] [p |] [due |] [l |]]; split; reflexivity.
Qed.

Lemma todoist_never_in_progress (now : string) (item : list (string * JsVal)) :
  status (todoistItemToTask now item) <> in_progress.
Proof.
  unfold todoistItemToTask. simpl.
  destruct (Js.truthy (Js.lookup "isCompleted" item ?? JBool false)); discriminate.
Qed.

Lemma itemToTask_never_in_progress (now : string) (item : JsVal) (t : UnifiedTask) :
  Todoist.itemToTask now item = Ok t -> status t <> in_progress.
Proof.
  destruct item; simpl; intros H; try discriminate; injection H as <-;
    apply todoist_never_in_progress.
Qed.

(** The trace of a retried call: what was there, the failed attempts
    with their warnings and delays, and the attempt whose answer is the
    result. *)
Lemma loop_trace (p : Policy.t) (env : Env) (c : Call) (n : nat) :
  forall (a : nat) (last : JsError) (s s' : State) (r : Res JsVal),
    (a + n = Policy.max_retries p)%nat ->
    Policy.loop p (call c) (seq a (S n)) last env s = (r, s') ->
    exists earlier : list Event,
      trace s' = (trace s ++ earlier ++ [Client.ECall c])%list /\
      (exists k, calls earlier = repeat c k) /\
      respond env (trace s ++ earlier) c = r.
Proof.
  induction n as [| n IH]; intros a last s s' r Hmax Hrun.
  - exists []. rewrite app_nil_r. change (seq a 1) with [a] in Hrun.
    destruct (respond env (trace s) c) as [v | err] eqn:Hresp.
    + rewrite (loop_success p env c s v Hresp) in Hrun. injection Hrun as <- <-.
      split; [reflexivity | split; [exists 0%nat; reflexivity | reflexivity]].
    + rewrite (loop_give_up p env c s err Hresp) in Hrun by (right; lia).
      injection Hrun as <- <-.
      split; [reflexivity | split; [exists 0%nat; reflexivity | reflexivity]].
  - change (seq a (S (S n))) with (a :: seq (S a) (S n)) in Hrun.
    destruct (respond env (trace s) c) as [v | err] eqn:Hresp.
    + rewrite (loop_success p env c s v Hresp) in Hrun. injection Hrun as <- <-.
      exists []. rewrite app_nil_r.
      split; [reflexivity | split; [exists 0%nat; reflexivity | exact Hresp]].
    + destruct (Policy.retryable p err) eqn:Hretry.
      * rewrite (loop_retry p env c s err Hresp Hretry) in Hrun by lia.
        apply IH in Hrun; [| lia].
        destruct Hrun as [earlier [Htrace [[k Hcalls] Hr]]].
        simpl in Htrace, Hr.
        exists (Policy.failed_attempt p c a err ++ earlier)%list.
        split; [| split].
        -- rewrite Htrace, <- !app_assoc. reflexivity.
        -- exists (S k). rewrite calls_app, Hcalls. reflexivity.
        -- rewrite app_assoc. exact Hr.
      * rewrite (loop_give_up p env c s err Hresp) in Hrun by (left; exact Hretry).
        injection Hrun as <- <-.
        exists []. rewrite app_nil_r.
        split; [reflexivity | split; [exists 0%nat; reflexivity | exact Hresp]].
Qed.

Lemma todoist_withRetry_trace (env : Env) (c : Call) (s s' : State) (r : Res JsVal) :
  Todoist.withRetry (call c) env s = (r, s') ->
  exists earlier : list Event,
    trace s' = (trace s ++ earlier ++ [Client.ECall c])%list /\
    (exists k, calls earlier = repeat c k) /\
    respond env (trace s ++ earlier) c = r.
Proof.
  rewrite todoist_withRetry_eq. unfold Policy.withRetry.
  replace (Policy.max_retries Policy.todoist + 1)%nat
    with (S (Policy.max_retries Policy.todoist)) by reflexivity.
  apply loop_trace. reflexivity.
Qed.

(** X18.  The task that [updateTodoistTask] returns is read from the
    answer to the field update, which was given before the close or
    reopen call was made.  The run adds to the trace the attempts of the
    update, of which the last is answered with [item], and after it only
    the attempts of the close or reopen call that the status asks for;
    the task is the normalised [item]: its status is [done] if [item]
    says [isCompleted] and [todo] otherwise, whatever status the update
    asked for, and never [in_progress]. *)
Theorem updateTodoistTask_returns_update_answer :
  forall (now : string) (env : Env) (s : State) (sourceId : JsVal)
         (updates : UpdateTaskInput),
    let upd := todoist_updateTask sourceId (JObj (Todoist.updateParams updates)) in
    let action := status_action sourceId (up_status updates) in
    match Todoist.updateTodoistTask now sourceId updates env s with
    | (Ok t, s') =>
        exists (earlier later : list Event) (item : JsVal),
          trace s' = (trace s ++ earlier ++ Client.ECall upd :: later)%list /\
          (exists k, calls earlier = repeat upd k) /\
          respond env (trace s ++ earlier) upd = Ok item /\
          Forall (fun c => In c action) (calls later) /\
          (action <> [] -> calls later <> []) /\
          Todoist.itemToTask now item = Ok t /\
          status t = (if Js.truthy (item.["isCompleted"] ?? JBool false)
                      then done else todo) /\
          status t <> in_progress
    | (Throw _, _) => True
    end.
Proof.
  intros now env s sourceId updates upd action.
  unfold Todoist.updateTodoistTask, bind.
  destruct (Todoist.getTodoistClient env s) as [[client | e] s1] eqn:Hclient;
    [| exact I].
  apply getTodoistClient_trace in Hclient.
  fold upd.
  destruct (Todoist.withRetry (call upd) env s1) as [[item | e] s2] eqn:Hupd;
    [| exact I].
  apply todoist_withRetry_trace in Hupd.
  destruct Hupd as [earlier [Htrace [Hearlier Hitem]]].
  rewrite Hclient in Htrace, Hitem.
  assert (Hfinal : forall (s3 : State) (later : list Event),
             trace s3 = (trace s2 ++ later)%list ->
             Forall (fun c => In c action) (calls later) ->
             (action <> [] -> calls later <> []) ->
             match lift_res (E := Env) (Todoist.itemToTask now item) env s3 with
             | (Ok t, s') =>
                 exists (earlier later : list Event) (item : JsVal),
                   trace s' = (trace s ++ earlier ++ Client.ECall upd :: later)%list /\
                   (exists k, calls earlier = repeat upd k) /\
                   respond env (trace s ++ earlier) upd = Ok item /\
                   Forall (fun c => In c action) (calls later) /\
                   (action <> [] -> calls later <> []) /\
                   Todoist.itemToTask now item = Ok t /\
                   status t = (if Js.truthy (item.["isCompleted"] ?? JBool false)
                               then done else todo) /\
                   status t <> in_progress
             | (Throw _, _) => True
             end).
  { intros s3 later Hs3 Hlater Hsome. unfold lift_res.
    destruct (Todoist.itemToTask now item) as [t | e] eqn:Htask; [| exact I].
    exists earlier, later, item.
    split.
    { rewrite Hs3, Htrace, <- !app_assoc. reflexivity. }
    split; [exact Hearlier | split; [exact Hitem | split; [exact Hlater |]]].
    split; [exact Hsome | split; [exact Htask | split]].
    - apply (itemToTask_status now). exact Htask.
    - apply (itemToTask_never_in_progress now item). exact Htask. }
  assert (Hnone : up_status updates = None ->
             trace s2 = (trace s2 ++ [])%list /\
             Forall (fun c => In c (@nil Call)) (calls []) /\
             (@nil Call <> [] -> calls [] <> []))
    by (intros _; rewrite app_nil_r; repeat split; [constructor | congruence]).
  assert (Hone : forall (c : Call) (s3 : State) (r : Res JsVal),
             action = [c] ->
             Todoist.withRetry (call c) env s2 = (r, s3) ->
             exists later,
               trace s3 = (trace s2 ++ later)%list /\
               Forall (fun c => In c action) (calls later) /\
               (action <> [] -> calls later <> [])).
  { intros c s3 r Haction Hrun. apply todoist_withRetry_trace in Hrun.
    destruct Hrun as [before [Hs3 [[k Hk] _]]].
    exists (before ++ [Client.ECall c])%list.
    split; [exact Hs3 | split].
    - rewrite calls_app, Hk, Haction. simpl.
      apply Forall_app. split.
      + apply Forall_forall. intros x Hx. apply repeat_spec in Hx. left. auto.
      + constructor; [left; reflexivity | constructor].
    - intros _. rewrite calls_app. simpl. intros Hnil.
      apply app_eq_nil in Hnil. destruct Hnil as [_ Hnil]. discriminate. }
  subst action.
  destruct (up_status updates) as [[| |] |] eqn:Hstatus; unfold ret; cbv beta iota;
    try (destruct (Hnone eq_refl) as [H1 [H2 H3]]; exact (Hfinal s2 [] H1 H2 H3));
    match goal with
    | |- context [Todoist.withRetry (call ?c) env s2] =>
        destruct (Todoist.withRetry (call c) env s2) as [[v | e] s3] eqn:Hrun;
        cbv beta iota; [| exact I];
        destruct (Hone c s3 (Ok v) eq_refl Hrun) as [later [H1 [H2 H3]]];
        exact (Hfinal s3 later H1 H2 H3)
    end.
Qed.

(** X19.  No rollback: when the field update has been accepted and the close
    or reopen call that the status asks for is refused with an error that
    is not retried, [updateTodoistTask] throws that error, after exactly
    these two calls; the fields stay updated at the provider. *)
Theorem updateTodoistTask_half_done :
  forall (now : string) (env : Env) (s : State) (sourceId : JsVal)
         (updates : UpdateTaskInput) (task : JsVal) (c : Call) (e : JsError),
    let upd := todoist_updateTask sourceId (JObj (Todoist.updateParams updates)) in
    todoist_configured env s ->
    status_action sourceId (up_status updates) = [c] ->
    respond env (trace s) upd = Ok task ->
    respond env (trace s ++ [Client.ECall upd]) c = Throw e ->
    Policy.retryable Policy.todoist e = false ->
    fst (Todoist.updateTodoistTask now sourceId updates env s) = Throw e /\
    calls (trace (snd (Todoist.updateTodoistTask now sourceId updates env s)))
    = (calls (trace s) ++ [upd; c])%list.
Proof.
  intros now env s sourceId updates task c e upd Hconf Hact Hupd Hfail Hfatal.
  destruct (getTodoistClient_ok env s Hconf) as [client [s1 [Hclient Htrace]]].
  rewrite <- Htrace in Hupd, Hfail.
  assert (Hc : Todoist.withRetry (call c) env (Policy.after s1 [Client.ECall upd])
               = (Throw e, Policy.after (Policy.after s1 [Client.ECall upd])
                             [Client.ECall c])).
  { rewrite todoist_withRetry_eq. unfold Policy.withRetry. simpl seq.
    apply loop_give_up; [exact Hfail | left; exact Hfatal]. }
  unfold Todoist.updateTodoistTask, bind. rewrite Hclient. fold upd.
  rewrite (todoist_withRetry_first_ok env upd s1 task Hupd).
  destruct (up_status updates) as [[| |] |]; simpl in Hact;
    try discriminate; injection Hact as <-; unfold ret; cbv beta iota;
    rewrite Hc; simpl;
    rewrite !calls_app, Htrace; simpl; rewrite <- app_assoc; auto.
Qed.

(** X20.  Deleting archives on Notion and deletes on Todoist, with that one
    call only, attempted at most six times; a delete that the provider
    accepts at once returns after one call. *)
Theorem delete_calls :
  forall (env : Env) (s : State) (sourceId : JsVal),
    let archive :=
      notion_pages_update (JObj [("page_id", sourceId); ("archived", JBool true)]) in
    let delete := todoist_deleteTask sourceId in
    (exists n : nat,
        (n <= 6)%nat /\
        calls (trace (snd (Notion.deleteNotionTask sourceId env s)))
        = (calls (trace s) ++ repeat archive n)%list) /\
    (exists n : nat,
        (n <= 6)%nat /\
        calls (trace (snd (Todoist.deleteTodoistTask sourceId env s)))
        = (calls (trace s) ++ repeat delete n)%list) /\
    (forall v, nonempty_opt (NOTION_API_KEY env) <> None ->
               respond env (trace s) archive = Ok v ->
               Notion.deleteNotionTask sourceId env s
               = (Ok tt, Policy.after s [Client.ECall archive])) /\
    (forall v, todoist_client s <> None ->
               respond env (trace s) delete = Ok v ->
               Todoist.deleteTodoistTask sourceId env s
               = (Ok tt, Policy.after s [Client.ECall delete])).
Proof.
  intros env s sourceId archive delete.
  split; [| split; [| split]].
  - unfold Notion.deleteNotionTask, bind.
    destruct (Notion.getNotionClient env s) as [[client | e] s1] eqn:Hclient;
      apply getNotionClient_state in Hclient; subst s1.
    + fold archive.
      destruct (Notion.withRetry (call archive) env s) as [[v | e] s1] eqn:Hrun;
        apply notion_withRetry_calls in Hrun;
        destruct Hrun as [_ [_ [n [Hn Hcalls]]]];
        exists n; (split; [simpl in Hn; lia | exact Hcalls]).
    + exists 0%nat. simpl. rewrite app_nil_r. split; [lia | reflexivity].
  - unfold Todoist.deleteTodoistTask, bind.
    destruct (Todoist.getTodoistClient env s) as [[client | e] s1] eqn:Hclient;
      apply getTodoistClient_trace in Hclient.
    + fold delete.
      destruct (Todoist.withRetry (call delete) env s1) as [[v | e] s2] eqn:Hrun;
        apply todoist_withRetry_calls in Hrun;
        destruct Hrun as [_ [_ [n [Hn Hcalls]]]];
        exists n; rewrite Hclient in Hcalls;
        (split; [simpl in Hn; lia | exact Hcalls]).
    + exists 0%nat. simpl. rewrite app_nil_r, Hclient. split; [lia | reflexivity].
  - intros v Hkey Hresp.
    unfold Notion.deleteNotionTask, Notion.getNotionClient, bind, ask, ret.
    destruct (nonempty_opt (NOTION_API_KEY env)); [| congruence].
    fold archive. rewrite notion_withRetry_eq. unfold Policy.withRetry. simpl seq.
    rewrite (loop_success Policy.notion env archive s v Hresp). reflexivity.
  - intros v Hclient Hresp.
    unfold Todoist.deleteTodoistTask, Todoist.getTodoistClient, bind, get_state, ret.
    destruct (todoist_client s) as [client |] eqn:Hc; [| congruence].
    fold delete. rewrite (todoist_withRetry_first_ok env delete s v Hresp).
    reflexivity.
Qed.

(* --------------------------------------------------------------------- *)
(** ** When [notionPageToTask] throws *)
(* --------------------------------------------------------------------- *)

Lemma res_map_list_total {A B} (f : A -> Res B) (l : list A) :
  (exists ys, res_map_list f l = Ok ys) <-> Forall (fun x => exists y, f x = Ok y) l.
Proof.
  induction l as [| x rest IH]; simpl.
  - split; [constructor | exists []; reflexivity].
  - split.
    + intros [ys H]. destruct (f x) as [y | e] eqn:Hx; simpl in H; [| discriminate].
      destruct (res_map_list f rest) as [ys' | e]; simpl in H; [| discriminate].
      constructor; [exists y; exact Hx | apply IH; exists ys'; reflexivity].
    + intros H. inversion H as [| ? ? [y Hy] Hrest]; subst.
      apply IH in Hrest. destruct Hrest as [ys' Hys]. rewrite Hy, Hys. simpl.
      eexists. reflexivity.
Qed.

Lemma get_strict_total (k : string) (l : list JsVal) :
  Forall (fun x => exists y, Js.get_strict x k = Ok y) l
  <-> Forall (fun x => Js.nullish x = false) l.
Proof.
  split; apply Forall_impl; intros x; unfold Js.get_strict;
    destruct (Js.nullish x); try discriminate; auto.
  - intros [y H]. discriminate.
  - intros _. eexists. reflexivity.
Qed.

Lemma richTextToPlain_total (v : JsVal) :
  (exists s, richTextToPlain v = Ok s) <-> Shape.no_hole v.
Proof.
  destruct v; simpl; try (split; [auto | intros _; eexists; reflexivity]).
  rewrite <- (get_strict_total "plain_text"). unfold richTextToPlain.
  split.
  - intros [s H]. invert_binds.
    assert (Hex : exists ys, res_map_list
                    (fun rt => res_bind (Js.get_strict rt "plain_text")
                                 (fun p => Ok (p ?? JStr ""))) items = Ok ys)
      by (exists a; exact Ha).
    apply res_map_list_total in Hex. revert Hex. apply Forall_impl.
    intros x [y Hy]. destruct (Js.get_strict x "plain_text"); [| discriminate].
    eexists. reflexivity.
  - intros H.
    assert (Hex : exists ys, res_map_list
                    (fun rt => res_bind (Js.get_strict rt "plain_text")
                                 (fun p => Ok (p ?? JStr ""))) items = Ok ys).
    { apply res_map_list_total. revert H. apply Forall_impl.
      intros x [y Hy]. rewrite Hy. simpl. eexists. reflexivity. }
    destruct Hex as [ys ->]. simpl. eexists. reflexivity.
Qed.

Lemma names_total (v : JsVal) :
  (exists names, match v with
                 | JArr items =>
                     res_bind (res_map_list (fun s => Js.get_strict s "name") items)
                       (fun names => Ok (JArr names))
                 | _ => Ok JUndefined
                 end = Ok names) <-> Shape.no_hole v.
Proof.
  destruct v; simpl; try (split; [auto | intros _; eexists; reflexivity]).
  rewrite <- (get_strict_total "name"), <- res_map_list_total.
  split.
  - intros [names H]. invert_binds. exists a. exact Ha.
  - intros [ys ->]. simpl. eexists. reflexivity.
Qed.

Lemma lower_trim_total (v : JsVal) :
  Js.truthy v = false \/ (exists s, lower_trim v = Ok s) <-> Shape.name_ok v.
Proof.
  unfold Shape.name_ok. split; intros [H | [s H]]; auto; right.
  - destruct v; simpl in H; try discriminate. eexists. reflexivity.
  - subst v. simpl. eexists. reflexivity.
Qed.

Lemma mapNotionStatus_total (v : JsVal) :
  (exists st, mapNotionStatus v = Ok st) <-> Shape.name_ok v.
Proof.
  rewrite <- lower_trim_total. unfold mapNotionStatus.
  destruct (Js.truthy v); simpl.
  - split.
    + intros [st H]. right. destruct (lower_trim v); [eexists; reflexivity | discriminate].
    + intros [H | [s ->]]; [discriminate |]. simpl res_bind.
      repeat match goal with
             | |- context [if ?b then _ else _] => destruct b
             end; eexists; reflexivity.
  - split; [auto | intros _; eexists; reflexivity].
Qed.

Lemma mapNotionPriority_total (v : JsVal) :
  (exists p, mapNotionPriority v = Ok p) <-> Shape.name_ok v.
Proof.
  rewrite <- lower_trim_total. unfold mapNotionPriority.
  destruct (Js.truthy v); simpl.
  - split.
    + intros [st H]. right. destruct (lower_trim v); [eexists; reflexivity | discriminate].
    + intros [H | [s ->]]; [discriminate |]. simpl res_bind.
      repeat match goal with
             | |- context [if ?b then _ else _] => destruct b
             end; eexists; reflexivity.
  - split; [auto | intros _; eexists; reflexivity].
Qed.

Lemma notionPageToTask_readable (now : string) (page : list (string * JsVal)) :
  (exists t, notionPageToTask now page = Ok t) <-> Shape.readable page.
Proof.
  unfold Shape.readable.
  rewrite <- (richTextToPlain_total (Shape.title_text page)).
  rewrite <- (richTextToPlain_total (Shape.description_text page)).
  rewrite <- (mapNotionStatus_total (Shape.status_name page)).
  rewrite <- (mapNotionPriority_total (Shape.priority_name page)).
  rewrite <- (names_total (Shape.tags page)).
  unfold notionPageToTask.
  cbv beta iota zeta delta [Shape.title_text Shape.description_text
    Shape.status_name Shape.priority_name Shape.tags Shape.first_of Shape.props
    fold_right].
  split.
  - intros [t H]. invert_binds.
    repeat split; eexists; eassumption.
  - intros [[s1 H1] [[s2 H2] [[st H3] [[p H4] [names H5]]]]].
    rewrite H1. cbn [res_bind]. rewrite H2. cbn [res_bind].
    rewrite H3. cbn [res_bind]. rewrite H4. cbn [res_bind].
    rewrite H5. cbn [res_bind]. eexists. reflexivity.
Qed.

(** X21.  Of the pages whose [id] and whose fragments of title and
    description can be converted to strings ([Printable.page]),
    [notionPageToTask] returns a task exactly for those in which the
    title, the description and the tags, where they are arrays, have no
    [null] or [undefined] item, and the status name and the priority name
    are falsy or strings.  A page that is not of this shape makes it
    throw, whatever else is in it. *)
Theorem notionPageToTask_returns_iff_readable :
  forall (now : string) (page : list (string * JsVal)),
    (Printable.page page ->
     ((exists t, notionPageToTask now page = Ok t) <-> Shape.readable page)) /\
    (~ Shape.readable page -> exists e, notionPageToTask now page = Throw e).
Proof.
  intros now page. split.
  - intros _. apply notionPageToTask_readable.
  - intros Hshape.
    destruct (notionPageToTask now page) as [t | e] eqn:Hrun.
    + exfalso. apply Hshape.
      apply (proj1 (notionPageToTask_readable now page)).
      exists t. exact Hrun.
    + exists e. reflexivity.
Qed.

(* --------------------------------------------------------------------- *)
(** ** The entries that [fetchNotionTasks] keeps *)
(* --------------------------------------------------------------------- *)

Lemma is_page_entry_eq (r : JsVal) :
  Js.nullish r = false -> Listing.is_page r = Ok (Kept.is_page_entry r).
Proof.
  unfold Listing.is_page, Kept.is_page_entry, Js.get_strict.
  intros ->. simpl. destruct (r.["object"]); reflexivity.
Qed.

(** X22.  Of the entries of an answer, the fetch keeps those that are pages,
    in their order, and drops the others; an entry that is [null] or
    [undefined] makes it throw. *)
Theorem page_list_keeps_pages :
  forall (fields : list (string * JsVal)) (results : list JsVal),
    Js.lookup "results" fields = JArr results ->
    (Forall (fun r => Js.nullish r = false) results ->
     Paging.page_list (JObj fields) = Ok (filter Kept.is_page_entry results)) /\
    (Exists (fun r => Js.nullish r = true) results ->
     exists e, Paging.page_list (JObj fields) = Throw e).
Proof.
  intros fields results Hres.
  assert (Hlist : Paging.page_list (JObj fields) = Listing.push_pages results []).
  { unfold Paging.page_list. simpl. rewrite Hres. reflexivity. }
  rewrite Hlist. clear Hlist Hres. split.
  - induction 1 as [| r rest Hr _ IH]; simpl; [reflexivity |].
    rewrite (is_page_entry_eq r Hr). simpl.
    destruct (Kept.is_page_entry r); [| exact IH].
    rewrite push_pages_acc, IH. reflexivity.
  - induction results as [| r rest IH]; intros Hex; [inversion Hex |].
    simpl. destruct (Js.nullish r) eqn:Hr.
    + unfold Listing.is_page, Js.get_strict. rewrite Hr. simpl.
      eexists. reflexivity.
    + rewrite (is_page_entry_eq r Hr). simpl.
      inversion Hex as [? ? Hn | ? ? Hrest]; subst; [congruence |].
      destruct (IH Hrest) as [e He].
      rewrite push_pages_acc, He. simpl. exists e.
      destruct (Kept.is_page_entry r); reflexivity.
Qed.

(* --------------------------------------------------------------------- *)
(** ** More on the aggregation service *)
(* --------------------------------------------------------------------- *)

Section ServiceMore.
Import TaskService Order.
Variable env : TaskService.Env.

Lemma getAllTasks_hit (s : TaskService.State) (c : TaskCache) :
  cache s = Some c ->
  dateNow env (TaskService.trace s) - timestamp c < CACHE_TTL_MS ->
  fst (getAllTasks env s) = Ok (tasks c) /\
  TaskService.calls (TaskService.trace (snd (getAllTasks env s)))
  = TaskService.calls (TaskService.trace s).
Proof.
  intros Hc Hage.
  unfold getAllTasks, bind. rewrite isCacheValid_run, Hc.
  apply Z.ltb_lt in Hage. rewrite Hage.
  unfold get_state, ret. simpl. rewrite ?Hc.
  rewrite calls_app_service. simpl. rewrite app_nil_r. auto.
Qed.

(** X23.  When both fetches fulfil, [getAllTasks] returns every record of both
    and no other, sorted by [updatedAt] descending when these are dates;
    records with the same time value keep the order of the fetches,
    Notion's before Todoist's; nothing is logged, and what is returned
    is what is stored. *)
Theorem getAllTasks_merges :
  forall (s : TaskService.State) (l1 l2 : list UnifiedTask),
    let s0 := snd (isCacheValid env s) in
    fst (isCacheValid env s) = Ok false ->
    fetchNotionTasks env (TaskService.trace s0) = Ok l1 ->
    fetchTodoistTasks env (TaskService.trace s0 ++ [ECall fetchNotionTasks_]) = Ok l2 ->
    exists (ts : list UnifiedTask) (s' : TaskService.State) (t : Z),
      getAllTasks env s = (Ok ts, s') /\
      cache s' = Some (mkCache ts t) /\
      Permutation (l1 ++ l2) ts /\
      (valid_dates env (l1 ++ l2) ->
       sorted_desc env ts /\
       forall k, filter (Kept.updated_at env k) ts
                 = filter (Kept.updated_at env k) (l1 ++ l2)) /\
      diagnostics (TaskService.trace s') = diagnostics (TaskService.trace s).
Proof.
  intros s l1 l2 s0 Hmiss Hn Ht.
  assert (Hvalid : isCacheValid env s = (Ok false, s0)).
  { subst s0. destruct (isCacheValid env s) as [r s1]. simpl in *. subst r.
    reflexivity. }
  assert (Hdiag : diagnostics (TaskService.trace s0)
                  = diagnostics (TaskService.trace s)).
  { subst s0. rewrite isCacheValid_run. destruct (cache s); [| reflexivity].
    simpl. rewrite diagnostics_app. simpl. apply app_nil_r. }
  pose proof (getAllTasks_miss env s s0 Hvalid) as Hrun. cbv zeta in Hrun.
  rewrite Hn, Ht in Hrun. simpl Settled.records in Hrun.
  simpl Settled.failure in Hrun.
  eexists _, _, _. split; [exact Hrun |].
  split; [reflexivity |].
  split; [apply sort_perm | split].
  - intros Hdates. split; [revert Hdates; apply sort_sorted |].
    intros k. apply sort_stable. intros x y.
    unfold sortCompare, compareUpdatedAt, Kept.updated_at, Order.time.
    destruct (getTime env (updatedAt x)), (getTime env (updatedAt y)), k;
      try lia; try discriminate.
  - simpl TaskService.trace. rewrite !diagnostics_app, Hdiag. simpl.
    rewrite ?app_nil_r. reflexivity.
Qed.

(** X24.  What a miss stores is served for the next thirty seconds,
    counted from the clock reading taken after the fetches settled.  The
    stamp of the cache is the reading of the clock at the history in
    which both fetches have been called and have settled and their
    rejections have been logged, and this reading is the last event of
    the run; a second call within thirty seconds of it returns the same
    list and calls no connector.  This includes the empty list that is
    the result when both fetches were rejected. *)
Theorem getAllTasks_remembers :
  forall s : TaskService.State,
    let s0 := snd (isCacheValid env s) in
    let notion := fetchNotionTasks env (TaskService.trace s0) in
    let todoist :=
      fetchTodoistTasks env (TaskService.trace s0 ++ [ECall fetchNotionTasks_]) in
    let settled :=
      (TaskService.trace s0
       ++ [ECall fetchNotionTasks_; ECall fetchTodoistTasks_]
       ++ map EConsoleError (Settled.failure notion ++ Settled.failure todoist))%list in
    let t := dateNow env settled in
    fst (isCacheValid env s) = Ok false ->
    exists (ts : list UnifiedTask) (s1 : TaskService.State),
      getAllTasks env s = (Ok ts, s1) /\
      cache s1 = Some (mkCache ts t) /\
      TaskService.trace s1 = (settled ++ [ENow t])%list /\
      (dateNow env (TaskService.trace s1) - t < CACHE_TTL_MS ->
       fst (getAllTasks env s1) = Ok ts /\
       TaskService.calls (TaskService.trace (snd (getAllTasks env s1)))
       = TaskService.calls (TaskService.trace s1)) /\
      (forall e1 e2, notion = Throw e1 -> todoist = Throw e2 -> ts = []).
Proof.
  intros s s0 notion todoist settled t Hmiss.
  assert (Hvalid : isCacheValid env s = (Ok false, s0)).
  { subst s0. destruct (isCacheValid env s) as [r s1]. simpl in *. subst r.
    reflexivity. }
  pose proof (getAllTasks_miss env s s0 Hvalid) as Hrun. cbv zeta in Hrun.
  fold notion todoist in Hrun. fold settled in Hrun. fold t in Hrun.
  eexists _, _. split; [exact Hrun |].
  split; [reflexivity | split; [reflexivity | split]].
  - intros Hage.
    exact (getAllTasks_hit (TaskService.mkState _ _) (mkCache _ _) eq_refl Hage).
  - intros e1 e2 Hn Ht. rewrite Hn, Ht. reflexivity.
Qed.

(** X25.  A write calls one connector, the one of the origin, once, whether
    that call succeeds or fails, and no connector for any other origin. *)
Theorem write_calls_one_connector :
  forall (s : TaskService.State) (src : string) (input : CreateTaskInput)
         (task : UnifiedTask) (updates : UpdateTaskInput),
    let after {A} (run : Res A * TaskService.State) :=
      TaskService.calls (TaskService.trace (snd run)) in
    let before := TaskService.calls (TaskService.trace s) in
    after (createTask src input env s)
    = (before ++ Kept.routed src (createNotionTask_ input)
                   (createTodoistTask_ input))%list /\
    after (updateTask task updates env s)
    = (before ++ Kept.routed (source task)
                   (updateNotionTask_ (sourceId task) updates)
                   (updateTodoistTask_ (sourceId task) updates))%list /\
    after (deleteTask task env s)
    = (before ++ Kept.routed (source task)
                   (deleteNotionTask_ (sourceId task))
                   (deleteTodoistTask_ (sourceId task)))%list.
Proof.
  intros s src input task updates after before. subst after before.
  unfold createTask, updateTask, deleteTask, Kept.routed, bind, connector, throw,
    refreshTasks, set_cache, ret.
  split; [| split].
  - destruct (String.eqb src "notion");
      [destruct (createNotionTask env (TaskService.trace s) input) |
       destruct (String.eqb src "todoist");
       [destruct (createTodoistTask env (TaskService.trace s) input) |]];
      simpl; rewrite ?calls_app_service, ?app_nil_r; reflexivity.
  - destruct (String.eqb (source task) "notion");
      [destruct (updateNotionTask env (TaskService.trace s) (sourceId task) updates) |
       destruct (String.eqb (source task) "todoist");
       [destruct (updateTodoistTask env (TaskService.trace s) (sourceId task) updates) |]];
      simpl; rewrite ?calls_app_service, ?app_nil_r; reflexivity.
  - destruct (String.eqb (source task) "notion");
      [destruct (deleteNotionTask env (TaskService.trace s) (sourceId task)) |
       destruct (String.eqb (source task) "todoist");
       [destruct (deleteTodoistTask env (TaskService.trace s) (sourceId task)) |]];
      simpl; rewrite ?calls_app_service, ?app_nil_r; reflexivity.
Qed.

End ServiceMore.

(* --------------------------------------------------------------------- *)
(** ** The properties above, on the sample worlds *)
(* --------------------------------------------------------------------- *)

Lemma applyFilters_by_priority_witness :
  let filters := FilterTasks.mkFilters "all" "all" "all" "priority" in
  FilterTasks.sortBy filters = "priority" /\
  StronglySorted DisplayOrder.most_urgent_first
    (FilterTasks.applyFilters FilterTasks.getTime FilterTasks.makeTasks filters).
Proof.
  intros filters. split; [reflexivity |].
  apply (applyFilters_by_priority FilterTasks.getTime FilterTasks.makeTasks filters).
  reflexivity.
Defined.

Lemma makeTasks_due_readable :
  Forall (Sorting.due_readable FilterTasks.getTime) FilterTasks.makeTasks.
Proof.
  repeat constructor; unfold Sorting.due_readable; simpl; intros H;
    discriminate.
Qed.

Lemma applyFilters_by_dueDate_witness :
  let filters := FilterTasks.mkFilters "all" "all" "all" "dueDate" in
  FilterTasks.sortBy filters = "dueDate" /\
  Forall (Sorting.due_readable FilterTasks.getTime) FilterTasks.makeTasks /\
  StronglySorted (Sorting.due_before FilterTasks.getTime)
    (FilterTasks.applyFilters FilterTasks.getTime FilterTasks.makeTasks filters).
Proof.
  intros filters.
  split; [reflexivity | split; [exact makeTasks_due_readable |]].
  apply (applyFilters_by_dueDate FilterTasks.getTime FilterTasks.makeTasks filters
           eq_refl makeTasks_due_readable).
Defined.

Lemma makeTasks_dates_readable :
  Forall (fun t => FilterTasks.getTime (createdAt t) <> None) FilterTasks.makeTasks /\
  Forall (fun t => FilterTasks.getTime (updatedAt t) <> None) FilterTasks.makeTasks.
Proof. split; repeat constructor; discriminate. Qed.

Lemma applyFilters_by_date_witness :
  let by_created := FilterTasks.mkFilters "notion" "all" "all" "createdAt" in
  (FilterTasks.sortBy by_created = "createdAt" /\
   StronglySorted (DisplayOrder.newest_first FilterTasks.getTime createdAt)
     (FilterTasks.applyFilters FilterTasks.getTime FilterTasks.makeTasks by_created)) /\
  (FilterTasks.sortBy FilterTasks.defaultFilters = "updatedAt" /\
   StronglySorted (DisplayOrder.newest_first FilterTasks.getTime updatedAt)
     (FilterTasks.applyFilters FilterTasks.getTime FilterTasks.makeTasks
        FilterTasks.defaultFilters)).
Proof.
  intros by_created. destruct makeTasks_dates_readable as [Hc Hu]. split.
  - split; [reflexivity |].
    apply (proj1 (applyFilters_by_date FilterTasks.getTime FilterTasks.makeTasks
                    by_created) eq_refl Hc).
  - split; [reflexivity |].
    apply (proj2 (applyFilters_by_date FilterTasks.getTime FilterTasks.makeTasks
                    FilterTasks.defaultFilters) eq_refl Hu).
Defined.

Lemma applyFilters_unknown_key_witness :
  let filters := FilterTasks.mkFilters "todoist" "all" "all" "title" in
  DisplayOrder.known_key (FilterTasks.sortBy filters) = false /\
  FilterTasks.applyFilters FilterTasks.getTime FilterTasks.makeTasks filters
  = [FilterTasks.task2; FilterTasks.task4].
Proof.
  intros filters. split; [reflexivity |].
  rewrite (applyFilters_unknown_key FilterTasks.getTime FilterTasks.makeTasks filters
             eq_refl).
  reflexivity.
Defined.

Lemma fetchNotionTasks_follows_cursors_witness :
  let env := SampleListing.two_pages in
  let s := SampleListing.start in
  Paging.notion_configured env "secret" "db" /\
  exists s1 s_end tasks,
    Paging.answered env "db" s JUndefined [SampleListing.first] s1 (JStr "c1") /\
    Paging.request "db" (JStr "c1") env s1 = (Ok SampleListing.second, s_end) /\
    Listing.fetchNotionTasks SampleListing.now 2 env s = (Ok (Some tasks), s_end) /\
    map id tasks = ["notion-a"; "notion-b"; "notion-c"].
Proof.
  intros env s.
  assert (Hconf : Paging.notion_configured env "secret" "db")
    by (split; reflexivity).
  split; [exact Hconf |].
  eexists _, _, _.
  assert (Hans : Paging.answered env "db" s JUndefined [SampleListing.first]
                   (Listing.mkState None
                      [Listing.ECall
                         (Listing.notion_request (Listing.query "db" JUndefined))])
                   (JStr "c1")).
  { simpl. eexists. split; [reflexivity | split; [reflexivity |]].
    split; reflexivity. }
  split; [exact Hans |].
  split; [reflexivity |].
  split.
  - apply (fetchNotionTasks_follows_cursors env SampleListing.now "secret" "db"
             s _ _ [SampleListing.first] SampleListing.second (JStr "c1")
             [[SampleListing.page "a"; SampleListing.page "b"];
              [SampleListing.page "c"]]
             _ 2 Hconf Hans);
      [reflexivity | reflexivity | reflexivity | reflexivity | simpl; lia].
  - reflexivity.
Defined.

Lemma fetchNotionTasks_request_failure_witness :
  let env := SampleListing.breaks in
  let s := SampleListing.start in
  Paging.notion_configured env "secret" "db" /\
  exists s1 s_end,
    Paging.answered env "db" s JUndefined [SampleListing.first] s1 (JStr "c1") /\
    Paging.request "db" (JStr "c1") env s1 = (Throw Sample.not_found, s_end) /\
    Listing.fetchNotionTasks SampleListing.now 5 env s
    = (Throw Sample.not_found, s_end).
Proof.
  intros env s.
  assert (Hconf : Paging.notion_configured env "secret" "db")
    by (split; reflexivity).
  split; [exact Hconf |].
  eexists _, _.
  assert (Hans : Paging.answered env "db" s JUndefined [SampleListing.first]
                   (Listing.mkState None
                      [Listing.ECall
                         (Listing.notion_request (Listing.query "db" JUndefined))])
                   (JStr "c1")).
  { simpl. eexists. split; [reflexivity | split; [reflexivity |]].
    split; reflexivity. }
  split; [exact Hans |].
  split; [vm_compute; reflexivity |].
  apply (fetchNotionTasks_request_failure env SampleListing.now "secret" "db"
           s _ _ [SampleListing.first] (JStr "c1") Sample.not_found
           [[SampleListing.page "a"; SampleListing.page "b"]] 5 Hconf Hans);
    [reflexivity | reflexivity | simpl; lia].
Defined.

Lemma fetchNotionTasks_never_ends_witness :
  let env := SampleListing.endless in
  Paging.notion_configured env "secret" "db" /\
  exists s',
    Listing.fetchNotionTasks SampleListing.now 1000 env SampleListing.start
    = (Ok None, s') /\
    length (Listing.calls (Listing.trace s')) = 1000%nat.
Proof.
  intros env.
  assert (Hconf : Paging.notion_configured env "secret" "db")
    by (split; reflexivity).
  split; [exact Hconf |].
  apply (fetchNotionTasks_never_ends env SampleListing.now "secret" "db"
           SampleListing.start Hconf).
  intros tr c. eexists _, _. split; [reflexivity | split; reflexivity].
Defined.

Lemma fetch_needs_credentials_witness :
  let env := SampleListing.unconfigured in
  nonempty_opt (Listing.NOTION_API_KEY env) = None /\
  Listing.fetchNotionTasks SampleListing.now 3 env SampleListing.start
  = (Throw (Error "NOTION_API_KEY environment variable is not set"),
     SampleListing.start) /\
  Listing.fetchTodoistTasks SampleListing.now env SampleListing.start
  = (Throw (Error "TODOIST_API_TOKEN environment variable is not set"),
     SampleListing.start).
Proof.
  intros env.
  destruct (fetch_needs_credentials env SampleListing.now SampleListing.start)
    as [Hnotion [_ Htodoist]].
  split; [reflexivity | split].
  - apply Hnotion. reflexivity.
  - apply Htodoist; reflexivity.
Defined.

Lemma fetchTodoistTasks_lists_witness :
  let s := SampleListing.start in
  (* wrapped in an object; one item is a number *)
  (Paging.lists (JObj [("results", JArr [Sample.item; JNum 7])])
     [Sample.item; JNum 7] /\
   Forall Printable.item [Sample.item; JNum 7] /\
   exists s2 tasks,
     Listing.fetchTodoistTasks SampleListing.now SampleListing.two_pages s
     = (Ok tasks, s2) /\
     map id tasks = ["todoist-todo-456"; "todoist-"]) /\
  (* bare, with a null item *)
  (Paging.lists (JArr [Sample.item; JNull]) [Sample.item; JNull] /\
   exists e s2,
     Listing.fetchTodoistTasks SampleListing.now SampleListing.breaks s
     = (Throw e, s2)).
Proof.
  intros s. split.
  - assert (Hl : Paging.lists (JObj [("results", JArr [Sample.item; JNum 7])])
                   [Sample.item; JNum 7]).
    { right. left. eexists. split; reflexivity. }
    split; [exact Hl |].
    assert (Hids : Forall Printable.item [Sample.item; JNum 7])
      by (repeat constructor).
    split; [exact Hids |].
    destruct (fetchTodoistTasks_lists SampleListing.two_pages SampleListing.now
                "token" s _ _ _ _ eq_refl eq_refl Hl) as [Hok _].
    eexists _, _. split.
    + apply Hok; [repeat constructor | exact Hids].
    + reflexivity.
  - assert (Hl : Paging.lists (JArr [Sample.item; JNull]) [Sample.item; JNull])
      by (left; reflexivity).
    split; [exact Hl |].
    destruct (fetchTodoistTasks_lists SampleListing.breaks SampleListing.now
                "token" s _ _ _ _ eq_refl eq_refl Hl) as [_ Hbad].
    destruct Hbad as [e He].
    + apply Exists_cons_tl. apply Exists_cons_hd. reflexivity.
    + exists e. eexists. exact He.
Defined.

Lemma page_list_keeps_pages_witness :
  Paging.page_list SampleListing.first
  = Ok [SampleListing.page "a"; SampleListing.page "b"].
Proof.
  destruct (page_list_keeps_pages
              [("results", JArr [SampleListing.page "a"; SampleListing.user;
                                 SampleListing.page "b"]);
               ("has_more", JBool true); ("next_cursor", JStr "c1")]
              [SampleListing.page "a"; SampleListing.user; SampleListing.page "b"]
              eq_refl) as [Hkeep _].
  unfold SampleListing.first. rewrite Hkeep; [reflexivity |].
  repeat constructor.
Defined.

Lemma write_needs_credentials_witness :
  let env := Payload.unconfigured in
  let no_database :=
    Client.mkEnv (Some "secret") None None (fun _ _ => Ok Sample.item) in
  let updates := mkUpdate (Some "Review PR") None (Some done) None None None in
  (nonempty_opt (NOTION_API_KEY env) = None /\
   Notion.deleteNotionTask (JStr "abc-123") env Sample.start
   = (Throw (Error "NOTION_API_KEY environment variable is not set"),
      Sample.start)) /\
  (nonempty_opt (NOTION_DATABASE_ID no_database) = None /\
   Notion.createNotionTask TestData.now SampleService.input no_database Sample.start
   = (Throw (Error "NOTION_DATABASE_ID environment variable is not set"),
      Sample.start)) /\
  (nonempty_opt (TODOIST_API_TOKEN env) = None /\
   Todoist.updateTodoistTask TestData.now (JStr "todo-456") updates env Sample.start
   = (Throw (Error "TODOIST_API_TOKEN environment variable is not set"),
      Sample.start)).
Proof.
  intros env no_database updates.
  destruct (write_needs_credentials env Sample.start TestData.now
              SampleService.input (JStr "abc-123") updates) as [Hnotion _].
  destruct (write_needs_credentials no_database Sample.start TestData.now
              SampleService.input (JStr "abc-123") updates) as [_ [Hdb _]].
  destruct (write_needs_credentials env Sample.start TestData.now
              SampleService.input (JStr "todo-456") updates) as [_ [_ Htodoist]].
  split; [| split]; (split; [reflexivity |]).
  - apply Hnotion. reflexivity.
  - apply Hdb; [discriminate | reflexivity].
  - apply Htodoist; reflexivity.
Defined.

Lemma todoist_client_is_kept_witness :
  let s' := snd (Todoist.createTodoistTask TestData.now SampleService.input
                   Sample.healthy Sample.start) in
  Payload.client_of Sample.healthy Sample.start = Some "token" /\
  todoist_client s' = Some "token" /\
  Todoist.getTodoistClient Payload.unconfigured s' = (Ok "token", s').
Proof.
  intros s'. split; [reflexivity |].
  destruct (todoist_client_is_kept Sample.healthy Sample.start TestData.now
              SampleService.input (JStr "todo-456")
              (mkUpdate None None (Some done) None None None) "token" eq_refl)
    as [[Hkept Hnext] _].
  split; [exact Hkept | apply Hnext].
Defined.

Lemma updateTodoistTask_half_done_witness :
  let env := Payload.no_completion in
  let sourceId := JStr "todo-456" in
  let updates := mkUpdate (Some "Review PR") None (Some done) None None None in
  let upd := todoist_updateTask sourceId (JObj (Todoist.updateParams updates)) in
  todoist_configured env Sample.start /\
  respond env [] upd = Ok Sample.item /\
  respond env [Client.ECall upd] (todoist_closeTask sourceId)
  = Throw Sample.not_found /\
  fst (Todoist.updateTodoistTask TestData.now sourceId updates env Sample.start)
  = Throw Sample.not_found /\
  calls (trace (snd (Todoist.updateTodoistTask TestData.now sourceId updates env
                       Sample.start)))
  = [upd; todoist_closeTask sourceId].
Proof.
  intros env sourceId updates upd.
  assert (Hconf : todoist_configured env Sample.start)
    by (right; discriminate).
  split; [exact Hconf | split; [reflexivity | split; [reflexivity |]]].
  apply (updateTodoistTask_half_done TestData.now env Sample.start sourceId
           updates Sample.item (todoist_closeTask sourceId) Sample.not_found
           Hconf eq_refl eq_refl eq_refl eq_refl).
Defined.

Lemma delete_calls_witness :
  let env := Sample.healthy in
  let built := Client.mkState (Some "token") [] in
  let archive :=
    notion_pages_update (JObj [("page_id", JStr "abc-123"); ("archived", JBool true)]) in
  let delete := todoist_deleteTask (JStr "todo-456") in
  (nonempty_opt (NOTION_API_KEY env) <> None /\
   Notion.deleteNotionTask (JStr "abc-123") env Sample.start
   = (Ok tt, Policy.after Sample.start [Client.ECall archive])) /\
  (todoist_client built <> None /\
   Todoist.deleteTodoistTask (JStr "todo-456") env built
   = (Ok tt, Policy.after built [Client.ECall delete])).
Proof.
  intros env built archive delete.
  destruct (delete_calls env Sample.start (JStr "abc-123")) as [_ [_ [Hnotion _]]].
  destruct (delete_calls env built (JStr "todo-456")) as [_ [_ [_ Htodoist]]].
  split.
  - assert (Hkey : nonempty_opt (NOTION_API_KEY env) <> None) by discriminate.
    split; [exact Hkey |]. apply (Hnotion Sample.item Hkey). reflexivity.
  - assert (Hclient : todoist_client built <> None) by discriminate.
    split; [exact Hclient |]. apply (Htodoist Sample.item Hclient). reflexivity.
Defined.

Lemma notionPageToTask_returns_iff_readable_witness :
  let holed :=
    (TestData.basePage ++
     [("properties", JObj [("Name", JObj [("title", JArr [JNull])])])])%list in
  (Printable.page TestData.fullPage /\
   Shape.readable TestData.fullPage /\
   exists t, notionPageToTask TestData.now TestData.fullPage = Ok t) /\
  (~ Shape.readable holed /\
   exists e, notionPageToTask TestData.now holed = Throw e).
Proof.
  intros holed. split.
  - assert (Hprints : Printable.page TestData.fullPage)
      by (repeat split; reflexivity).
    split; [exact Hprints |].
    assert (Hok : Shape.readable TestData.fullPage).
    { unfold Shape.readable. split; [| split; [| split; [| split]]].
      - simpl. repeat constructor.
      - simpl. repeat constructor.
      - right. eexists. reflexivity.
      - right. eexists. reflexivity.
      - simpl. repeat constructor. }
    split; [exact Hok |].
    apply (proj1 (notionPageToTask_returns_iff_readable TestData.now
                    TestData.fullPage) Hprints).
    exact Hok.
  - assert (Hbad : ~ Shape.readable holed).
    { unfold Shape.readable. intros [Htitle _]. simpl in Htitle.
      inversion Htitle as [| ? ? Hnull _]. discriminate Hnull. }
    split; [exact Hbad |].
    apply (proj2 (notionPageToTask_returns_iff_readable TestData.now holed) Hbad).
Defined.

Lemma getAllTasks_merges_witness :
  let env := SampleMerge.both_up in
  let s := SampleService.empty in
  let l1 := [SampleMerge.n1; SampleMerge.n2] in
  let l2 := [SampleMerge.d1] in
  fst (TaskService.isCacheValid env s) = Ok false /\
  TaskService.fetchNotionTasks env [] = Ok l1 /\
  TaskService.fetchTodoistTasks env [TaskService.ECall TaskService.fetchNotionTasks_]
  = Ok l2 /\
  Order.valid_dates env (l1 ++ l2) /\
  exists s',
    TaskService.getAllTasks env s
    = (Ok [SampleMerge.n2; SampleMerge.n1; SampleMerge.d1], s') /\
    Order.sorted_desc env [SampleMerge.n2; SampleMerge.n1; SampleMerge.d1].
Proof.
  intros env s l1 l2.
  assert (Hdates : Order.valid_dates env (l1 ++ l2)).
  { unfold Order.valid_dates. repeat constructor; discriminate. }
  split; [reflexivity | split; [reflexivity | split; [reflexivity |]]].
  split; [exact Hdates |].
  destruct (getAllTasks_merges env s l1 l2 eq_refl eq_refl eq_refl)
    as [ts [s' [t [Hrun [_ [_ [Hsorted _]]]]]]].
  apply Hsorted in Hdates. destruct Hdates as [Hdesc _].
  assert (Hts : fst (TaskService.getAllTasks env s)
                = Ok [SampleMerge.n2; SampleMerge.n1; SampleMerge.d1])
    by reflexivity.
  rewrite Hrun in Hts. simpl in Hts. injection Hts as Hts. subst ts.
  exists s'. split; [exact Hrun | exact Hdesc].
Defined.

Lemma getAllTasks_remembers_witness :
  let env := SampleMerge.both_down in
  let s := SampleService.empty in
  fst (TaskService.isCacheValid env s) = Ok false /\
  exists s1,
    TaskService.getAllTasks env s = (Ok [], s1) /\
    TaskService.trace s1
    = [TaskService.ECall TaskService.fetchNotionTasks_;
       TaskService.ECall TaskService.fetchTodoistTasks_;
       TaskService.EConsoleError SampleService.outage;
       TaskService.EConsoleError SampleService.outage;
       TaskService.ENow 1717632004000] /\
    fst (TaskService.getAllTasks env s1) = Ok [] /\
    TaskService.calls (TaskService.trace (snd (TaskService.getAllTasks env s1)))
    = [TaskService.fetchNotionTasks_; TaskService.fetchTodoistTasks_].
Proof.
  intros env s. split; [reflexivity |].
  destruct (getAllTasks_remembers env s eq_refl)
    as [ts [s1 [Hrun [Hcache [Htrace [Hhit Hempty]]]]]].
  assert (Hts : ts = [])
    by (apply (Hempty SampleService.outage SampleService.outage); reflexivity).
  subst ts.
  exists s1. split; [exact Hrun |].
  split; [rewrite Htrace; reflexivity |].
  assert (Hage : TaskService.dateNow env (TaskService.trace s1) - 1717632004000
                 < TaskService.CACHE_TTL_MS)
    by (rewrite Htrace; vm_compute; reflexivity).
  destruct (Hhit Hage) as [Hfst Hcalls].
  split; [exact Hfst |]. rewrite Hcalls, Htrace. reflexivity.
Defined.

Lemma applyFilters_idempotent_witness :
  let filters := FilterTasks.mkFilters "all" "todo" "all" "dueDate" in
  let once :=
    FilterTasks.applyFilters FilterTasks.getTime FilterTasks.makeTasks filters in
  Forall (SortKey.readable FilterTasks.getTime (FilterTasks.sortBy filters))
    FilterTasks.makeTasks /\
  once = [FilterTasks.task1; FilterTasks.task4] /\
  FilterTasks.applyFilters FilterTasks.getTime once filters = once.
Proof.
  intros filters once.
  assert (Hdates : Forall (SortKey.readable FilterTasks.getTime
                             (FilterTasks.sortBy filters)) FilterTasks.makeTasks)
    by exact makeTasks_due_readable.
  split; [exact Hdates | split; [reflexivity |]].
  apply (applyFilters_idempotent FilterTasks.getTime FilterTasks.makeTasks filters
           Hdates).
Defined.

Lemma updateTodoistTask_returns_update_answer_witness :
  let sourceId := JStr "todo-456" in
  let updates := mkUpdate (Some "Review PR") None (Some done) None None None in
  let upd := todoist_updateTask sourceId (JObj (Todoist.updateParams updates)) in
  let run := Todoist.updateTodoistTask TestData.now sourceId updates Sample.healthy
               Sample.start in
  exists t,
    fst run = Ok t /\
    calls (trace (snd run)) = [upd; todoist_closeTask sourceId] /\
    status t = todo.
Proof.
  intros sourceId updates upd run.
  pose proof (updateTodoistTask_returns_update_answer TestData.now Sample.healthy
                Sample.start sourceId updates) as H.
  cbv zeta in H. fold sourceId updates upd run in H.
  destruct run as [[t | e] s'] eqn:Hrun; [| discriminate Hrun].
  destruct H as [earlier [later [item [_ [_ [Hitem [_ [_ [_ [Hstatus _]]]]]]]]]].
  injection Hitem as <-.
  exists t. split; [reflexivity | split; [| exact Hstatus]].
  change s' with (snd (Ok t, s')). rewrite <- Hrun. reflexivity.
Defined.
